(** * Roomify model converter: legacy Three.js JSON mesh to GLB.

    A shallow embedding of [convert-models.js] (functions
    [convertThreeJsJsonToGltf], [createGlb] and the per-file body of
    [convertModels]) and the properties of the converter that the
    specification states.
    The last part of the definitions embeds the rest of the code: the
    batch of [convertModels], the handlers of [ar-server.js] that keep the
    models directory and the saved designs, and the server URL of
    [ar-exporter.js].

    JavaScript numbers are IEEE 754 binary64 values: they are Rocq's
    primitive [float]s, so [*], [<], [>] and [-] below are the machine
    operations.  [undefined] is [None].  The integers of the face stream are
    [Z]. *)

From Stdlib Require Import Strings.String Strings.Ascii Strings.Byte.
From Stdlib Require Import ZArith List Bool Lia Floats.
From Stdlib Require Import Permutation Sorted DecimalString DecimalZ.
Import ListNotations.

(* Decimal literals such as [0.95] denote the nearest binary64 value, as in
   JavaScript. *)
Set Warnings "-inexact-float,-abstract-large-number".

Local Open Scope Z_scope.

(** ** JavaScript values and operators used by the converter *)

Module Js.

(** A value read from an array: a number, or [undefined]. *)
Definition value (A : Type) := option A.

(** [a[i]] for an array [a] and a number [i] that is an integer or [NaN]
    ([None]): a negative, too large or [NaN] subscript reads [undefined]. *)
Definition get {A : Type} (a : list A) (i : option Z) : value A :=
  match i with
  | Some z => if z <? 0 then None else nth_error a (Z.to_nat z)
  | None => None
  end.

(** [x * k] and [x + k] on a subscript: [undefined * 3] is [NaN], and
    [NaN + 1] is [NaN]. *)
Definition imul (x : option Z) (k : Z) : option Z := option_map (fun z => z * k) x.
Definition iadd (x : option Z) (k : Z) : option Z := option_map (fun z => z + k) x.

(** ToNumber: [undefined] becomes [NaN]. *)
Definition toNumber (v : value float) : float :=
  match v with Some x => x | None => nan end.

(** Truthiness of a number: [0], [-0] and [NaN] are falsy. *)
Definition truthy (x : float) : bool := negb (is_zero x || is_nan x).

(** [v || d] on a number or [undefined]. *)
Definition orElse (v : value float) (d : float) : float :=
  match v with
  | Some x => if truthy x then x else d
  | None => d
  end.

(** ToInt32, the conversion [&] applies to its operands: the integer
    modulo [2 ^ 32] that lies in [-2 ^ 31 .. 2 ^ 31 - 1]. *)
Definition two31 : Z := Eval cbv in 2 ^ 31.
Definition two32 : Z := Eval cbv in 2 ^ 32.
Definition toInt32 (z : Z) : Z := (z + two31) mod two32 - two31.

(** [a & b]. *)
Definition band (a b : Z) : Z := Z.land (toInt32 a) (toInt32 b).

(** [Math.min] and [Math.max] of two numbers: [NaN] if either is [NaN],
    and [-0] is smaller than [+0]. *)
Definition min (x y : float) : float :=
  if is_nan x || is_nan y then nan
  else if (x <? y)%float then x
  else if (y <? x)%float then y
  else if get_sign x then x else y.

Definition max (x y : float) : float :=
  if is_nan x || is_nan y then nan
  else if (y <? x)%float then x
  else if (x <? y)%float then y
  else if get_sign x then y else x.

(** [x > y]. *)
Definition gtb (x y : float) : bool := (y <? x)%float.

End Js.

(** ** The legacy mesh document *)

Record Material := { colorDiffuse : option (float * float * float) }.

(** The parsed JSON document [modelData].  A field that may be absent is an
    [option]; [uvs] is the array of UV channels. *)
Module ModelData.
Record t := {
  scale : option float;
  vertices : option (list float);
  normals : option (list float);
  uvs : option (list (list float));
  faces : option (list Z);
  materials : option (list Material)
}.
End ModelData.

(** ** Decoding the face stream

    The read cursor [i] into [faces] is kept as the unread suffix
    [faces[i..]]: the loop only reads at [i], advances [i], and tests
    [i < faces.length], which is whether the suffix is non-empty.  Reading or
    skipping at the end of the array leaves the empty suffix. *)

Definition Stream := list Z.

(** [faces[i++]]. *)
Definition next (s : Stream) : option Z * Stream :=
  match s with
  | [] => (None, [])
  | x :: s' => (Some x, s')
  end.

(** [for (v = 0; v < n; v++) out.push(faces[i++])]. *)
Fixpoint readIndices (n : nat) (s : Stream) : list (option Z) * Stream :=
  match n with
  | O => ([], s)
  | S n' =>
      let (x, s1) := next s in
      let (xs, s2) := readIndices n' s1 in
      (x :: xs, s2)
  end.

(** [if (b) i += n]. *)
Definition skipIf (b : bool) (n : nat) (s : Stream) : Stream :=
  if b then skipn n s else s.

Record FaceFlags := {
  isQuad : bool;
  hasMaterial : bool;
  hasFaceUv : bool;
  hasFaceVertexUv : bool;
  hasFaceNormal : bool;
  hasFaceVertexNormal : bool;
  hasFaceColor : bool;
  hasFaceVertexColor : bool
}.

Definition bitSet (faceType mask : Z) : bool := negb (Js.band faceType mask =? 0).

Definition decodeFlags (faceType : Z) : FaceFlags := {|
  isQuad := bitSet faceType 1;
  hasMaterial := bitSet faceType 2;
  hasFaceUv := bitSet faceType 4;
  hasFaceVertexUv := bitSet faceType 8;
  hasFaceNormal := bitSet faceType 16;
  hasFaceVertexNormal := bitSet faceType 32;
  hasFaceColor := bitSet faceType 64;
  hasFaceVertexColor := bitSet faceType 128
|}.

Definition numVertices (fl : FaceFlags) : nat := if isQuad fl then 4%nat else 3%nat.

(** One decoded face: its flags and the three index lists the loop body
    fills. *)
Record FaceRecord := {
  flags : FaceFlags;
  vertexIndices : list (option Z);
  faceUvIndices : list (option Z);
  faceNormalIndices : list (option Z)
}.

(** The reading part of one loop iteration, after [faceType = faces[i++]]. *)
Definition readFace (faceType : Z) (s : Stream) : FaceRecord * Stream :=
  let fl := decodeFlags faceType in
  let n := numVertices fl in
  let (vis, s1) := readIndices n s in
  let s2 := skipIf (hasMaterial fl) 1 s1 in
  let s3 := skipIf (hasFaceUv fl) 1 s2 in
  let (uis, s4) := if hasFaceVertexUv fl then readIndices n s3 else ([], s3) in
  let s5 := skipIf (hasFaceNormal fl) 1 s4 in
  let (nis, s6) := if hasFaceVertexNormal fl then readIndices n s5 else ([], s5) in
  let s7 := skipIf (hasFaceColor fl) 1 s6 in
  let s8 := skipIf (hasFaceVertexColor fl) n s7 in
  ({| flags := fl; vertexIndices := vis; faceUvIndices := uis; faceNormalIndices := nis |}, s8).

(** ** Expanding faces into per-corner buffers *)

(** The four arrays the loop pushes to. *)
Record Expanded := {
  positions : list float;
  normalData : list float;
  uvData : list float;
  indices : list Z
}.

Definition emptyExpanded : Expanded :=
  {| positions := []; normalData := []; uvData := []; indices := [] |}.

(** What one iteration pushes, followed by what the later ones push. *)
Definition pushed (a b : Expanded) : Expanded := {|
  positions := positions a ++ positions b;
  normalData := normalData a ++ normalData b;
  uvData := uvData a ++ uvData b;
  indices := indices a ++ indices b
|}.

Section Corners.

(** The document arrays the loop reads, after their defaults. *)
Variable scaleV : float.
Variable verticesV normalsV uvsV : list float.

(** [vertexIndices[v]] and the like: the [v]-th element or [undefined]. *)
Definition at_ (l : list (option Z)) (v : nat) : option Z :=
  match nth_error l v with Some x => x | None => None end.

Definition cornerPosition (f : FaceRecord) (v : nat) : list float :=
  let vIdx := Js.imul (at_ (vertexIndices f) v) 3 in
  [ (Js.toNumber (Js.get verticesV vIdx) * scaleV)%float;
    (Js.toNumber (Js.get verticesV (Js.iadd vIdx 1)) * scaleV)%float;
    (Js.toNumber (Js.get verticesV (Js.iadd vIdx 2)) * scaleV)%float ].

Definition cornerNormal (f : FaceRecord) (v : nat) : list float :=
  match hasFaceVertexNormal (flags f), at_ (faceNormalIndices f) v with
  | true, Some n =>
      let nIdx := Js.imul (Some n) 3 in
      [ Js.orElse (Js.get normalsV nIdx) 0;
        Js.orElse (Js.get normalsV (Js.iadd nIdx 1)) 0;
        Js.orElse (Js.get normalsV (Js.iadd nIdx 2)) 0 ]
  | _, _ => [0; 1; 0]%float
  end.

Definition cornerUv (f : FaceRecord) (v : nat) : list float :=
  match hasFaceVertexUv (flags f), at_ (faceUvIndices f) v with
  | true, Some u =>
      let uIdx := Js.imul (Some u) 2 in
      [ Js.orElse (Js.get uvsV uIdx) 0;
        Js.orElse (Js.get uvsV (Js.iadd uIdx 1)) 0 ]
  | _, _ => [0; 0]%float
  end.

(** [faceVertexIndices]: the output indices [vertexIndex++] hands to the
    corners of one face. *)
Definition faceVertexIndices (vertexIndex : Z) (n : nat) : list Z :=
  map (fun v => vertexIndex + Z.of_nat v) (seq 0 n).

(** [faceVertexIndices[k]]; the loop only reads subscripts it has pushed. *)
Definition fvi (l : list Z) (k : nat) : Z := nth k l 0.

Definition triangulate (quad : bool) (l : list Z) : list Z :=
  if quad
  then [fvi l 0; fvi l 1; fvi l 2] ++ [fvi l 0; fvi l 2; fvi l 3]
  else [fvi l 0; fvi l 1; fvi l 2].

(** The pushing part of one loop iteration. *)
Definition emitFace (f : FaceRecord) (vertexIndex : Z) : Expanded :=
  let n := numVertices (flags f) in
  {| positions := flat_map (cornerPosition f) (seq 0 n);
     normalData := flat_map (cornerNormal f) (seq 0 n);
     uvData := flat_map (cornerUv f) (seq 0 n);
     indices := triangulate (isQuad (flags f)) (faceVertexIndices vertexIndex n) |}.

(** [while (i < faces.length) { ... }].  Every iteration reads at least
    the face type, so [length faces] iterations of fuel are enough
    ([expandFaces_total]). *)
Fixpoint expandFaces (fuel : nat) (vertexIndex : Z) (s : Stream) : option Expanded :=
  match s with
  | [] => Some emptyExpanded
  | faceType :: s1 =>
      match fuel with
      | O => None
      | S fuel' =>
          let (f, s2) := readFace faceType s1 in
          match expandFaces fuel' (vertexIndex + Z.of_nat (numVertices (flags f))) s2 with
          | Some rest => Some (pushed (emitFace f vertexIndex) rest)
          | None => None
          end
      end
  end.

End Corners.

(** ** Strings: [toLowerCase], [includes], [replace]

    File names are strings of 8-bit characters; [toLowerCase] maps the
    letters [A]-[Z] and leaves every other character as it is. *)

Local Open Scope string_scope.

Definition lowerChar (c : ascii) : ascii :=
  let n := nat_of_ascii c in
  if ((65 <=? n)%nat && (n <=? 90)%nat)%bool then ascii_of_nat (n + 32) else c.

Fixpoint toLowerCase (s : string) : string :=
  match s with
  | EmptyString => EmptyString
  | String c s' => String (lowerChar c) (toLowerCase s')
  end.

(** [s.includes(key)]: [key] starts at some position of [s]. *)
Fixpoint includes (s key : string) : bool :=
  (String.prefix key s ||
   match s with
   | EmptyString => false
   | String _ s' => includes s' key
   end)%bool.

Fixpoint dropChars (n : nat) (s : string) : string :=
  match n, s with
  | S n', String _ s' => dropChars n' s'
  | _, _ => s
  end.

(** [s.replace(pat, rep)] for string arguments: the first occurrence only. *)
Fixpoint replace (pat rep s : string) : string :=
  if String.prefix pat s then rep ++ dropChars (String.length pat) s
  else match s with
       | EmptyString => EmptyString
       | String c s' => String c (replace pat rep s')
       end.

(** ** Base color *)

Definition Color := (float * float * float * float)%type.

Definition alpha (c : Color) : float := snd c.

Definition rgba (r g b a : float) : Color := (r, g, b, a).

Definition defaultColor : Color := rgba 0.6 0.5 0.4 1.0.

(** [colorMap], in the order [Object.entries] enumerates it: the order the
    keys are written in. *)
Definition colorMap : list (string * Color) := [
  ("white", rgba 0.95 0.95 0.95 1.0);
  ("gray", rgba 0.6 0.6 0.6 1.0);
  ("grey", rgba 0.6 0.6 0.6 1.0);
  ("blue", rgba 0.2 0.4 0.7 1.0);
  ("orange", rgba 0.9 0.5 0.2 1.0);
  ("green", rgba 0.3 0.6 0.3 1.0);
  ("brown", rgba 0.55 0.35 0.2 1.0);
  ("walnut", rgba 0.4 0.25 0.15 1.0);
  ("oak", rgba 0.7 0.55 0.35 1.0);
  ("whiteoak", rgba 0.8 0.7 0.5 1.0);
  ("smoke", rgba 0.4 0.4 0.45 1.0);
  ("black", rgba 0.15 0.15 0.15 1.0)
].

(** [for (const [key, color] of entries) if (lowerName.includes(key)) { baseColor = color; break; }] *)
Fixpoint keywordColor (lowerName : string) (entries : list (string * Color))
    (baseColor : Color) : Color :=
  match entries with
  | [] => baseColor
  | (key, color) :: rest =>
      if includes lowerName key then color else keywordColor lowerName rest baseColor
  end.

(** The two tests of the material loop. *)
Definition nearWhite (c : float * float * float) : bool :=
  let '(c0, c1, c2) := c in
  (Js.gtb c0 0.9 && Js.gtb c1 0.9 && Js.gtb c2 0.9)%bool.

Definition nearGray (c : float * float * float) : bool :=
  let '(c0, c1, c2) := c in
  ((abs (c0 - c1) <? 0.05)%float && (abs (c1 - c2) <? 0.05)%float)%bool.

(** [for (const mat of materials) if (mat.colorDiffuse) { ...; break; }] *)
Fixpoint materialColor (mats : list Material) (baseColor : Color) : Color :=
  match mats with
  | [] => baseColor
  | mat :: rest =>
      match colorDiffuse mat with
      | Some c =>
          if (negb (nearWhite c) && negb (nearGray c))%bool
          then let '(c0, c1, c2) := c in rgba c0 c1 c2 1.0
          else materialColor rest baseColor
      | None => materialColor rest baseColor
      end
  end.

(** The color part of [convertThreeJsJsonToGltf]: the default, then the
    keyword loop, then the material loop, each assigning [baseColor]. *)
Definition resolveColor (materials : list Material) (fileName : string) : Color :=
  let baseColor := defaultColor in
  let lowerName := toLowerCase fileName in
  let baseColor := keywordColor lowerName colorMap baseColor in
  if (0 <? length materials)%nat then materialColor materials baseColor else baseColor.

Local Close Scope string_scope.

(** ** Typed arrays and bytes *)

Definition byteOf (z : Z) : byte :=
  match Byte.of_N (Z.to_N (z mod 256)) with
  | Some b => b
  | None => x00
  end.

(** The [n] little-endian bytes of [z]. *)
Fixpoint littleEndian (n : nat) (z : Z) : list byte :=
  match n with
  | O => []
  | S n' => byteOf z :: littleEndian n' (Z.shiftr z 8)
  end.

(** The binary32 value nearest to a number (ties to even), as storing into
    a [Float32Array] rounds it. *)
Definition toFloat32 (x : float) : spec_float :=
  match Prim2SF x with
  | S754_finite s m e => binary_round 24 128 s m e
  | sf => sf
  end.

Definition signBit (s : bool) : Z := if s then 2 ^ 31 else 0.

(** The IEEE 754 binary32 encoding of [m * 2 ^ e]: a subnormal has
    [e = -149] and its fraction is [m]; a normal number has [2 ^ 23 <= m],
    and adding [m] carries its leading bit into the exponent field, which
    makes the biased exponent [e + 150].  The bits of a stored [NaN] are
    left to the implementation by the language; the quiet [NaN]
    [0x7FC00000] is taken here. *)
Definition float32Bits (x : float) : Z :=
  match toFloat32 x with
  | S754_zero s => signBit s
  | S754_infinity s => signBit s + 0x7F800000
  | S754_nan => 0x7FC00000
  | S754_finite s m e => signBit s + (e + 149) * 2 ^ 23 + Zpos m
  end.

Inductive ArrayType := Float32Array | Uint16Array | Uint32Array.

(** A typed array: its constructor and the bit patterns of its elements. *)
Record TypedArray := {
  arrayType : ArrayType;
  elements : list Z
}.

Definition bytesPerElement (t : ArrayType) : nat :=
  match t with
  | Float32Array => 4
  | Uint16Array => 2
  | Uint32Array => 4
  end.

Definition newFloat32Array (l : list float) : TypedArray :=
  {| arrayType := Float32Array; elements := map float32Bits l |}.

Definition newUint16Array (l : list Z) : TypedArray :=
  {| arrayType := Uint16Array; elements := map (fun z => z mod 2 ^ 16) l |}.

Definition newUint32Array (l : list Z) : TypedArray :=
  {| arrayType := Uint32Array; elements := map (fun z => z mod 2 ^ 32) l |}.

(** [a.length] *)
Definition arrayLength (a : TypedArray) : Z := Z.of_nat (length (elements a)).

(** [a.buffer.slice(0)]: the bytes of the array, little-endian elements. *)
Definition arrayBytes (a : TypedArray) : list byte :=
  flat_map (littleEndian (bytesPerElement (arrayType a))) (elements a).

(** ** Bounding box *)

Definition Vec3 := (float * float * float)%type.

Record Bounds := { bmin : Vec3; bmax : Vec3 }.

Definition initialBounds : Bounds :=
  {| bmin := (infinity, infinity, infinity);
     bmax := (neg_infinity, neg_infinity, neg_infinity) |}.

(** One iteration of the bounding-box loop on [positions[j]],
    [positions[j + 1]], [positions[j + 2]]. *)
Definition growBounds (b : Bounds) (x y z : Js.value float) : Bounds :=
  let '(minX, minY, minZ) := bmin b in
  let '(maxX, maxY, maxZ) := bmax b in
  {| bmin := (Js.min minX (Js.toNumber x), Js.min minY (Js.toNumber y), Js.min minZ (Js.toNumber z));
     bmax := (Js.max maxX (Js.toNumber x), Js.max maxY (Js.toNumber y), Js.max maxZ (Js.toNumber z)) |}.

(** [for (j = 0; j < positions.length; j += 3) ...] *)
Fixpoint boundsLoop (ps : list float) (b : Bounds) : Bounds :=
  match ps with
  | [] => b
  | [x] => growBounds b (Some x) None None
  | [x; y] => growBounds b (Some x) (Some y) None
  | x :: y :: z :: rest => boundsLoop rest (growBounds b (Some x) (Some y) (Some z))
  end.

(** ** [convertThreeJsJsonToGltf] *)

(** The object the function returns, [data] in [createGlb]. *)
Module GltfData.
Record t := {
  positions : TypedArray;
  normals : TypedArray;
  uvs : TypedArray;
  indices : TypedArray;
  baseColor : Color;
  bounds : Bounds;
  name : string
}.
End GltfData.

Definition orEmpty {A : Type} (v : option (list A)) : list A :=
  match v with Some l => l | None => [] end.

(** [modelData.scale || 1] *)
Definition scaleOf (modelData : ModelData.t) : float :=
  Js.orElse (ModelData.scale modelData) 1.

(** [modelData.uvs && modelData.uvs[0] ? modelData.uvs[0] : []] *)
Definition uvsOf (modelData : ModelData.t) : list float :=
  match ModelData.uvs modelData with
  | Some (channel0 :: _) => channel0
  | _ => []
  end.

(** The face loop of the function on a document. *)
Definition expand (modelData : ModelData.t) : option Expanded :=
  let faces := orEmpty (ModelData.faces modelData) in
  expandFaces (scaleOf modelData)
    (orEmpty (ModelData.vertices modelData))
    (orEmpty (ModelData.normals modelData))
    (uvsOf modelData)
    (length faces) 0 faces.

Definition convertThreeJsJsonToGltf (modelData : ModelData.t) (fileName : string)
    : option GltfData.t :=
  match expand modelData with
  | None => None
  | Some e =>
      let baseColor := resolveColor (orEmpty (ModelData.materials modelData)) fileName in
      let positionBuffer := newFloat32Array (positions e) in
      let normalBuffer := newFloat32Array (normalData e) in
      let uvBuffer := newFloat32Array (uvData e) in
      let indexBuffer :=
        if Z.of_nat (length (indices e)) <? 65536
        then newUint16Array (indices e) else newUint32Array (indices e) in
      Some {| GltfData.positions := positionBuffer;
              GltfData.normals := normalBuffer;
              GltfData.uvs := uvBuffer;
              GltfData.indices := indexBuffer;
              GltfData.baseColor := baseColor;
              GltfData.bounds := boundsLoop (positions e) initialBounds;
              GltfData.name := replace ".js" EmptyString fileName |}
  end.

(** ** The glTF JSON document *)

Module Gltf.
Record Asset := { version : string; generator : string }.
Record Scene := { sceneNodes : list Z }.
Record Node := { mesh : Z; nodeName : string }.
Record Primitive := {
  POSITION : Z; NORMAL : Z; TEXCOORD_0 : Z;
  indices : Z; material : Z
}.
Record Mesh := { meshName : string; primitives : list Primitive }.
Record Pbr := {
  baseColorFactor : Color;
  metallicFactor : float;
  roughnessFactor : float
}.
Record Material := { materialName : string; pbrMetallicRoughness : Pbr }.
Record Accessor := {
  bufferView : Z;
  componentType : Z;
  count : Z;
  type : string;
  min : option Vec3;
  max : option Vec3
}.
Record BufferView := { buffer : Z; byteOffset : Z; byteLength : Z; target : Z }.
Record Buffer := { bufferByteLength : Z }.
Record t := {
  asset : Asset;
  scene : Z;
  scenes : list Scene;
  nodes : list Node;
  meshes : list Mesh;
  materials : list Material;
  accessors : list Accessor;
  bufferViews : list BufferView;
  buffers : list Buffer
}.
End Gltf.

(** ** Node.js buffers *)

Inductive Exn := RangeError | SyntaxError.

Inductive result (A : Type) :=
| Ok (a : A)
| Throw (e : Exn).
Arguments Ok {A} a.
Arguments Throw {A} e.

Definition bind {A B : Type} (r : result A) (k : A -> result B) : result B :=
  match r with
  | Ok a => k a
  | Throw e => Throw e
  end.

Notation "'let*' x ':=' r 'in' k" := (bind r (fun x => k))
  (at level 10, x name, r at level 100, k at level 200).

(** Writing [src] over [target] from position [start]: what does not fit
    is dropped, and [target] keeps its length. *)
Fixpoint overwrite {A : Type} (target : list A) (start : nat) (src : list A) : list A :=
  match target with
  | [] => []
  | t :: ts =>
      match start with
      | S k => t :: overwrite ts k src
      | O =>
          match src with
          | [] => target
          | b :: bs => b :: overwrite ts O bs
          end
      end
  end.

(** [Buffer.alloc(size)]: zero-filled. *)
Definition alloc (size : Z) : list byte := repeat x00 (Z.to_nat size).

(** [src.copy(target, targetStart)], for the non-negative offsets the
    converter passes. *)
Definition copy (src target : list byte) (targetStart : Z) : list byte :=
  overwrite target (Z.to_nat targetStart) src.

(** [buf.writeUInt32LE(value, offset)]: a [RangeError] unless [value] is a
    32-bit unsigned integer and the four bytes lie inside [buf]. *)
Definition writeUInt32LE (value offset : Z) (buf : list byte) : result (list byte) :=
  if ((0 <=? value) && (value <? 2 ^ 32) &&
      (0 <=? offset) && (offset + 4 <=? Z.of_nat (length buf)))%bool
  then Ok (overwrite buf (Z.to_nat offset) (littleEndian 4 value))
  else Throw RangeError.

(** [for (p = 0; p < n; p++) glb[offset++] = 0x20] *)
Fixpoint fillSpaces (n : nat) (glb : list byte) (offset : Z) : list byte * Z :=
  match n with
  | O => (glb, offset)
  | S n' => fillSpaces n' (overwrite glb (Z.to_nat offset) [byteOf 0x20]) (offset + 1)
  end.

(** ** [createGlb] *)

(** [(4 - (len % 4)) % 4], with the remainder of JavaScript. *)
Definition pad (len : Z) : Z := Z.rem (4 - Z.rem len 4) 4.

Definition byteLen (b : list byte) : Z := Z.of_nat (length b).

Record Lengths := { posLen : Z; normLen : Z; uvLen : Z; idxLen : Z }.

Definition lengthsOf (data : GltfData.t) : Lengths := {|
  posLen := byteLen (arrayBytes (GltfData.positions data));
  normLen := byteLen (arrayBytes (GltfData.normals data));
  uvLen := byteLen (arrayBytes (GltfData.uvs data));
  idxLen := byteLen (arrayBytes (GltfData.indices data))
|}.

Definition bufferLengthOf (l : Lengths) : Z :=
  posLen l + pad (posLen l) + normLen l + pad (normLen l)
  + uvLen l + pad (uvLen l) + idxLen l + pad (idxLen l).

(** The object [gltf].  The three [count]s divide lengths that the
    converter makes multiples of the divisor. *)
Definition gltfDocument (data : GltfData.t) : Gltf.t :=
  let l := lengthsOf data in
  {| Gltf.asset := {| Gltf.version := "2.0"; Gltf.generator := "Roomify Model Converter" |};
     Gltf.scene := 0;
     Gltf.scenes := [ {| Gltf.sceneNodes := [0] |} ];
     Gltf.nodes := [ {| Gltf.mesh := 0; Gltf.nodeName := GltfData.name data |} ];
     Gltf.meshes := [ {|
       Gltf.meshName := GltfData.name data;
       Gltf.primitives := [ {|
         Gltf.POSITION := 0; Gltf.NORMAL := 1; Gltf.TEXCOORD_0 := 2;
         Gltf.indices := 3; Gltf.material := 0 |} ] |} ];
     Gltf.materials := [ {|
       Gltf.materialName := "Material";
       Gltf.pbrMetallicRoughness := {|
         Gltf.baseColorFactor := GltfData.baseColor data;
         Gltf.metallicFactor := 0.0;
         Gltf.roughnessFactor := 0.8 |} |} ];
     Gltf.accessors := [
       {| Gltf.bufferView := 0; Gltf.componentType := 5126;
          Gltf.count := arrayLength (GltfData.positions data) / 3;
          Gltf.type := "VEC3";
          Gltf.min := Some (bmin (GltfData.bounds data));
          Gltf.max := Some (bmax (GltfData.bounds data)) |};
       {| Gltf.bufferView := 1; Gltf.componentType := 5126;
          Gltf.count := arrayLength (GltfData.normals data) / 3;
          Gltf.type := "VEC3"; Gltf.min := None; Gltf.max := None |};
       {| Gltf.bufferView := 2; Gltf.componentType := 5126;
          Gltf.count := arrayLength (GltfData.uvs data) / 2;
          Gltf.type := "VEC2"; Gltf.min := None; Gltf.max := None |};
       {| Gltf.bufferView := 3;
          Gltf.componentType :=
            match arrayType (GltfData.indices data) with
            | Uint16Array => 5123
            | _ => 5125
            end;
          Gltf.count := arrayLength (GltfData.indices data);
          Gltf.type := "SCALAR"; Gltf.min := None; Gltf.max := None |} ];
     Gltf.bufferViews := [
       {| Gltf.buffer := 0; Gltf.byteOffset := 0;
          Gltf.byteLength := posLen l; Gltf.target := 34962 |};
       {| Gltf.buffer := 0; Gltf.byteOffset := posLen l + pad (posLen l);
          Gltf.byteLength := normLen l; Gltf.target := 34962 |};
       {| Gltf.buffer := 0;
          Gltf.byteOffset := posLen l + pad (posLen l) + normLen l + pad (normLen l);
          Gltf.byteLength := uvLen l; Gltf.target := 34962 |};
       {| Gltf.buffer := 0;
          Gltf.byteOffset :=
            posLen l + pad (posLen l) + normLen l + pad (normLen l) + uvLen l + pad (uvLen l);
          Gltf.byteLength := idxLen l; Gltf.target := 34963 |} ];
     Gltf.buffers := [ {| Gltf.bufferByteLength := bufferLengthOf l |} ] |}.

(** [binBuffer] after the four copies. *)
Definition packBuffer (data : GltfData.t) : list byte :=
  let l := lengthsOf data in
  let binBuffer := alloc (bufferLengthOf l) in
  let offset := 0 in
  let binBuffer := copy (arrayBytes (GltfData.positions data)) binBuffer offset in
  let offset := offset + (posLen l + pad (posLen l)) in
  let binBuffer := copy (arrayBytes (GltfData.normals data)) binBuffer offset in
  let offset := offset + (normLen l + pad (normLen l)) in
  let binBuffer := copy (arrayBytes (GltfData.uvs data)) binBuffer offset in
  let offset := offset + (uvLen l + pad (uvLen l)) in
  copy (arrayBytes (GltfData.indices data)) binBuffer offset.

Section Container.

(** [Buffer.from(JSON.stringify(gltf))]: the UTF-8 bytes of the JSON text
    of the document, a service of the platform. *)
Variable encodeJson : Gltf.t -> list byte.

Definition glbLengthOf (data : GltfData.t) : Z :=
  let gltfLen := byteLen (encodeJson (gltfDocument data)) in
  12 + 8 + gltfLen + pad gltfLen + 8 + bufferLengthOf (lengthsOf data).

Definition createGlb (data : GltfData.t) : result (list byte) :=
  let bufferLength := bufferLengthOf (lengthsOf data) in
  let gltfBytes := encodeJson (gltfDocument data) in
  let gltfPadding := pad (byteLen gltfBytes) in
  let binBuffer := packBuffer data in
  let glbLength := 12 + 8 + byteLen gltfBytes + gltfPadding + 8 + bufferLength in
  let glb := alloc glbLength in
  let offset := 0 in
  let* glb := writeUInt32LE 0x46546C67 offset glb in
  let offset := offset + 4 in
  let* glb := writeUInt32LE 2 offset glb in
  let offset := offset + 4 in
  let* glb := writeUInt32LE glbLength offset glb in
  let offset := offset + 4 in
  let* glb := writeUInt32LE (byteLen gltfBytes + gltfPadding) offset glb in
  let offset := offset + 4 in
  let* glb := writeUInt32LE 0x4E4F534A offset glb in
  let offset := offset + 4 in
  let glb := copy gltfBytes glb offset in
  let offset := offset + byteLen gltfBytes in
  let '(glb, offset) := fillSpaces (Z.to_nat gltfPadding) glb offset in
  let* glb := writeUInt32LE bufferLength offset glb in
  let offset := offset + 4 in
  let* glb := writeUInt32LE 0x004E4942 offset glb in
  let offset := offset + 4 in
  Ok (copy binBuffer glb offset).

(** ** One file of [convertModels]

    The body of the loop over the model files: [parsed] is the outcome of
    reading and parsing the file, and the output directory maps a file
    name to the bytes written last under it (the first entry with that
    name).  [None] stands for a face loop that has not ended. *)

Definition OutputDir := list (string * list byte).

Inductive Outcome := Converted | Failed (e : Exn).

Definition writeFileSync (dir : OutputDir) (path : string) (bytes : list byte) : OutputDir :=
  (path, bytes) :: dir.

Fixpoint readFile (dir : OutputDir) (path : string) : option (list byte) :=
  match dir with
  | [] => None
  | (p, bytes) :: rest => if String.eqb p path then Some bytes else readFile rest path
  end.

Definition convertFile (dir : OutputDir) (file : string) (parsed : result ModelData.t)
    : option (OutputDir * Outcome) :=
  let outputName := replace ".js" ".glb" file in
  match parsed with
  | Throw e => Some (dir, Failed e)
  | Ok modelData =>
      match convertThreeJsJsonToGltf modelData file with
      | None => None
      | Some gltf =>
          match createGlb gltf with
          | Ok glb => Some (writeFileSync dir outputName glb, Converted)
          | Throw e => Some (dir, Failed e)
          end
      end
  end.

End Container.

(** ** Notions the properties are stated with *)

(** *** Decoded faces, corners and triangles *)

(** The number of integers of a face record after its face type. *)
Definition recordLength (faceType : Z) : nat :=
  let fl := decodeFlags faceType in
  let n := numVertices fl in
  let opt (b : bool) (k : nat) := if b then k else 0%nat in
  (n + opt (hasMaterial fl) 1 + opt (hasFaceUv fl) 1 + opt (hasFaceVertexUv fl) n
   + opt (hasFaceNormal fl) 1 + opt (hasFaceVertexNormal fl) n
   + opt (hasFaceColor fl) 1 + opt (hasFaceVertexColor fl) n)%nat.

(** The face records the loop decodes, in stream order. *)
Fixpoint decodeFaces (fuel : nat) (s : Stream) : list FaceRecord :=
  match s with
  | [] => []
  | faceType :: s1 =>
      match fuel with
      | O => []
      | S fuel' => let (f, s2) := readFace faceType s1 in f :: decodeFaces fuel' s2
      end
  end.

Definition facesOf (modelData : ModelData.t) : list FaceRecord :=
  let faces := orEmpty (ModelData.faces modelData) in
  decodeFaces (length faces) faces.

Definition cornersOf (f : FaceRecord) : Z := Z.of_nat (numVertices (flags f)).

Section EmitAll.

Variable scaleV : float.
Variable verticesV normalsV uvsV : list float.

(** The pushes of a list of faces, the first corner getting [vertexIndex]. *)
Fixpoint emitAll (fs : list FaceRecord) (vertexIndex : Z) : Expanded :=
  match fs with
  | [] => emptyExpanded
  | f :: rest =>
      pushed (emitFace scaleV verticesV normalsV uvsV f vertexIndex)
        (emitAll rest (vertexIndex + cornersOf f))
  end.

End EmitAll.

(** The indices of one face over the corners [c0], [c0 + 1], ... *)
Definition faceTriangles (quad : bool) (c0 : Z) : list Z :=
  if quad then [c0; c0 + 1; c0 + 2; c0; c0 + 2; c0 + 3] else [c0; c0 + 1; c0 + 2].

(** The index list of a sequence of faces whose corners are numbered
    consecutively from [c0]. *)
Fixpoint fanIndices (fs : list FaceRecord) (c0 : Z) : list Z :=
  match fs with
  | [] => []
  | f :: rest => faceTriangles (isQuad (flags f)) c0 ++ fanIndices rest (c0 + cornersOf f)
  end.

Definition trianglesOf (f : FaceRecord) : Z := if isQuad (flags f) then 2 else 1.

Definition sumZ (l : list Z) : Z := fold_right Z.add 0 l.

Definition numTriangles (fs : list FaceRecord) : Z := sumZ (map trianglesOf fs).
Definition numCorners (fs : list FaceRecord) : Z := sumZ (map cornersOf fs).

(** The document of the round-trip scenario: one triangle, no optional
    field. *)
Definition roundTripDocument : ModelData.t := {|
  ModelData.scale := Some 1%float;
  ModelData.vertices := Some [0; 0; 0; 1; 0; 0; 1; 1; 0]%float;
  ModelData.normals := None;
  ModelData.uvs := None;
  ModelData.faces := Some [0; 0; 1; 2];
  ModelData.materials := None
|}.

(** *** Color precedence *)

(** The first entry of the keyword table whose key the lowercased name
    contains, in table order. *)
Definition firstKeyword (lowerName : string) : option (string * Color) :=
  find (fun entry => includes lowerName (fst entry)) colorMap.

(** A material the material loop accepts: it has a diffuse color that is
    neither near-white nor near-gray. *)
Definition meaningful (mat : Material) : option (float * float * float) :=
  match colorDiffuse mat with
  | Some c => if (negb (nearWhite c) && negb (nearGray c))%bool then Some c else None
  | None => None
  end.

Fixpoint firstMeaningful (mats : list Material) : option (float * float * float) :=
  match mats with
  | [] => None
  | mat :: rest =>
      match meaningful mat with
      | Some c => Some c
      | None => firstMeaningful rest
      end
  end.

(** The precedence the converter realises: an accepted material, else a
    keyword of the file name, else the default. *)
Definition precedenceColor (mats : list Material) (fileName : string) : Color :=
  match firstMeaningful mats with
  | Some (c0, c1, c2) => rgba c0 c1 c2 1.0
  | None =>
      match firstKeyword (toLowerCase fileName) with
      | Some (_, color) => color
      | None => defaultColor
      end
  end.

Definition baseColorOf (modelData : ModelData.t) (fileName : string) : option Color :=
  option_map GltfData.baseColor (convertThreeJsJsonToGltf modelData fileName).

Definition whiteColor : Color := rgba 0.95 0.95 0.95 1.0.
Definition blueColor : Color := rgba 0.2 0.4 0.7 1.0.
Definition whiteoakColor : Color := rgba 0.8 0.7 0.5 1.0.

(** A document with nothing but the given materials. *)
Definition materialsOnly (mats : option (list Material)) : ModelData.t := {|
  ModelData.scale := None;
  ModelData.vertices := None;
  ModelData.normals := None;
  ModelData.uvs := None;
  ModelData.faces := None;
  ModelData.materials := mats
|}.

Definition redMaterial : Material := {| colorDiffuse := Some (1, 0, 0)%float |}.
Definition pureWhiteMaterial : Material := {| colorDiffuse := Some (1, 1, 1)%float |}.

(** *** Index width *)

(** The component type recorded in the index accessor, the fourth one. *)
Definition indexComponentType (gltf : GltfData.t) : option Z :=
  option_map Gltf.componentType (nth_error (Gltf.accessors (gltfDocument gltf)) 3).

(** [k] quads over the single vertex 0. *)
Definition quadsDocument (k : nat) : ModelData.t := {|
  ModelData.scale := None;
  ModelData.vertices := Some [0; 0; 0]%float;
  ModelData.normals := None;
  ModelData.uvs := None;
  ModelData.faces := Some (concat (repeat [1; 0; 0; 0; 0] k));
  ModelData.materials := None
|}.

(** 10923 quads: 43692 corners and 65538 indices. *)
Definition manyQuads : ModelData.t := quadsDocument 10923.

(** *** The order of numbers and the bounding box *)

(** A number that is not [NaN], and the order [<=] of numbers. *)
Definition notNaN (x : float) : Prop := is_nan x = false.
Definition numLe (x y : float) : Prop := (x <=? y)%float = true.

(** [m] is the least, or the greatest, of the values [vals]. *)
Definition least (m : float) (vals : list float) : Prop :=
  In m vals /\ forall v, In v vals -> numLe m v.
Definition greatest (m : float) (vals : list float) : Prop :=
  In m vals /\ forall v, In v vals -> numLe v m.

(** The values of one axis of a flat position array: [axis 0] the [x]s,
    [axis 1] the [y]s, [axis 2] the [z]s. *)
Fixpoint axis (k : nat) (ps : list float) : list float :=
  match ps with
  | x :: y :: z :: rest => nth k [x; y; z] nan :: axis k rest
  | _ => []
  end.

Definition component (k : nat) (v : Vec3) : float :=
  let '(x, y, z) := v in nth k [x; y; z] nan.

(** The positions the face loop emits for a document. *)
Definition positionsOf (modelData : ModelData.t) : list float :=
  match expand modelData with
  | Some e => positions e
  | None => []
  end.

(** The bounding box recorded in the position accessor, the first one. *)
Definition accessorBounds (gltf : GltfData.t) : option (Vec3 * Vec3) :=
  match nth_error (Gltf.accessors (gltfDocument gltf)) 0 with
  | Some a =>
      match Gltf.min a, Gltf.max a with
      | Some lo, Some hi => Some (lo, hi)
      | _, _ => None
      end
  | None => None
  end.

(** The bounding box is exact: on each axis its minimum is the least and
    its maximum the greatest of the emitted values. *)
Definition exactBounds (lo hi : Vec3) (ps : list float) : Prop :=
  forall k, (k < 3)%nat ->
    least (component k lo) (axis k ps) /\ greatest (component k hi) (axis k ps).

(** The bounding box is the fold of [Math.min] and [Math.max] over the
    values of each axis, from the sentinels. *)
Definition foldedBounds (lo hi : Vec3) (ps : list float) : Prop :=
  forall k, (k < 3)%nat ->
    component k lo = fold_left Js.min (axis k ps) infinity /\
    component k hi = fold_left Js.max (axis k ps) neg_infinity.

Definition vecList (v : Vec3) : list float := let '(x, y, z) := v in [x; y; z].

Definition growVec (b : Bounds) (v : Vec3) : Bounds :=
  let '(x, y, z) := v in growBounds b (Some x) (Some y) (Some z).

(** A triangle whose third vertex index, 7, is outside the one-vertex
    array. *)
Definition danglingDocument : ModelData.t := {|
  ModelData.scale := None;
  ModelData.vertices := Some [1; 2; 3]%float;
  ModelData.normals := None;
  ModelData.uvs := None;
  ModelData.faces := Some [0; 0; 0; 7];
  ModelData.materials := None
|}.

(** Reading an element of a [Float32Array] back: the number its bit
    pattern denotes (sign, 8 bits of biased exponent, 23 bits of fraction),
    which every binary64 number represents exactly. *)
Definition float32Decode (bits : Z) : spec_float :=
  let sign := Z.testbit bits 31 in
  let exponent := (bits / 2 ^ 23) mod 2 ^ 8 in
  let fraction := bits mod 2 ^ 23 in
  if exponent =? 255 then (if fraction =? 0 then S754_infinity sign else S754_nan)
  else if exponent =? 0 then
    match fraction with
    | Zpos m => S754_finite sign m (-149)
    | _ => S754_zero sign
    end
  else
    match 2 ^ 23 + fraction with
    | Zpos m => S754_finite sign m (exponent - 150)
    | _ => S754_nan
    end.

Definition float32Value (bits : Z) : float := SF2Prim (float32Decode bits).

(** The data of the position accessor, as numbers: the elements of the
    position array. *)
Definition storedPositions (gltf : GltfData.t) : list float :=
  map float32Value (elements (GltfData.positions gltf)).

(** A triangle with its three corners at the one vertex (0.1, 0.7, 0.1),
    whose coordinates are no binary32 numbers. *)
Definition roundedDocument : ModelData.t := {|
  ModelData.scale := None;
  ModelData.vertices := Some [0.1; 0.7; 0.1]%float;
  ModelData.normals := None;
  ModelData.uvs := None;
  ModelData.faces := Some [0; 0; 0; 0];
  ModelData.materials := None
|}.

(** *** Reading a container back *)

Definition byteValue (b : byte) : Z := Z.of_N (Byte.to_N b).

(** The unsigned integer a little-endian byte sequence denotes. *)
Fixpoint fromLittleEndian (bs : list byte) : Z :=
  match bs with
  | [] => 0
  | b :: rest => byteValue b + 256 * fromLittleEndian rest
  end.

(** [buf.slice(offset, offset + len)] *)
Definition slice (offset len : Z) (buf : list byte) : list byte :=
  firstn (Z.to_nat len) (skipn (Z.to_nat offset) buf).

(** [buf.readUInt32LE(offset)] *)
Definition readUInt32LE (offset : Z) (buf : list byte) : Z :=
  fromLittleEndian (slice offset 4 buf).

Definition zeros (n : Z) : list byte := repeat x00 (Z.to_nat n).
Definition spaces (n : Z) : list byte := repeat (byteOf 0x20) (Z.to_nat n).
Definition uint32 (z : Z) : list byte := littleEndian 4 z.

(** A segment followed by its zero padding. *)
Definition padded (segment : list byte) : list byte :=
  segment ++ zeros (pad (byteLen segment)).

(** The four segments of the binary buffer, in packing order. *)
Definition segments (data : GltfData.t) : list (list byte) :=
  [ arrayBytes (GltfData.positions data);
    arrayBytes (GltfData.normals data);
    arrayBytes (GltfData.uvs data);
    arrayBytes (GltfData.indices data) ].

(** The bytes of the buffer a buffer view designates. *)
Definition viewBytes (buf : list byte) (v : Gltf.BufferView) : list byte :=
  slice (Gltf.byteOffset v) (Gltf.byteLength v) buf.

(** The container as one sequence: header, JSON chunk, binary chunk. *)
Definition containerLayout (encodeJson : Gltf.t -> list byte) (data : GltfData.t) : list byte :=
  let gltfBytes := encodeJson (gltfDocument data) in
  let jsonPayload := gltfBytes ++ spaces (pad (byteLen gltfBytes)) in
  let binBuffer := packBuffer data in
  (uint32 0x46546C67 ++ uint32 2
     ++ uint32 (12 + (8 + byteLen jsonPayload) + (8 + byteLen binBuffer)))
  ++ (uint32 (byteLen jsonPayload) ++ uint32 0x4E4F534A ++ jsonPayload)
  ++ (uint32 (byteLen binBuffer) ++ uint32 0x004E4942 ++ binBuffer).

(** A stand-in for the platform's JSON encoder in closed examples: the
    two bytes of the text of an empty object. *)
Definition sampleJson (gltf : Gltf.t) : list byte := [x7b; x7d].

(** *** Truncated streams and stray indices *)

(** The face stream ends inside a record: some face type declares more
    integers than the stream still has. *)
Fixpoint endsMidRecord (fuel : nat) (s : Stream) : bool :=
  match s with
  | [] => false
  | faceType :: s1 =>
      if (length s1 <? recordLength faceType)%nat then true
      else match fuel with
           | O => false
           | S fuel' => endsMidRecord fuel' (skipn (recordLength faceType) s1)
           end
  end.

Definition truncated (modelData : ModelData.t) : bool :=
  let faces := orEmpty (ModelData.faces modelData) in
  endsMidRecord (length faces) faces.

(** A face type that declares a quad, followed by two integers only. *)
Definition truncatedQuad : ModelData.t := {|
  ModelData.scale := None;
  ModelData.vertices := Some [0; 0; 0; 1; 0; 0]%float;
  ModelData.normals := None;
  ModelData.uvs := None;
  ModelData.faces := Some [1; 0; 1];
  ModelData.materials := None
|}.

(** The container of the document has a length that fits the 32-bit length
    field of its header. *)
Definition containerFits (encodeJson : Gltf.t -> list byte)
    (modelData : ModelData.t) (fileName : string) : Prop :=
  match convertThreeJsJsonToGltf modelData fileName with
  | Some data => glbLengthOf encodeJson data < 2 ^ 32
  | None => False
  end.

(** A subscript [k] of a flat array of [width]-component entries is out of
    range when entry [k] does not start inside the array. *)
Definition outOfRange (width : Z) (a : list float) (k : Z) : Prop :=
  k < 0 \/ Z.of_nat (length a) <= width * k.

(** A triangle with per-vertex UV and normal indices (face type 8 + 32)
    whose third vertex, second and third UV and second normal do not
    exist. *)
Definition strayDocument : ModelData.t := {|
  ModelData.scale := None;
  ModelData.vertices := Some [1; 2; 3]%float;
  ModelData.normals := Some [0; 0; 1]%float;
  ModelData.uvs := Some [[0.5; 0.25]%float];
  ModelData.faces := Some [40; 0; 0; 9; 0; 1; 5; 0; 7; 0];
  ModelData.materials := None
|}.

Definition strayFace : FaceRecord := {|
  flags := decodeFlags 40;
  vertexIndices := [Some 0; Some 0; Some 9];
  faceUvIndices := [Some 0; Some 1; Some 5];
  faceNormalIndices := [Some 0; Some 7; Some 0]
|}.

(** Every index a face record holds was read inside the stream. *)
Definition allDefined (l : list (option Z)) : Prop := Forall (fun x => x <> None) l.

Definition faceDefined (f : FaceRecord) : Prop :=
  allDefined (vertexIndices f) /\ allDefined (faceUvIndices f) /\
  allDefined (faceNormalIndices f).

(** * The rest of the code

    The batch of [convertModels], the models directory and the saved
    designs of the server ([ar-server.js]), and the server URL of the
    exporter ([ar-exporter.js]). *)

(** ** Further notions for the converter *)

(** A vertex index designates a vertex of the flat vertex array: it is
    defined and its three components are inside the array. *)
Definition vertexInRange (verticesV : list float) (i : option Z) : bool :=
  match i with
  | Some k => (0 <=? k) && (3 * k + 2 <? Z.of_nat (length verticesV))
  | None => false
  end.

(** Every vertex index of every decoded face designates a vertex. *)
Definition wellIndexed (modelData : ModelData.t) : bool :=
  forallb (fun f => forallb (vertexInRange (orEmpty (ModelData.vertices modelData)))
                      (vertexIndices f))
    (facesOf modelData).

(** A document without faces. *)
Definition noFaces : ModelData.t := {|
  ModelData.scale := None;
  ModelData.vertices := Some [1; 2; 3]%float;
  ModelData.normals := None;
  ModelData.uvs := None;
  ModelData.faces := None;
  ModelData.materials := None
|}.

(** ** [convertModels]

    The models directory is the list of the file names [readdirSync]
    returns, in its order, each with the outcome of reading and parsing the
    file ([JSON.parse] raises on a text that is no JSON).  The output
    directory is absent ([None]) or holds files; [mkdirSync] makes an absent
    one empty.  The console lines of a file are kept as its name and its
    outcome. *)

(** [s.endsWith(suffix)]: [suffix] is the rest of [s] from some position. *)
Fixpoint endsWith (suffix s : string) : bool :=
  (String.eqb s suffix ||
   match s with
   | EmptyString => false
   | String _ s' => endsWith suffix s'
   end)%bool.

Definition ModelsDir := list (string * result ModelData.t).

Definition Log := list (string * Outcome).

Section ConvertModels.

Variable encodeJson : Gltf.t -> list byte.

(** [for (const file of files) { ... try { ... } catch (error) { ... } }] *)
Fixpoint convertFiles (dir : OutputDir) (files : ModelsDir) : option (OutputDir * Log) :=
  match files with
  | [] => Some (dir, [])
  | (file, parsed) :: rest =>
      match convertFile encodeJson dir file parsed with
      | None => None
      | Some (dir1, outcome) =>
          match convertFiles dir1 rest with
          | None => None
          | Some (dir2, log) => Some (dir2, (file, outcome) :: log)
          end
      end
  end.

(** The model files: [readdirSync(modelsDir).filter(f => f.endsWith('.js'))]. *)
Definition modelFiles (modelsDir : ModelsDir) : ModelsDir :=
  filter (fun entry => endsWith ".js" (fst entry)) modelsDir.

Definition convertModels (modelsDir : ModelsDir) (outputDir : option OutputDir)
    : option (OutputDir * Log) :=
  let dir := match outputDir with Some d => d | None => [] end in
  convertFiles dir (modelFiles modelsDir).

End ConvertModels.

(** [file.replace('.js', '.glb')] *)
Definition outputName (file : string) : string := replace ".js" ".glb" file.

(** The outcome a file has by itself: it converts when it parses and its
    container fits the 32-bit length field, fails with the error of the
    parser when it does not parse, and with a range error when the
    container is too long. *)
Definition fileOutcome (encodeJson : Gltf.t -> list byte) (file : string)
    (parsed : result ModelData.t) (outcome : Outcome) : Prop :=
  match parsed with
  | Throw e => outcome = Failed e
  | Ok modelData =>
      (containerFits encodeJson modelData file /\ outcome = Converted) \/
      (~ containerFits encodeJson modelData file /\ outcome = Failed RangeError)
  end.

(** A models directory: a text that is no JSON, a triangle, notes, and a
    document without faces. *)
Definition sampleModels : ModelsDir := [
  ("broken.js"%string, Throw SyntaxError);
  ("triangle.js"%string, Ok roundTripDocument);
  ("notes.txt"%string, Throw SyntaxError);
  ("empty.js"%string, Ok noFaces)
].

(** * The AR server ([ar-server.js]) *)

(** ** The models directory

    The directory [modelsDir] is the list of its files in the order
    [readdirSync] returns them, each with the [birthtime] that [statSync]
    reports, in milliseconds.  The names of a directory are distinct. *)

Record DirEntry := { entryName : string; birthtime : Z }.

Definition Directory := list DirEntry.

(** [arr.sort(compare)]: the sort of the language is stable, and the
    result of a stable sort is determined by the comparison; an element
    goes after the ones [compare] puts before it and stays before the
    others. *)
Fixpoint insertSorted {A : Type} (compare : A -> A -> Z) (x : A) (l : list A) : list A :=
  match l with
  | [] => [x]
  | y :: l' => if 0 <? compare x y then y :: insertSorted compare x l' else x :: l
  end.

Definition sort {A : Type} (compare : A -> A -> Z) (l : list A) : list A :=
  fold_right (insertSorted compare) [] l.

(** Descending keys: every element has a key at least that of the ones
    after it. *)
Definition descending {A : Type} (key : A -> Z) (l : list A) : Prop :=
  StronglySorted (fun a b => key b <= key a) l.

(** [readdirSync(modelsDir).filter(f => f.endsWith('.glb'))] *)
Definition glbFiles (dir : Directory) : list DirEntry :=
  filter (fun e => endsWith ".glb" (entryName e)) dir.

(** [(a, b) => b.created - a.created] *)
Definition newestFirst (a b : DirEntry) : Z := birthtime b - birthtime a.

(** *** [GET /list-models] *)

Record ModelInfo := { name : string; url : string; created : Z }.

Definition modelInfo (e : DirEntry) : ModelInfo :=
  {| name := entryName e;
     url := String.append "/models/" (entryName e);
     created := birthtime e |}.

Definition listModels (dir : Directory) : list ModelInfo :=
  sort (fun a b => created b - created a) (map modelInfo (glbFiles dir)).

(** *** [POST /cleanup] *)

Definition existsSync (dir : Directory) (file : string) : bool :=
  existsb (fun e => String.eqb (entryName e) file) dir.

(** [fs.unlinkSync(path)]: it raises when there is no such file. *)
Definition unlinkSync (dir : Directory) (file : string) : option Directory :=
  if existsSync dir file
  then Some (filter (fun e => negb (String.eqb (entryName e) file)) dir)
  else None.

(** [toDelete.forEach(f => fs.unlinkSync(f.path))]: the directory after
    it, and whether it went through; a raise leaves the files not yet
    deleted. *)
Fixpoint unlinkEach (dir : Directory) (toDelete : list DirEntry) : Directory * bool :=
  match toDelete with
  | [] => (dir, true)
  | f :: rest =>
      match unlinkSync dir (entryName f) with
      | Some dir1 => unlinkEach dir1 rest
      | None => (dir, false)
      end
  end.

(** The response: [{ success: true, deleted }], or status 500. *)
Inductive CleanupResponse := CleanupDone (deleted : nat) | CleanupError.

Definition cleanup (dir : Directory) : Directory * CleanupResponse :=
  let files := sort newestFirst (glbFiles dir) in
  let toDelete := skipn 10 files in
  match unlinkEach dir toDelete with
  | (dir1, true) => (dir1, CleanupDone (length toDelete))
  | (dir1, false) => (dir1, CleanupError)
  end.

(** Twelve models, the oldest first, and a saved design. *)
Definition sampleDirectory : Directory :=
  {| entryName := "design-5.json"; birthtime := 5 |} ::
  map (fun t => {| entryName := String.append "room-design-"
                     (String.append (String (ascii_of_nat (65 + Z.to_nat t)) EmptyString) ".glb");
                   birthtime := t |})
      [1; 2; 3; 4; 5; 6; 7; 8; 9; 10; 11; 12].

(** ** [getLocalIP]

    [os.networkInterfaces()] is the list of the interface names in the
    order [Object.keys] enumerates them, each with its addresses. *)

Record NetworkInterface := {
  family : string;
  internal : bool;
  address : string
}.

Definition Interfaces := list (string * list NetworkInterface).

(** [iface.family === 'IPv4' && !iface.internal] *)
Definition externalIPv4 (iface : NetworkInterface) : bool :=
  String.eqb (family iface) "IPv4" && negb (internal iface).

(** The inner loop: the address it returns, if it returns. *)
Fixpoint firstExternal (ifaces : list NetworkInterface) : option string :=
  match ifaces with
  | [] => None
  | iface :: rest =>
      if externalIPv4 iface then Some (address iface) else firstExternal rest
  end.

Fixpoint getLocalIP (interfaces : Interfaces) : string :=
  match interfaces with
  | [] => "localhost"
  | (_, ifaces) :: rest =>
      match firstExternal ifaces with
      | Some ip => ip
      | None => getLocalIP rest
      end
  end.

(** ** Saved designs ([POST /save-design], [GET /current-design])

    The state of the server is the variable [currentDesign] ([None] is
    [null]) and the files of [modelsDir].  A request body is a value of the
    language: it is truthy or not, and [JSON.stringify(body, null, 2)] gives
    the bytes of a text or nothing, in which case the write raises.  What a
    handler reads from the machine is its environment: the clock, the
    network interfaces, and whether the disk takes a write. *)

(** The decimal digits of an integer, as a template literal prints it. *)
Definition showNumber (z : Z) : string := NilZero.string_of_int (Z.to_int z).

Record Env := {
  dateNow : Z;
  interfaces : Interfaces;
  diskWritable : bool
}.

Section Designs.

Variable Body : Type.
Variable truthy : Body -> bool.
Variable stringify : Body -> option (list byte).

(** [process.env.PORT || 8002], as it is printed. *)
Variable port : string.

Record Server := {
  currentDesign : option Body;
  modelFilesOf : OutputDir
}.

Inductive Request :=
| PostSaveDesign (body : Body)
| GetCurrentDesign.

Inductive Response :=
| DesignSaved (designUrl arUrl : string)
| ServerError
| Design (design : Body)
| NoDesignSaved.

(** [`design-${timestamp}.json`] *)
Definition designFile (timestamp : Z) : string :=
  String.append "design-" (String.append (showNumber timestamp) ".json").

Definition saveDesign (env : Env) (server : Server) (body : Body) : Server * Response :=
  let currentDesign1 := Some body in
  let filename := designFile (dateNow env) in
  match stringify body, diskWritable env with
  | Some text, true =>
      let serverIP := getLocalIP (interfaces env) in
      let arUrl :=
        String.append "https://" (String.append serverIP (String.append ":"
          (String.append port (String.append "/ar-view.html?design=" filename)))) in
      ({| currentDesign := currentDesign1;
          modelFilesOf := writeFileSync (modelFilesOf server) filename text |},
       DesignSaved (String.append "/models/" filename) arUrl)
  | _, _ =>
      ({| currentDesign := currentDesign1; modelFilesOf := modelFilesOf server |},
       ServerError)
  end.

Definition getCurrentDesign (server : Server) : Response :=
  match currentDesign server with
  | Some design => if truthy design then Design design else NoDesignSaved
  | None => NoDesignSaved
  end.

Definition handle (env : Env) (server : Server) (request : Request) : Server * Response :=
  match request with
  | PostSaveDesign body => saveDesign env server body
  | GetCurrentDesign => (server, getCurrentDesign server)
  end.

(** The server after a sequence of requests, each in its environment. *)
Definition serve (server : Server) (requests : list (Env * Request)) : Server :=
  fold_left (fun s er => fst (handle (fst er) s (snd er))) requests server.

(** The server as it starts: [let currentDesign = null]. *)
Definition started (files : OutputDir) : Server :=
  {| currentDesign := None; modelFilesOf := files |}.

(** The body of the last [POST /save-design] of a sequence of requests. *)
Definition lastPosted (requests : list (Env * Request)) : option Body :=
  fold_left (fun last er =>
               match snd er with
               | PostSaveDesign body => Some body
               | GetCurrentDesign => last
               end) requests None.

End Designs.

(** A quiet machine at a given time. *)
Definition at_time (t : Z) : Env :=
  {| dateNow := t; interfaces := []; diskWritable := true |}.

(** * The AR exporter ([ar-exporter.js]) *)

(** A string is truthy unless it is empty. *)
Definition truthyString (s : string) : bool :=
  match s with EmptyString => false | _ => true end.

(** The URL [getARServerURL] computes from [window.location.hostname]. *)
Definition serverURLFor (hostname : string) : string :=
  let port := "8003"%string in
  if (String.eqb hostname "localhost" || String.eqb hostname "127.0.0.1"
      || String.eqb hostname EmptyString)%bool
  then String.append "http://localhost:" port
  else String.append "https://" (String.append hostname ":8002").

(** [getARServerURL()] on the variable [AR_SERVER_URL] ([None] is
    [null]): the URL returned and the variable after the call. *)
Definition getARServerURL (AR_SERVER_URL : option string) (hostname : string)
    : string * option string :=
  match AR_SERVER_URL with
  | Some u =>
      if truthyString u then (u, AR_SERVER_URL)
      else (serverURLFor hostname, Some (serverURLFor hostname))
  | None => (serverURLFor hostname, Some (serverURLFor hostname))
  end.

(** Successive calls, the page being at the given host names. *)
Fixpoint serverURLs (AR_SERVER_URL : option string) (hostnames : list string) : list string :=
  match hostnames with
  | [] => []
  | h :: rest =>
      let (u, cache) := getARServerURL AR_SERVER_URL h in
      u :: serverURLs cache rest
  end.

(** * Properties *)

(** ** The face loop ends *)

(** The unread suffix stands for the cursor: reading at the suffix
    [faces[i..]] reads [faces[i]] and leaves [faces[i + 1 ..]]. *)
Lemma next_cursor (faces : Stream) (i : nat) :
  next (skipn i faces) = (nth_error faces i, skipn (S i) faces).
Proof.
  revert faces; induction i as [|i IH]; intros [|x faces]; try reflexivity.
  simpl skipn at 1. rewrite IH. reflexivity.
Qed.

Lemma readIndices_skipn (n : nat) (s : Stream) : snd (readIndices n s) = skipn n s.
Proof.
  revert s; induction n as [|n IH]; intros s; simpl; [reflexivity|].
  destruct s as [|x s]; simpl.
  - specialize (IH []). destruct (readIndices n []) as [xs s2] eqn:E.
    simpl in *. rewrite IH. now destruct n.
  - specialize (IH s). destruct (readIndices n s) as [xs s2] eqn:E.
    simpl in *. exact IH.
Qed.

Lemma readIndices_length (n : nat) (s : Stream) : length (fst (readIndices n s)) = n.
Proof.
  revert s; induction n as [|n IH]; intros s; simpl; [reflexivity|].
  destruct (next s) as [x s1]. specialize (IH s1).
  destruct (readIndices n s1) as [xs s2]. simpl in *. now rewrite IH.
Qed.

Lemma skipIf_skipn (b : bool) (n : nat) (s : Stream) :
  skipIf b n s = skipn (if b then n else 0%nat) s.
Proof. now destruct b. Qed.

Lemma condRead_skipn (b : bool) (n : nat) (s : Stream) :
  snd (if b then readIndices n s else ([], s)) = skipn (if b then n else 0%nat) s.
Proof. destruct b; [apply readIndices_skipn | reflexivity]. Qed.

(** One iteration advances the cursor by exactly the length its face type
    declares, whichever fields are present. *)
Lemma readFace_advance (faceType : Z) (s : Stream) :
  snd (readFace faceType s) = skipn (recordLength faceType) s.
Proof.
  unfold readFace, recordLength.
  set (fl := decodeFlags faceType). set (n := numVertices fl).
  destruct (readIndices n s) as [vis s1] eqn:E1.
  assert (H1 : s1 = skipn n s) by (now rewrite <- (readIndices_skipn n s), E1).
  destruct (if hasFaceVertexUv fl then _ else _) as [uis s4] eqn:E2.
  apply (f_equal snd) in E2. rewrite condRead_skipn in E2.
  destruct (if hasFaceVertexNormal fl then _ else _) as [nis s6] eqn:E3.
  apply (f_equal snd) in E3. rewrite condRead_skipn in E3.
  simpl in *. subst s6 s4 s1.
  rewrite !skipIf_skipn, !skipn_skipn. f_equal.
  destruct (hasMaterial fl), (hasFaceUv fl), (hasFaceVertexUv fl), (hasFaceNormal fl),
    (hasFaceVertexNormal fl), (hasFaceColor fl), (hasFaceVertexColor fl); lia.
Qed.

Lemma readFace_length (faceType : Z) (s : Stream) :
  (length (snd (readFace faceType s)) <= length s)%nat.
Proof. rewrite readFace_advance, length_skipn. lia. Qed.

Section Loop.

Variable scaleV : float.
Variable verticesV normalsV uvsV : list float.

Let run := expandFaces scaleV verticesV normalsV uvsV.

Lemma expandFaces_total (fuel : nat) :
  forall (vertexIndex : Z) (s : Stream),
    (length s <= fuel)%nat -> exists e, run fuel vertexIndex s = Some e.
Proof.
  unfold run. induction fuel as [|fuel IH]; intros vi s Hlen.
  - destruct s; simpl in *; [eauto | lia].
  - destruct s as [|faceType s1]; simpl; [eauto|].
    pose proof (readFace_length faceType s1) as Hs.
    destruct (readFace faceType s1) as [f s2]. simpl in *.
    destruct (IH (vi + Z.of_nat (numVertices (flags f))) s2) as [e He]; [lia|].
    rewrite He. eauto.
Qed.

End Loop.

Lemma expand_total (modelData : ModelData.t) : exists e, expand modelData = Some e.
Proof. unfold expand. apply expandFaces_total. lia. Qed.

Lemma convert_total (modelData : ModelData.t) (fileName : string) :
  exists gltf, convertThreeJsJsonToGltf modelData fileName = Some gltf.
Proof.
  unfold convertThreeJsJsonToGltf.
  destruct (expand_total modelData) as [e ->]. eauto.
Qed.

Section Emit.

Variable scaleV : float.
Variable verticesV normalsV uvsV : list float.

Let run := expandFaces scaleV verticesV normalsV uvsV.

Lemma expandFaces_emitAll (fuel : nat) :
  forall (vertexIndex : Z) (s : Stream) (e : Expanded),
    run fuel vertexIndex s = Some e ->
    e = emitAll scaleV verticesV normalsV uvsV (decodeFaces fuel s) vertexIndex.
Proof.
  unfold run. induction fuel as [|fuel IH]; intros vi s e H.
  - destruct s; simpl in *; congruence.
  - destruct s as [|faceType s1]; simpl in *; [congruence|].
    destruct (readFace faceType s1) as [f s2].
    destruct (expandFaces _ _ _ _ fuel _ s2) as [rest|] eqn:E; [|discriminate].
    injection H as <-. simpl. f_equal. now apply IH.
Qed.

End Emit.

Lemma expand_emitAll (modelData : ModelData.t) :
  expand modelData =
  Some (emitAll (scaleOf modelData) (orEmpty (ModelData.vertices modelData))
          (orEmpty (ModelData.normals modelData)) (uvsOf modelData)
          (facesOf modelData) 0).
Proof.
  destruct (expand_total modelData) as [e He]. rewrite He. f_equal.
  unfold expand in He. now apply expandFaces_emitAll in He.
Qed.

Section EmitFacts.

Variable scaleV : float.
Variable verticesV normalsV uvsV : list float.

Let emit := emitFace scaleV verticesV normalsV uvsV.
Let all := emitAll scaleV verticesV normalsV uvsV.

Lemma emitFace_indices (f : FaceRecord) (vertexIndex : Z) :
  indices (emit f vertexIndex) = faceTriangles (isQuad (flags f)) vertexIndex.
Proof.
  unfold emit, emitFace, numVertices, faceTriangles.
  destruct (isQuad (flags f)); simpl; unfold fvi; simpl;
    rewrite ?Z.add_0_r; reflexivity.
Qed.

Lemma emitFace_positions_length (f : FaceRecord) (vertexIndex : Z) :
  Z.of_nat (length (positions (emit f vertexIndex))) = 3 * cornersOf f.
Proof.
  unfold emit, emitFace, cornersOf, numVertices.
  destruct (isQuad (flags f)); reflexivity.
Qed.

Lemma emitAll_indices (fs : list FaceRecord) :
  forall vertexIndex, indices (all fs vertexIndex) = fanIndices fs vertexIndex.
Proof.
  unfold all. induction fs as [|f fs IH]; intros vi; simpl; [reflexivity|].
  rewrite IH. f_equal. apply emitFace_indices.
Qed.

Lemma emitAll_positions_length (fs : list FaceRecord) :
  forall vertexIndex,
    Z.of_nat (length (positions (all fs vertexIndex))) = 3 * numCorners fs.
Proof.
  unfold all, numCorners. induction fs as [|f fs IH]; intros vi; [reflexivity|].
  cbn [emitAll pushed positions map sumZ fold_right].
  rewrite length_app, Nat2Z.inj_add, IH.
  fold emit. rewrite emitFace_positions_length.
  unfold sumZ. lia.
Qed.

End EmitFacts.

Lemma fanIndices_length (fs : list FaceRecord) :
  forall c0, Z.of_nat (length (fanIndices fs c0)) = 3 * numTriangles fs.
Proof.
  unfold numTriangles.
  induction fs as [|f fs IH]; intros c0; [reflexivity|].
  cbn [fanIndices map sumZ fold_right].
  rewrite length_app, Nat2Z.inj_add, IH.
  unfold faceTriangles, trianglesOf, sumZ.
  destruct (isQuad (flags f)); simpl length; lia.
Qed.

(** ** The round-trip scenario *)

(** C8. The document [{scale:1, vertices:[0,0,0, 1,0,0, 1,1,0],
    faces:[0,0,1,2]}] expands to one triangle: three positions equal to the
    three source vertices, three default normals (0,1,0), three default UVs
    (0,0), indices 0,1,2, and the bounding box min (0,0,0), max (1,1,0),
    which the position accessor records. *)
Theorem round_trip_scenario (fileName : string) :
  facesOf roundTripDocument <> [] /\
  numTriangles (facesOf roundTripDocument) = 1 /\
  expand roundTripDocument =
    Some {| positions := [0; 0; 0; 1; 0; 0; 1; 1; 0]%float;
            normalData := [0; 1; 0; 0; 1; 0; 0; 1; 0]%float;
            uvData := [0; 0; 0; 0; 0; 0]%float;
            indices := [0; 1; 2] |} /\
  exists gltf,
    convertThreeJsJsonToGltf roundTripDocument fileName = Some gltf /\
    GltfData.bounds gltf =
      {| bmin := (0, 0, 0)%float; bmax := (1, 1, 0)%float |} /\
    arrayLength (GltfData.positions gltf) = 9 /\
    arrayLength (GltfData.indices gltf) = 3 /\
    nth_error (Gltf.accessors (gltfDocument gltf)) 0 =
      Some {| Gltf.bufferView := 0; Gltf.componentType := 5126; Gltf.count := 3;
              Gltf.type := "VEC3";
              Gltf.min := Some (0, 0, 0)%float; Gltf.max := Some (1, 1, 0)%float |}.
Proof.
  assert (E : expand roundTripDocument =
    Some {| positions := [0; 0; 0; 1; 0; 0; 1; 1; 0]%float;
            normalData := [0; 1; 0; 0; 1; 0; 0; 1; 0]%float;
            uvData := [0; 0; 0; 0; 0; 0]%float;
            indices := [0; 1; 2] |}) by (vm_compute; reflexivity).
  split; [vm_compute; discriminate|].
  split; [vm_compute; reflexivity|].
  split; [exact E|].
  unfold convertThreeJsJsonToGltf. rewrite E.
  eexists. split; [reflexivity|].
  repeat split; vm_compute; reflexivity.
Qed.

(** ** No bounds are checked *)

Lemma mul_nan_l (x : float) : (nan * x)%float = nan.
Proof. apply Prim2SF_inj. rewrite mul_spec. reflexivity. Qed.

Lemma get_outOfRange (width : Z) (a : list float) (k j : Z) :
  outOfRange width a k -> 0 < width -> 0 <= j < width ->
  Js.get a (Js.iadd (Js.imul (Some k) width) j) = None.
Proof.
  intros [Hk | Hk] Hw Hj; simpl.
  - destruct (k * width + j <? 0) eqn:E; [reflexivity|].
    apply Z.ltb_ge in E. nia.
  - destruct (k * width + j <? 0) eqn:E; [reflexivity|].
    apply nth_error_None. lia.
Qed.

Lemma get_outOfRange0 (width : Z) (a : list float) (k : Z) :
  outOfRange width a k -> 0 < width ->
  Js.get a (Js.imul (Some k) width) = None.
Proof.
  intros H Hw. pose proof (get_outOfRange width a k 0 H Hw) as G.
  simpl in *. rewrite Z.add_0_r in G. apply G. lia.
Qed.

Section OutOfRange.

Variable scaleV : float.
Variable verticesV normalsV uvsV : list float.

Lemma cornerNormal_outOfRange (f : FaceRecord) (v : nat) (n : Z) :
  hasFaceVertexNormal (flags f) = true ->
  at_ (faceNormalIndices f) v = Some n ->
  outOfRange 3 normalsV n ->
  cornerNormal normalsV f v = [0; 0; 0]%float.
Proof.
  intros Hf Hn Hr. unfold cornerNormal. rewrite Hf, Hn.
  cbv zeta.
  rewrite (get_outOfRange0 3 normalsV n Hr), !(get_outOfRange 3 normalsV n _ Hr) by lia.
  reflexivity.
Qed.

Lemma cornerUv_outOfRange (f : FaceRecord) (v : nat) (u : Z) :
  hasFaceVertexUv (flags f) = true ->
  at_ (faceUvIndices f) v = Some u ->
  outOfRange 2 uvsV u ->
  cornerUv uvsV f v = [0; 0]%float.
Proof.
  intros Hf Hu Hr. unfold cornerUv. rewrite Hf, Hu.
  cbv zeta.
  rewrite (get_outOfRange0 2 uvsV u Hr), !(get_outOfRange 2 uvsV u _ Hr) by lia.
  reflexivity.
Qed.

Lemma cornerPosition_outOfRange (f : FaceRecord) (v : nat) (k : Z) :
  at_ (vertexIndices f) v = Some k ->
  outOfRange 3 verticesV k ->
  cornerPosition scaleV verticesV f v = [nan; nan; nan].
Proof.
  intros Hk Hr. unfold cornerPosition. rewrite Hk.
  cbv zeta.
  rewrite (get_outOfRange0 3 verticesV k Hr), !(get_outOfRange 3 verticesV k _ Hr) by lia.
  simpl. now rewrite mul_nan_l.
Qed.

(** An index the stream does not have is [undefined]: the position is
    NaN, and the normal and the UV are the defaults. *)
Lemma cornerPosition_undefined (f : FaceRecord) (v : nat) :
  at_ (vertexIndices f) v = None ->
  cornerPosition scaleV verticesV f v = [nan; nan; nan].
Proof.
  intros H. unfold cornerPosition. rewrite H. simpl. now rewrite mul_nan_l.
Qed.

Lemma cornerNormal_undefined (f : FaceRecord) (v : nat) :
  at_ (faceNormalIndices f) v = None ->
  cornerNormal normalsV f v = [0; 1; 0]%float.
Proof.
  intros H. unfold cornerNormal. rewrite H. now destruct (hasFaceVertexNormal (flags f)).
Qed.

Lemma cornerUv_undefined (f : FaceRecord) (v : nat) :
  at_ (faceUvIndices f) v = None ->
  cornerUv uvsV f v = [0; 0]%float.
Proof.
  intros H. unfold cornerUv. rewrite H. now destruct (hasFaceVertexUv (flags f)).
Qed.

End OutOfRange.

(** ** Base color *)

Lemma keywordColor_find (lowerName : string) (entries : list (string * Color))
    (baseColor : Color) :
  keywordColor lowerName entries baseColor =
  match find (fun entry => includes lowerName (fst entry)) entries with
  | Some (_, color) => color
  | None => baseColor
  end.
Proof.
  induction entries as [|[key color] rest IH]; simpl; [reflexivity|].
  destruct (includes lowerName key); [reflexivity | exact IH].
Qed.

Lemma materialColor_first (mats : list Material) (baseColor : Color) :
  materialColor mats baseColor =
  match firstMeaningful mats with
  | Some (c0, c1, c2) => rgba c0 c1 c2 1.0
  | None => baseColor
  end.
Proof.
  induction mats as [|mat rest IH]; simpl; [reflexivity|].
  unfold meaningful. destruct (colorDiffuse mat) as [[[c0 c1] c2]|]; [|exact IH].
  destruct (negb _ && negb _)%bool; [reflexivity | exact IH].
Qed.

Lemma resolveColor_precedence (mats : list Material) (fileName : string) :
  resolveColor mats fileName = precedenceColor mats fileName.
Proof.
  unfold resolveColor, precedenceColor, firstKeyword.
  rewrite materialColor_first, keywordColor_find.
  destruct mats as [|mat rest]; reflexivity.
Qed.

Lemma keywordColor_alpha (lowerName : string) :
  alpha (keywordColor lowerName colorMap defaultColor) = 1%float.
Proof.
  unfold colorMap, keywordColor.
  repeat (destruct (includes lowerName _); [reflexivity|]).
  reflexivity.
Qed.

Lemma resolveColor_alpha (mats : list Material) (fileName : string) :
  alpha (resolveColor mats fileName) = 1%float.
Proof.
  unfold resolveColor. cbv zeta.
  destruct (0 <? length mats)%nat; [|apply keywordColor_alpha].
  rewrite materialColor_first.
  destruct (firstMeaningful mats) as [[[c0 c1] c2]|]; [reflexivity|].
  apply keywordColor_alpha.
Qed.

Lemma baseColorOf_resolve (modelData : ModelData.t) (fileName : string) :
  baseColorOf modelData fileName =
  Some (resolveColor (orEmpty (ModelData.materials modelData)) fileName).
Proof.
  unfold baseColorOf, convertThreeJsJsonToGltf.
  destruct (expand_total modelData) as [e ->]. reflexivity.
Qed.

(** C1, as the code has it.  Every document and file name get exactly one
    RGBA base color, with alpha 1.0, and the first match of this order
    wins, with no blending: the first material diffuse color that is
    neither near-white nor near-gray, whatever the file name; only if there
    is none, the color of the first keyword of the table that the lowercased
    file name contains; only if that fails too, the brown default. *)
Theorem color_precedence (modelData : ModelData.t) (fileName : string) :
  exists color,
    baseColorOf modelData fileName = Some color /\
    color = precedenceColor (orEmpty (ModelData.materials modelData)) fileName /\
    alpha color = 1%float.
Proof.
  rewrite baseColorOf_resolve. eexists. split; [reflexivity|].
  split; [apply resolveColor_precedence | apply resolveColor_alpha].
Qed.

(** The scenario of the specification: a name containing "blue" and a pure
    white material give the "blue" keyword color. *)
Example blue_with_white_material :
  baseColorOf (materialsOnly (Some [pureWhiteMaterial])) "blue_chair.js" = Some blueColor.
Proof. vm_compute. reflexivity. Qed.

(** C1, as stated, fails: the name contains the keyword "blue", and the red
    material of the document wins over it. *)
Lemma color_precedence_counterexample :
  ~ (forall (modelData : ModelData.t) (fileName : string) (key : string) (color : Color),
       firstKeyword (toLowerCase fileName) = Some (key, color) ->
       baseColorOf modelData fileName = Some color).
Proof.
  intros H.
  specialize (H (materialsOnly (Some [redMaterial])) "blue_chair.js"%string
                "blue"%string blueColor eq_refl).
  apply (f_equal (fun o => match o with
                           | Some (r, _, _, _) => (r =? 1)%float
                           | None => false
                           end)) in H.
  vm_compute in H. discriminate.
Qed.

(** ** The keyword "whiteoak" *)

Lemma prefix_app_l (p q s : string) :
  String.prefix (p ++ q) s = true -> String.prefix p s = true.
Proof.
  revert s; induction p as [|a p IH]; intros s H; [now destruct s|].
  destruct s as [|b s]; simpl in *; [discriminate|].
  destruct (ascii_dec a b); [now apply IH | discriminate].
Qed.

Lemma includes_unfold (s key : string) :
  includes s key =
  (String.prefix key s ||
   match s with
   | EmptyString => false
   | String _ s' => includes s' key
   end)%bool.
Proof. destruct s; reflexivity. Qed.

Lemma includes_app_l (p q s : string) :
  includes s (p ++ q) = true -> includes s p = true.
Proof.
  induction s as [|b s IH]; intros H;
    rewrite includes_unfold in H; rewrite includes_unfold;
    apply orb_true_iff in H as [H | H].
  - apply prefix_app_l in H. now rewrite H.
  - discriminate.
  - apply prefix_app_l in H. now rewrite H.
  - rewrite (IH H). apply orb_true_r.
Qed.

Lemma whiteoak_finds_white (lowerName : string) :
  includes lowerName "whiteoak" = true ->
  firstKeyword lowerName = Some ("white"%string, whiteColor).
Proof.
  intros H. apply (includes_app_l "white" "oak") in H.
  unfold firstKeyword, colorMap. simpl. now rewrite H.
Qed.

(** C2, what the code does.  A file name whose lowercased form contains
    "whiteoak" contains "white", the first key of the table, so the keyword
    loop stops there: with no accepted material the base color is the
    "white" constant, which is not the "whiteoak" one. *)
Theorem whiteoak_resolves_to_white (modelData : ModelData.t) (fileName : string) :
  includes (toLowerCase fileName) "whiteoak" = true ->
  firstMeaningful (orEmpty (ModelData.materials modelData)) = None ->
  baseColorOf modelData fileName = Some whiteColor /\
  baseColorOf modelData fileName <> Some whiteoakColor.
Proof.
  intros Hname Hmat.
  rewrite baseColorOf_resolve, resolveColor_precedence.
  unfold precedenceColor. rewrite Hmat, (whiteoak_finds_white _ Hname).
  split; [reflexivity|].
  intros E.
  apply (f_equal (fun o => match o with
                           | Some (r, _, _, _) => (r =? 0.95)%float
                           | None => false
                           end)) in E.
  vm_compute in E. discriminate.
Qed.

Lemma whiteoak_resolves_to_white_witness :
  baseColorOf (materialsOnly None) "whiteoak_table.js" = Some whiteColor /\
  baseColorOf (materialsOnly None) "whiteoak_table.js" <> Some whiteoakColor.
Proof.
  apply (whiteoak_resolves_to_white (materialsOnly None) "whiteoak_table.js");
    vm_compute; reflexivity.
Defined.

(** ** Index element width *)

Lemma numCorners_cons (f : FaceRecord) (fs : list FaceRecord) :
  numCorners (f :: fs) = cornersOf f + numCorners fs.
Proof. reflexivity. Qed.

Lemma numTriangles_cons (f : FaceRecord) (fs : list FaceRecord) :
  numTriangles (f :: fs) = trianglesOf f + numTriangles fs.
Proof. reflexivity. Qed.

Lemma face_counts (f : FaceRecord) :
  (isQuad (flags f) = true /\ cornersOf f = 4 /\ trianglesOf f = 2) \/
  (isQuad (flags f) = false /\ cornersOf f = 3 /\ trianglesOf f = 1).
Proof.
  unfold cornersOf, trianglesOf, numVertices.
  destruct (isQuad (flags f)); [left | right]; repeat split.
Qed.

Lemma numCorners_nonneg (fs : list FaceRecord) : 0 <= numCorners fs.
Proof.
  induction fs as [|f fs IH]; [reflexivity|].
  rewrite numCorners_cons. destruct (face_counts f) as [(_ & -> & _) | (_ & -> & _)]; lia.
Qed.

Lemma fanIndices_range (fs : list FaceRecord) :
  forall c0 i, In i (fanIndices fs c0) -> c0 <= i < c0 + numCorners fs.
Proof.
  induction fs as [|f fs IH]; intros c0 i H; [destruct H|].
  rewrite numCorners_cons. pose proof (numCorners_nonneg fs) as Hfs.
  cbn [fanIndices] in H. apply in_app_or in H as [H | H].
  - unfold faceTriangles in H.
    destruct (face_counts f) as [(E & -> & _) | (E & -> & _)];
      rewrite E in H; simpl in H; lia.
  - apply IH in H.
    destruct (face_counts f) as [(_ & E & _) | (_ & E & _)]; rewrite E in *; lia.
Qed.

Lemma numCorners_le (fs : list FaceRecord) : numCorners fs <= 3 * numTriangles fs.
Proof.
  induction fs as [|f fs IH]; [reflexivity|].
  rewrite numCorners_cons, numTriangles_cons.
  destruct (face_counts f) as [(_ & -> & ->) | (_ & -> & ->)]; lia.
Qed.

Lemma numCorners_triangles (fs : list FaceRecord) :
  (forall f, In f fs -> isQuad (flags f) = false) ->
  numCorners fs = 3 * numTriangles fs.
Proof.
  induction fs as [|f fs IH]; intros H; [reflexivity|].
  rewrite numCorners_cons, numTriangles_cons.
  rewrite IH by (intros g Hg; apply H; now right).
  destruct (face_counts f) as [(E & _) | (_ & -> & ->)]; [|lia].
  rewrite (H f) in E by now left. discriminate.
Qed.

Lemma newUint16Array_exact (l : list Z) :
  (forall i, In i l -> 0 <= i < 2 ^ 16) -> elements (newUint16Array l) = l.
Proof.
  intros H. simpl. rewrite <- (map_id l) at 2.
  apply map_ext_in. intros i Hi. apply Z.mod_small. auto.
Qed.

Lemma convert_indices (modelData : ModelData.t) (fileName : string) :
  exists gltf,
    convertThreeJsJsonToGltf modelData fileName = Some gltf /\
    GltfData.indices gltf =
      let l := fanIndices (facesOf modelData) 0 in
      if 3 * numTriangles (facesOf modelData) <? 65536
      then newUint16Array l else newUint32Array l.
Proof.
  unfold convertThreeJsJsonToGltf. rewrite expand_emitAll.
  eexists. split; [reflexivity|].
  cbn [GltfData.indices]. rewrite emitAll_indices, fanIndices_length. reflexivity.
Qed.

Lemma newUint32Array_exact (l : list Z) :
  (forall i, In i l -> 0 <= i < 2 ^ 32) -> elements (newUint32Array l) = l.
Proof.
  intros H. simpl. rewrite <- (map_id l) at 2.
  apply map_ext_in. intros i Hi. apply Z.mod_small. auto.
Qed.

Lemma emitAll_positions (scaleV : float) (verticesV normalsV uvsV : list float)
    (fs : list FaceRecord) :
  forall vertexIndex,
    positions (emitAll scaleV verticesV normalsV uvsV fs vertexIndex) =
    flat_map (fun f => flat_map (cornerPosition scaleV verticesV f)
                         (seq 0 (numVertices (flags f)))) fs.
Proof.
  induction fs as [|f fs IH]; intros vi; [reflexivity|].
  cbn [emitAll pushed positions flat_map emitFace]. now rewrite IH.
Qed.

Lemma emitAll_normals_length (scaleV : float) (verticesV normalsV uvsV : list float)
    (fs : list FaceRecord) :
  forall vertexIndex,
    Z.of_nat (length (normalData (emitAll scaleV verticesV normalsV uvsV fs vertexIndex)))
    = 3 * numCorners fs.
Proof.
  induction fs as [|f fs IH]; intros vi; [reflexivity|].
  cbn [emitAll pushed normalData emitFace].
  rewrite length_app, Nat2Z.inj_add, IH, numCorners_cons.
  rewrite flat_map_constant_length with (c := 3%nat).
  - rewrite length_seq. unfold cornersOf. lia.
  - intros v _. unfold cornerNormal.
    destruct (hasFaceVertexNormal (flags f)), (at_ (faceNormalIndices f) v); reflexivity.
Qed.

Lemma emitAll_uvs_length (scaleV : float) (verticesV normalsV uvsV : list float)
    (fs : list FaceRecord) :
  forall vertexIndex,
    Z.of_nat (length (uvData (emitAll scaleV verticesV normalsV uvsV fs vertexIndex)))
    = 2 * numCorners fs.
Proof.
  induction fs as [|f fs IH]; intros vi; [reflexivity|].
  cbn [emitAll pushed uvData emitFace].
  rewrite length_app, Nat2Z.inj_add, IH, numCorners_cons.
  rewrite flat_map_constant_length with (c := 2%nat).
  - rewrite length_seq. unfold cornersOf. lia.
  - intros v _. unfold cornerUv.
    destruct (hasFaceVertexUv (flags f)), (at_ (faceUvIndices f) v); reflexivity.
Qed.

(** The three attribute arrays have one entry per corner, so the divisions
    in the accessor counts are exact: the counts are the number of corners,
    three times, and the number of indices. *)
Lemma accessor_counts (modelData : ModelData.t) (fileName : string) :
  exists gltf,
    convertThreeJsJsonToGltf modelData fileName = Some gltf /\
    arrayLength (GltfData.positions gltf) = 3 * numCorners (facesOf modelData) /\
    arrayLength (GltfData.normals gltf) = 3 * numCorners (facesOf modelData) /\
    arrayLength (GltfData.uvs gltf) = 2 * numCorners (facesOf modelData) /\
    map Gltf.count (Gltf.accessors (gltfDocument gltf)) =
      [ numCorners (facesOf modelData); numCorners (facesOf modelData);
        numCorners (facesOf modelData); 3 * numTriangles (facesOf modelData) ].
Proof.
  unfold convertThreeJsJsonToGltf. rewrite expand_emitAll.
  eexists. split; [reflexivity|].
  cbn [gltfDocument Gltf.accessors map Gltf.count GltfData.positions GltfData.normals
       GltfData.uvs GltfData.indices].
  unfold arrayLength, newFloat32Array. cbn [elements].
  rewrite !length_map, emitAll_positions_length, emitAll_normals_length, emitAll_uvs_length.
  rewrite emitAll_indices.
  assert (Hi : forall l : list Z,
    Z.of_nat (length (elements (if Z.of_nat (length l) <? 65536
                                then newUint16Array l else newUint32Array l)))
    = Z.of_nat (length l)).
  { intros l. destruct (_ <? _); simpl; now rewrite length_map. }
  rewrite Hi, fanIndices_length.
  rewrite !(Z.mul_comm _ (numCorners _)), !Z.div_mul by lia.
  repeat split; lia.
Qed.

(** C5. Every decoded face emits the indices of its fan over the corner
    numbers it has just been given: a quad with corners [c0 .. c0 + 3] emits
    the six indices [c0, c0+1, c0+2, c0, c0+2, c0+3], a triangle the three
    indices [c0, c0+1, c0+2], where corner [c0 + k] is the [k]-th corner of
    the face in source order and the corners of successive faces are
    numbered consecutively from 0; so the index list, and the index array
    returned, have three entries per emitted triangle, and the array holds
    the indices unchanged. *)
Theorem triangulation_rule (modelData : ModelData.t) (fileName : string) :
  exists e gltf,
    expand modelData = Some e /\
    convertThreeJsJsonToGltf modelData fileName = Some gltf /\
    indices e = fanIndices (facesOf modelData) 0 /\
    positions e =
      flat_map (fun f => flat_map (cornerPosition (scaleOf modelData)
                                     (orEmpty (ModelData.vertices modelData)) f)
                           (seq 0 (numVertices (flags f)))) (facesOf modelData) /\
    Z.of_nat (length (positions e)) = 3 * numCorners (facesOf modelData) /\
    Z.of_nat (length (indices e)) = 3 * numTriangles (facesOf modelData) /\
    arrayLength (GltfData.indices gltf) = 3 * numTriangles (facesOf modelData) /\
    (3 * numTriangles (facesOf modelData) < 2 ^ 32 ->
     elements (GltfData.indices gltf) = fanIndices (facesOf modelData) 0).
Proof.
  destruct (convert_indices modelData fileName) as (gltf & Hc & Hi).
  rewrite expand_emitAll.
  eexists; exists gltf. split; [reflexivity|]. split; [exact Hc|].
  rewrite emitAll_indices, fanIndices_length, emitAll_positions_length, emitAll_positions.
  repeat (split; [reflexivity|]).
  rewrite Hi. cbv zeta.
  pose proof (numCorners_le (facesOf modelData)) as Hle.
  destruct (3 * numTriangles (facesOf modelData) <? 65536) eqn:E.
  - split; [unfold arrayLength; simpl; now rewrite length_map, fanIndices_length|].
    intros _. apply newUint16Array_exact. intros i Hin.
    apply fanIndices_range in Hin. apply Z.ltb_lt in E. lia.
  - split; [unfold arrayLength; simpl; now rewrite length_map, fanIndices_length|].
    intros Hb. apply newUint32Array_exact. intros i Hin.
    apply fanIndices_range in Hin. lia.
Qed.

Lemma triangulation_rule_witness :
  exists e gltf,
    expand (quadsDocument 1) = Some e /\
    convertThreeJsJsonToGltf (quadsDocument 1) "quad.js" = Some gltf /\
    indices e = [0; 1; 2; 0; 2; 3] /\
    Z.of_nat (length (positions e)) = 12 /\
    elements (GltfData.indices gltf) = [0; 1; 2; 0; 2; 3].
Proof.
  destruct (triangulation_rule (quadsDocument 1) "quad.js")
    as (e & gltf & He & Hc & Hi & _ & Hp & _ & _ & Hel).
  exists e, gltf. split; [exact He|]. split; [exact Hc|].
  split; [rewrite Hi; vm_compute; reflexivity|].
  split; [rewrite Hp; vm_compute; reflexivity|].
  rewrite Hel; vm_compute; reflexivity.
Defined.

Lemma convert_indexComponentType (modelData : ModelData.t) (fileName : string) :
  exists gltf,
    convertThreeJsJsonToGltf modelData fileName = Some gltf /\
    indexComponentType gltf =
      Some (if 3 * numTriangles (facesOf modelData) <? 65536 then 5123 else 5125).
Proof.
  destruct (convert_indices modelData fileName) as (gltf & Hc & Hi).
  exists gltf. split; [exact Hc|].
  unfold indexComponentType.
  cbn [gltfDocument Gltf.accessors nth_error option_map Gltf.componentType].
  rewrite Hi. cbv zeta.
  now destruct (3 * numTriangles (facesOf modelData) <? 65536).
Qed.

(** C4, as the code has it.  The index array is 16-bit unsigned exactly
    when the number of emitted indices, three per triangle and so six per
    quad, is below 65536, and 32-bit unsigned otherwise; the choice is made
    on the complete index list and is the component type of the index
    accessor.  A 16-bit array holds every corner number unchanged, and for a
    document of triangles only the number of indices is the number of
    corners. *)
Theorem index_width (modelData : ModelData.t) (fileName : string) :
  exists gltf,
    convertThreeJsJsonToGltf modelData fileName = Some gltf /\
    arrayLength (GltfData.indices gltf) = 3 * numTriangles (facesOf modelData) /\
    arrayType (GltfData.indices gltf) =
      (if 3 * numTriangles (facesOf modelData) <? 65536 then Uint16Array else Uint32Array) /\
    indexComponentType gltf =
      Some (if 3 * numTriangles (facesOf modelData) <? 65536 then 5123 else 5125) /\
    (3 * numTriangles (facesOf modelData) < 65536 ->
     elements (GltfData.indices gltf) = fanIndices (facesOf modelData) 0) /\
    ((forall f, In f (facesOf modelData) -> isQuad (flags f) = false) ->
     3 * numTriangles (facesOf modelData) = numCorners (facesOf modelData)).
Proof.
  destruct (convert_indices modelData fileName) as (gltf & Hc & Hi).
  exists gltf. split; [exact Hc|].
  unfold indexComponentType. cbn [gltfDocument Gltf.accessors nth_error option_map Gltf.componentType].
  rewrite Hi. cbv zeta.
  pose proof (fanIndices_length (facesOf modelData) 0) as Hlen.
  destruct (3 * numTriangles (facesOf modelData) <? 65536) eqn:E.
  - split; [unfold arrayLength; simpl; now rewrite length_map|].
    split; [reflexivity|]. split; [reflexivity|].
    split.
    + intros _. apply newUint16Array_exact. intros i Hin.
      apply fanIndices_range in Hin. apply Z.ltb_lt in E.
      pose proof (numCorners_le (facesOf modelData)). lia.
    + intros H. symmetry. now apply numCorners_triangles.
  - split; [unfold arrayLength; simpl; now rewrite length_map|].
    split; [reflexivity|]. split; [reflexivity|].
    split.
    + apply Z.ltb_ge in E. lia.
    + intros H. symmetry. now apply numCorners_triangles.
Qed.


(** C4, as stated, fails: 10923 quads have 43692 corners, fewer than 65536,
    and 65538 indices, so the index accessor is 32-bit. *)
Lemma index_width_counterexample :
  ~ (forall (modelData : ModelData.t) (fileName : string),
       exists gltf,
         convertThreeJsJsonToGltf modelData fileName = Some gltf /\
         (indexComponentType gltf = Some 5123 <->
          numCorners (facesOf modelData) < 65536)).
Proof.
  intros H.
  destruct (H manyQuads "quads.js"%string) as (gltf & Hc & Hw).
  destruct (convert_indexComponentType manyQuads "quads.js"%string) as (g & Hg & Hi).
  assert (E : gltf = g) by congruence. subst g.
  assert (Hn : (numCorners (facesOf manyQuads) <? 65536) &&
               negb (3 * numTriangles (facesOf manyQuads) <? 65536) = true)
    by (vm_compute; reflexivity).
  apply andb_true_iff in Hn as [Hn Ht].
  apply negb_true_iff in Ht. apply Z.ltb_lt in Hn.
  rewrite Ht in Hi. rewrite Hi in Hw.
  destruct Hw as [_ Hw]. specialize (Hw Hn). clear Hn Ht.
  discriminate Hw.
Qed.

Lemma index_width_witness :
  exists gltf,
    convertThreeJsJsonToGltf roundTripDocument "triangle.js" = Some gltf /\
    arrayType (GltfData.indices gltf) = Uint16Array /\
    indexComponentType gltf = Some 5123 /\
    elements (GltfData.indices gltf) = [0; 1; 2] /\
    3 * numTriangles (facesOf roundTripDocument) = numCorners (facesOf roundTripDocument).
Proof.
  destruct (index_width roundTripDocument "triangle.js") as (g & Hc & _ & Ht & Hct & He & Hn).
  exists g. split; [exact Hc|].
  split; [exact Ht|]. split; [exact Hct|].
  split.
  - apply He. vm_compute. reflexivity.
  - apply Hn. intros f Hf. vm_compute in Hf.
    destruct Hf as [<- | []]. reflexivity.
Defined.

(** ** The order of numbers *)

Lemma SFcompare_refl (a : spec_float) : a <> S754_nan -> SFcompare a a = Some Eq.
Proof.
  destruct a as [s|s| |s m e]; intros H; simpl; try congruence.
  - now destruct s.
  - rewrite Z.compare_refl.
    change (Pos.compare_cont Eq m m) with (m ?= m)%positive.
    rewrite Pos.compare_refl. now destruct s.
Qed.

Lemma notNaN_spec (x : float) : notNaN x <-> Prim2SF x <> S754_nan.
Proof.
  unfold notNaN, is_nan. rewrite eqb_spec. unfold SFeqb. split.
  - intros H E. rewrite E in H. discriminate.
  - intros H. now rewrite SFcompare_refl.
Qed.

Lemma SFcompare_opp (a b : spec_float) (c : comparison) :
  SFcompare a b = Some c -> SFcompare b a = Some (CompOpp c).
Proof.
  destruct a as [s1|s1| |s1 m1 e1], b as [s2|s2| |s2 m2 e2]; simpl;
    try discriminate; intros H; injection H as <-;
    try (destruct s1; reflexivity); try (destruct s2; reflexivity);
    try (destruct s1, s2; reflexivity).
  change (Pos.compare_cont Eq m1 m2) with (m1 ?= m2)%positive.
  change (Pos.compare_cont Eq m2 m1) with (m2 ?= m1)%positive.
  rewrite (Z.compare_antisym e1 e2), (Pos.compare_antisym m1 m2).
  destruct s1, s2; try reflexivity;
    destruct (e1 ?= e2); simpl; try reflexivity;
    destruct (m1 ?= m2)%positive; reflexivity.
Qed.

Lemma SFcompare_some (a b : spec_float) :
  a <> S754_nan -> b <> S754_nan -> exists c, SFcompare a b = Some c.
Proof.
  destruct a, b; simpl; intros Ha Hb; try congruence; eauto.
Qed.

Lemma SFleb_trans (a b c : spec_float) :
  SFleb a b = true -> SFleb b c = true -> SFleb a c = true.
Proof.
  unfold SFleb.
  destruct a as [s1|s1| |s1 m1 e1], b as [s2|s2| |s2 m2 e2], c as [s3|s3| |s3 m3 e3];
    simpl; try discriminate; try reflexivity;
    try (destruct s1; simpl; try discriminate; try reflexivity);
    try (destruct s2; simpl; try discriminate; try reflexivity);
    try (destruct s3; simpl; try discriminate; try reflexivity).
  all: change (Pos.compare_cont Eq m1 m2) with (m1 ?= m2)%positive.
  all: change (Pos.compare_cont Eq m2 m3) with (m2 ?= m3)%positive.
  all: change (Pos.compare_cont Eq m1 m3) with (m1 ?= m3)%positive.
  all: intros H1 H2.
  all: repeat match goal with
         | |- context [(?x ?= ?y)%Z] => destruct (Z.compare_spec x y)
         | H : context [(?x ?= ?y)%Z] |- _ => destruct (Z.compare_spec x y)
         | |- context [(?x ?= ?y)%positive] => destruct (Pos.compare_spec x y)
         | H : context [(?x ?= ?y)%positive] |- _ => destruct (Pos.compare_spec x y)
         end.
  all: simpl in *; try discriminate; try reflexivity; try lia.
Qed.

Lemma numLe_trans (x y z : float) : numLe x y -> numLe y z -> numLe x z.
Proof. unfold numLe. rewrite !leb_spec. apply SFleb_trans. Qed.

Lemma numLe_refl (x : float) : notNaN x -> numLe x x.
Proof.
  intros H. apply notNaN_spec in H. unfold numLe. rewrite leb_spec.
  unfold SFleb. now rewrite SFcompare_refl.
Qed.

Lemma ltb_numLe (x y : float) : (x <? y)%float = true -> numLe x y.
Proof.
  unfold numLe. rewrite ltb_spec, leb_spec. unfold SFltb, SFleb.
  destruct (SFcompare _ _) as [[]|]; congruence.
Qed.

(** Two numbers neither of which is below the other are equal in the order. *)
Lemma not_ltb_numLe (x y : float) :
  notNaN x -> notNaN y ->
  (x <? y)%float = false -> (y <? x)%float = false -> numLe x y /\ numLe y x.
Proof.
  intros Hx Hy. apply notNaN_spec in Hx, Hy.
  unfold numLe. rewrite !ltb_spec, !leb_spec. unfold SFltb, SFleb.
  destruct (SFcompare_some _ _ Hx Hy) as [c Hc].
  rewrite (SFcompare_opp _ _ _ Hc), Hc.
  destruct c; simpl; intros; try discriminate; split; reflexivity.
Qed.

Lemma min_choice (x y : float) :
  notNaN x -> notNaN y -> Js.min x y = x \/ Js.min x y = y.
Proof.
  unfold notNaN, Js.min. intros -> ->. simpl.
  destruct (x <? y)%float; [now left|].
  destruct (y <? x)%float; [now right|].
  destruct (get_sign x); [now left | now right].
Qed.

Lemma max_choice (x y : float) :
  notNaN x -> notNaN y -> Js.max x y = x \/ Js.max x y = y.
Proof.
  unfold notNaN, Js.max. intros -> ->. simpl.
  destruct (y <? x)%float; [now left|].
  destruct (x <? y)%float; [now right|].
  destruct (get_sign x); [now right | now left].
Qed.

Lemma min_lower (x y : float) :
  notNaN x -> notNaN y -> numLe (Js.min x y) x /\ numLe (Js.min x y) y.
Proof.
  intros Hx Hy. unfold Js.min. rewrite Hx, Hy. simpl.
  destruct (x <? y)%float eqn:E1.
  { split; [now apply numLe_refl | now apply ltb_numLe]. }
  destruct (y <? x)%float eqn:E2.
  { split; [now apply ltb_numLe | now apply numLe_refl]. }
  destruct (not_ltb_numLe x y Hx Hy E1 E2) as [H1 H2].
  destruct (get_sign x); split; auto using numLe_refl.
Qed.

Lemma max_upper (x y : float) :
  notNaN x -> notNaN y -> numLe x (Js.max x y) /\ numLe y (Js.max x y).
Proof.
  intros Hx Hy. unfold Js.max. rewrite Hx, Hy. simpl.
  destruct (y <? x)%float eqn:E1.
  { split; [now apply numLe_refl | now apply ltb_numLe]. }
  destruct (x <? y)%float eqn:E2.
  { split; [now apply ltb_numLe | now apply numLe_refl]. }
  destruct (not_ltb_numLe x y Hx Hy E2 E1) as [H1 H2].
  destruct (get_sign x); split; auto using numLe_refl.
Qed.

Lemma ltb_infinity (x : float) : (infinity <? x)%float = false.
Proof.
  rewrite ltb_spec. change (Prim2SF infinity) with (S754_infinity false).
  unfold SFltb. now destruct (Prim2SF x) as [s|[]| |s m e].
Qed.

Lemma ltb_neg_infinity (x : float) : (x <? neg_infinity)%float = false.
Proof.
  rewrite ltb_spec. change (Prim2SF neg_infinity) with (S754_infinity true).
  unfold SFltb. now destruct (Prim2SF x) as [s|[]| |s m e].
Qed.

Lemma min_infinity (x : float) : notNaN x -> Js.min infinity x = x.
Proof.
  intros Hx. unfold Js.min. rewrite Hx, ltb_infinity.
  change (is_nan infinity) with false. change (get_sign infinity) with false.
  simpl. now destruct (x <? infinity)%float.
Qed.

Lemma max_neg_infinity (x : float) : notNaN x -> Js.max neg_infinity x = x.
Proof.
  intros Hx. unfold Js.max. rewrite Hx, ltb_neg_infinity.
  change (is_nan neg_infinity) with false. change (get_sign neg_infinity) with true.
  simpl. now destruct (neg_infinity <? x)%float.
Qed.

(** ** Folding a selection over a list *)

Section Selection.

Variable op : float -> float -> float.
Variable R : float -> float -> Prop.

Hypothesis op_choice : forall x y, notNaN x -> notNaN y -> op x y = x \/ op x y = y.
Hypothesis op_bound : forall x y, notNaN x -> notNaN y -> R (op x y) x /\ R (op x y) y.
Hypothesis R_trans : forall x y z, R x y -> R y z -> R x z.
Hypothesis R_refl : forall x, notNaN x -> R x x.

Lemma fold_select (vals : list float) :
  forall acc, notNaN acc -> Forall notNaN vals ->
    let r := fold_left op vals acc in
    notNaN r /\ (r = acc \/ In r vals) /\ R r acc /\ forall v, In v vals -> R r v.
Proof.
  induction vals as [|v vals IH]; intros acc Hacc Hvals; simpl.
  - repeat split; auto. intros v [].
  - inversion Hvals as [|? ? Hv Hrest]; subst.
    assert (Hn : notNaN (op acc v)) by (destruct (op_choice acc v Hacc Hv) as [-> | ->]; auto).
    destruct (IH (op acc v) Hn Hrest) as (Hr & Hin & Hb & Hall).
    destruct (op_bound acc v Hacc Hv) as [B1 B2].
    split; [exact Hr|]. split; [|split].
    + destruct Hin as [E | Hin]; [|now right; right].
      rewrite E. destruct (op_choice acc v Hacc Hv) as [-> | ->]; [now left | now right; left].
    + eapply R_trans; eauto.
    + intros w [<- | Hw]; [eapply R_trans; eauto | auto].
Qed.

End Selection.

Lemma fold_min_least (vals : list float) :
  vals <> [] -> Forall notNaN vals -> least (fold_left Js.min vals infinity) vals.
Proof.
  destruct vals as [|v vals]; [congruence|]. intros _ H.
  inversion H as [|? ? Hv Hrest]; subst. simpl. rewrite (min_infinity v Hv).
  destruct (fold_select Js.min numLe min_choice min_lower numLe_trans numLe_refl
              vals v Hv Hrest)
    as (_ & Hin & Hb & Hall).
  split.
  - destruct Hin as [-> | Hin]; [now left | now right].
  - intros w [<- | Hw]; auto.
Qed.

Lemma fold_max_greatest (vals : list float) :
  vals <> [] -> Forall notNaN vals -> greatest (fold_left Js.max vals neg_infinity) vals.
Proof.
  destruct vals as [|v vals]; [congruence|]. intros _ H.
  inversion H as [|? ? Hv Hrest]; subst. simpl. rewrite (max_neg_infinity v Hv).
  destruct (fold_select Js.max (fun x y => numLe y x) max_choice max_upper
              (fun x y z H1 H2 => numLe_trans z y x H2 H1) numLe_refl vals v Hv Hrest)
    as (_ & Hin & Hb & Hall).
  split.
  - destruct Hin as [-> | Hin]; [now left | now right].
  - intros w [<- | Hw]; auto.
Qed.

(** ** The bounding box *)

Lemma boundsLoop_triples (ts : list Vec3) :
  forall b, boundsLoop (flat_map vecList ts) b = fold_left growVec ts b.
Proof.
  induction ts as [|[[x y] z] ts IH]; intros b; [reflexivity|].
  simpl. apply IH.
Qed.

Lemma axis_triples (k : nat) (ts : list Vec3) :
  axis k (flat_map vecList ts) = map (component k) ts.
Proof.
  induction ts as [|[[x y] z] ts IH]; [reflexivity|].
  simpl. now rewrite <- IH.
Qed.

Lemma fold_growVec (ts : list Vec3) :
  forall b,
    let '(minX, minY, minZ) := bmin b in
    let '(maxX, maxY, maxZ) := bmax b in
    fold_left growVec ts b =
    {| bmin := (fold_left Js.min (map (component 0) ts) minX,
                fold_left Js.min (map (component 1) ts) minY,
                fold_left Js.min (map (component 2) ts) minZ);
       bmax := (fold_left Js.max (map (component 0) ts) maxX,
                fold_left Js.max (map (component 1) ts) maxY,
                fold_left Js.max (map (component 2) ts) maxZ) |}.
Proof.
  induction ts as [|[[x y] z] ts IH]; intros [[[minX minY] minZ] [[maxX maxY] maxZ]];
    [reflexivity|].
  simpl. specialize (IH (growBounds
    {| bmin := (minX, minY, minZ); bmax := (maxX, maxY, maxZ) |} (Some x) (Some y) (Some z))).
  simpl in IH. exact IH.
Qed.

Section PositionTriples.

Variable scaleV : float.
Variable verticesV normalsV uvsV : list float.

Lemma corners_triples (f : FaceRecord) (l : list nat) :
  exists ts, flat_map (cornerPosition scaleV verticesV f) l = flat_map vecList ts /\
             length ts = length l.
Proof.
  induction l as [|v l (ts & E & L)]; [now exists []|].
  assert (Hv : exists t, cornerPosition scaleV verticesV f v = vecList t)
    by (eexists (_, _, _); reflexivity).
  destruct Hv as [t Et].
  exists (t :: ts). cbn [flat_map length]. rewrite Et, E, L. split; reflexivity.
Qed.

Lemma emitAll_triples (fs : list FaceRecord) :
  forall vertexIndex,
    exists ts,
      positions (emitAll scaleV verticesV normalsV uvsV fs vertexIndex) = flat_map vecList ts /\
      (fs <> [] -> ts <> []).
Proof.
  induction fs as [|f fs IH]; intros vi; [exists []; split; [reflexivity | congruence]|].
  destruct (IH (vi + cornersOf f)) as (ts2 & E2 & _).
  destruct (corners_triples f (seq 0 (numVertices (flags f)))) as (ts1 & E1 & L1).
  exists (ts1 ++ ts2). split.
  - cbn [emitAll pushed positions emitFace]. rewrite E1, E2, flat_map_app. reflexivity.
  - intros _ E. apply app_eq_nil in E as [E _]. subst ts1.
    rewrite length_seq in L1. unfold numVertices in L1.
    destruct (isQuad (flags f)); discriminate.
Qed.

End PositionTriples.

Lemma notNaN_components (k : nat) (ts : list Vec3) :
  (k < 3)%nat -> Forall notNaN (flat_map vecList ts) -> Forall notNaN (map (component k) ts).
Proof.
  intros Hk. induction ts as [|[[x y] z] ts IH]; intros H; [constructor|].
  simpl in H. inversion H as [|? ? Hx H1]; subst.
  inversion H1 as [|? ? Hy H2]; subst. inversion H2 as [|? ? Hz H3]; subst.
  simpl. constructor; [|now apply IH].
  destruct k as [|[|[|k]]]; simpl; auto. lia.
Qed.

Lemma positionsOf_triples (modelData : ModelData.t) :
  exists ts, positionsOf modelData = flat_map vecList ts /\
             (facesOf modelData <> [] -> ts <> []).
Proof.
  unfold positionsOf. rewrite expand_emitAll. apply emitAll_triples.
Qed.

Lemma convert_bounds (modelData : ModelData.t) (fileName : string) :
  exists gltf,
    convertThreeJsJsonToGltf modelData fileName = Some gltf /\
    GltfData.bounds gltf = boundsLoop (positionsOf modelData) initialBounds /\
    accessorBounds gltf = Some (bmin (GltfData.bounds gltf), bmax (GltfData.bounds gltf)).
Proof.
  unfold convertThreeJsJsonToGltf, positionsOf.
  destruct (expand_total modelData) as [e ->].
  eexists. split; [reflexivity|]. split; reflexivity.
Qed.

Lemma convert_positions (modelData : ModelData.t) (fileName : string) :
  exists gltf,
    convertThreeJsJsonToGltf modelData fileName = Some gltf /\
    GltfData.positions gltf = newFloat32Array (positionsOf modelData).
Proof.
  unfold convertThreeJsJsonToGltf, positionsOf.
  destruct (expand_total modelData) as [e ->].
  eexists. split; reflexivity.
Qed.

(** C9, as the code has it.  The bounding box is computed from the scaled
    position values as the face loop pushes them, binary64 numbers, before
    they are stored.  For every document with at least one face whose
    pushed positions are all numbers (none is NaN), the min and max recorded
    in the position accessor are, on each axis, the least and the greatest
    of the pushed position values; they are the fold of [Math.min] from
    +infinity and of [Math.max] from -infinity over every pushed corner
    position.  The data of the position accessor is the [Float32Array] of
    these same values, each rounded to binary32: the bounds are those of
    the values before that rounding. *)
Theorem bounding_box_exact (modelData : ModelData.t) (fileName : string) :
  facesOf modelData <> [] ->
  Forall notNaN (positionsOf modelData) ->
  exists gltf lo hi,
    convertThreeJsJsonToGltf modelData fileName = Some gltf /\
    accessorBounds gltf = Some (lo, hi) /\
    GltfData.bounds gltf = {| bmin := lo; bmax := hi |} /\
    GltfData.positions gltf = newFloat32Array (positionsOf modelData) /\
    foldedBounds lo hi (positionsOf modelData) /\
    exactBounds lo hi (positionsOf modelData).
Proof.
  intros Hfaces Hnum.
  destruct (convert_bounds modelData fileName) as (gltf & Hc & Hb & Ha).
  destruct (convert_positions modelData fileName) as (g & Hg & Hp).
  assert (E : g = gltf) by congruence. subst g.
  destruct (positionsOf_triples modelData) as (ts & Hts & Hne).
  specialize (Hne Hfaces).
  exists gltf, (bmin (GltfData.bounds gltf)), (bmax (GltfData.bounds gltf)).
  split; [exact Hc|]. split; [exact Ha|].
  split; [now destruct (GltfData.bounds gltf)|].
  split; [exact Hp|].
  rewrite Hb, Hts in *. rewrite boundsLoop_triples.
  pose proof (fold_growVec ts initialBounds) as Hf. simpl in Hf. rewrite Hf.
  split; intros k Hk; rewrite axis_triples.
  - destruct k as [|[|[|k]]]; [| | |lia]; split; reflexivity.
  - assert (Hm : map (component k) ts <> []) by (destruct ts; [congruence | discriminate]).
    pose proof (notNaN_components k ts Hk Hnum) as Hn.
    destruct k as [|[|[|k]]]; [| | |lia]; cbn [bmin bmax component nth];
      (split; [now apply fold_min_least | now apply fold_max_greatest]).
Qed.

Lemma bounding_box_exact_witness :
  exists gltf lo hi,
    convertThreeJsJsonToGltf roundedDocument "rounded.js" = Some gltf /\
    accessorBounds gltf = Some (lo, hi) /\
    GltfData.bounds gltf = {| bmin := lo; bmax := hi |} /\
    GltfData.positions gltf = newFloat32Array (positionsOf roundedDocument) /\
    foldedBounds lo hi (positionsOf roundedDocument) /\
    exactBounds lo hi (positionsOf roundedDocument).
Proof.
  apply (bounding_box_exact roundedDocument "rounded.js").
  - vm_compute. discriminate.
  - vm_compute. repeat constructor.
Defined.

(** C9, as stated, fails, whichever values are taken for the emitted
    positions.  Taken as the values the face loop pushes: the third corner
    of the triangle of [danglingDocument] names a vertex the document does
    not have, its position is NaN, and so is every bound, which is then no
    bound of the position 1 of the first corner.  Taken as the data of the
    position accessor: the vertex (0.1, 0.7, 0.1) of [roundedDocument] is
    stored as the binary32 numbers 0x3DCCCCCD, 0x3F333333, 0x3DCCCCCD, and
    the recorded minimum 0.7 of the second axis is above the stored
    0x3F333333 (as the recorded maximum 0.1 of the first axis is below the
    stored 0x3DCCCCCD). *)
Lemma bounding_box_counterexample :
  ~ (forall (modelData : ModelData.t) (fileName : string),
       facesOf modelData <> [] ->
       exists gltf lo hi,
         convertThreeJsJsonToGltf modelData fileName = Some gltf /\
         accessorBounds gltf = Some (lo, hi) /\
         exactBounds lo hi (positionsOf modelData)) /\
  ~ (forall (modelData : ModelData.t) (fileName : string),
       facesOf modelData <> [] ->
       exists gltf lo hi,
         convertThreeJsJsonToGltf modelData fileName = Some gltf /\
         accessorBounds gltf = Some (lo, hi) /\
         exactBounds lo hi (storedPositions gltf)).
Proof.
  split; intros H.
  - destruct (H danglingDocument "dangling.js"%string) as (gltf & lo & hi & Hc & Ha & Hex).
    { vm_compute. discriminate. }
    destruct (convert_bounds danglingDocument "dangling.js"%string) as (g & Hg & Hb & Ha').
    assert (E : gltf = g) by congruence. subst g.
    rewrite Ha' in Ha. rewrite Hb in Ha.
    assert (Hlo : lo = bmin (boundsLoop (positionsOf danglingDocument) initialBounds))
      by congruence.
    destruct (Hex 0%nat ltac:(lia)) as [[_ Hl] _].
    specialize (Hl 1%float). subst lo.
    assert (Hin : In 1%float (axis 0 (positionsOf danglingDocument)))
      by (vm_compute; left; reflexivity).
    specialize (Hl Hin). clear - Hl.
    vm_compute in Hl. discriminate Hl.
  - destruct (H roundedDocument "rounded.js"%string) as (gltf & lo & hi & Hc & Ha & Hex).
    { vm_compute. discriminate. }
    destruct (Hex 1%nat ltac:(lia)) as [[_ Hl] _].
    set (below := fun g : GltfData.t =>
           match accessorBounds g with
           | Some (lo, _) =>
               forallb (fun v => (component 1 lo <=? v)%float) (axis 1 (storedPositions g))
           | None => false
           end).
    assert (Ht : below gltf = true).
    { unfold below. rewrite Ha. apply forallb_forall. exact Hl. }
    apply (f_equal (fun o => match o with Some g => below g | None => false end)) in Hc.
    rewrite Ht in Hc. clear - Hc. vm_compute in Hc. discriminate Hc.
Qed.

(** ** Bytes and buffers *)

Lemma byteValue_byteOf (z : Z) : byteValue (byteOf z) = z mod 256.
Proof.
  unfold byteValue, byteOf.
  assert (H : 0 <= z mod 256 < 256) by (apply Z.mod_pos_bound; lia).
  destruct (Byte.of_N (Z.to_N (z mod 256))) as [b|] eqn:E.
  - apply Byte.to_of_N in E. rewrite E. lia.
  - apply Byte.of_N_None_iff in E. lia.
Qed.

Lemma littleEndian_length (n : nat) (z : Z) : length (littleEndian n z) = n.
Proof. revert z; induction n as [|n IH]; intros z; simpl; [reflexivity | now rewrite IH]. Qed.

Lemma fromLittleEndian_littleEndian (n : nat) :
  forall z, fromLittleEndian (littleEndian n z) = z mod 256 ^ Z.of_nat n.
Proof.
  induction n as [|n IH]; intros z.
  - simpl. now rewrite Z.mod_1_r.
  - cbn [littleEndian fromLittleEndian].
    rewrite byteValue_byteOf, IH, Z.shiftr_div_pow2 by lia.
    rewrite Nat2Z.inj_succ, Z.pow_succ_r by lia.
    change (2 ^ 8) with 256.
    rewrite Z.rem_mul_r by lia. reflexivity.
Qed.

Lemma fromLittleEndian_uint32 (z : Z) :
  0 <= z < 2 ^ 32 -> fromLittleEndian (uint32 z) = z.
Proof.
  intros H. unfold uint32. rewrite fromLittleEndian_littleEndian.
  change (256 ^ Z.of_nat 4) with (2 ^ 32). now apply Z.mod_small.
Qed.

Lemma pad_spec (len : Z) :
  0 <= len -> 0 <= pad len < 4 /\ (len + pad len) mod 4 = 0.
Proof.
  intros H. unfold pad.
  rewrite (Z.rem_mod_nonneg len 4) by lia.
  pose proof (Z.mod_pos_bound len 4 ltac:(lia)) as Hm.
  rewrite (Z.rem_mod_nonneg (4 - len mod 4) 4) by lia.
  pose proof (Z.div_mod len 4 ltac:(lia)) as Hd.
  assert (Hr : len mod 4 = 0 \/ len mod 4 = 1 \/ len mod 4 = 2 \/ len mod 4 = 3) by lia.
  destruct Hr as [Hr | [Hr | [Hr | Hr]]]; rewrite Hr in *;
    (split; [now vm_compute|]); apply Z.mod_divide; try lia.
  - exists (len / 4). vm_compute (_ mod _). lia.
  - exists (len / 4 + 1). vm_compute (_ mod _). lia.
  - exists (len / 4 + 1). vm_compute (_ mod _). lia.
  - exists (len / 4 + 1). vm_compute (_ mod _). lia.
Qed.

Lemma byteLen_nonneg (b : list byte) : 0 <= byteLen b.
Proof. unfold byteLen. lia. Qed.

Lemma byteLen_app (a b : list byte) : byteLen (a ++ b) = byteLen a + byteLen b.
Proof. unfold byteLen. rewrite length_app. lia. Qed.

Lemma byteLen_zeros (n : Z) : 0 <= n -> byteLen (zeros n) = n.
Proof. intros H. unfold byteLen, zeros. rewrite repeat_length. lia. Qed.

Lemma byteLen_spaces (n : Z) : 0 <= n -> byteLen (spaces n) = n.
Proof. intros H. unfold byteLen, spaces. rewrite repeat_length. lia. Qed.

Lemma byteLen_uint32 (z : Z) : byteLen (uint32 z) = 4.
Proof. reflexivity. Qed.

Lemma zeros_add (a b : Z) : 0 <= a -> 0 <= b -> zeros (a + b) = zeros a ++ zeros b.
Proof.
  intros Ha Hb. unfold zeros. rewrite Z2Nat.inj_add by lia. apply repeat_app.
Qed.

Lemma alloc_zeros (n : Z) : alloc n = zeros n.
Proof. reflexivity. Qed.

Lemma overwrite_front {A : Type} (old c : list A) :
  forall src, length old = length src -> overwrite (old ++ c) 0 src = src ++ c.
Proof.
  induction old as [|o old IH]; intros [|s src] H; simpl in *; try discriminate.
  - now destruct c.
  - f_equal. apply IH. lia.
Qed.

(** Overwriting the middle part of a list by a list of the same length. *)
Lemma overwrite_middle {A : Type} (a old c src : list A) :
  length old = length src ->
  overwrite (a ++ old ++ c) (length a) src = a ++ src ++ c.
Proof.
  intros H. induction a as [|x a IH]; simpl.
  - now apply overwrite_front.
  - f_equal. exact IH.
Qed.

Lemma copy_middle (a old c src : list byte) (start : Z) :
  start = byteLen a -> byteLen old = byteLen src ->
  copy src (a ++ old ++ c) start = a ++ src ++ c.
Proof.
  unfold copy, byteLen. intros -> H. rewrite Nat2Z.id.
  apply overwrite_middle. lia.
Qed.

Lemma pad_nonneg (b : list byte) : 0 <= pad (byteLen b).
Proof. apply pad_spec, byteLen_nonneg. Qed.

Lemma byteLen_padded (b : list byte) : byteLen (padded b) = byteLen b + pad (byteLen b).
Proof. unfold padded. now rewrite byteLen_app, byteLen_zeros by apply pad_nonneg. Qed.

Lemma byteLen_padded_mod (b : list byte) : byteLen (padded b) mod 4 = 0.
Proof. rewrite byteLen_padded. apply pad_spec, byteLen_nonneg. Qed.

(** Copying a segment into the zero bytes allocated for it. *)
Lemma copy_segment (done seg rest : list byte) (offset : Z) :
  offset = byteLen done ->
  copy seg (done ++ zeros (byteLen seg) ++ rest) offset = (done ++ seg) ++ rest.
Proof.
  intros H. rewrite <- app_assoc. apply copy_middle; [exact H|].
  apply byteLen_zeros, byteLen_nonneg.
Qed.

Lemma copy_first (seg rest : list byte) :
  copy seg (zeros (byteLen seg) ++ rest) 0 = seg ++ rest.
Proof. exact (copy_segment [] seg rest 0 eq_refl). Qed.

Lemma packBuffer_layout (data : GltfData.t) :
  packBuffer data =
  padded (arrayBytes (GltfData.positions data)) ++
  padded (arrayBytes (GltfData.normals data)) ++
  padded (arrayBytes (GltfData.uvs data)) ++
  padded (arrayBytes (GltfData.indices data)).
Proof.
  unfold packBuffer, bufferLengthOf, lengthsOf, padded.
  cbn [posLen normLen uvLen idxLen].
  set (P := arrayBytes (GltfData.positions data)).
  set (N := arrayBytes (GltfData.normals data)).
  set (U := arrayBytes (GltfData.uvs data)).
  set (I := arrayBytes (GltfData.indices data)).
  pose proof (byteLen_nonneg P). pose proof (byteLen_nonneg N).
  pose proof (byteLen_nonneg U). pose proof (byteLen_nonneg I).
  pose proof (pad_nonneg P). pose proof (pad_nonneg N).
  pose proof (pad_nonneg U). pose proof (pad_nonneg I).
  rewrite alloc_zeros, !zeros_add by lia.
  rewrite <- !app_assoc.
  rewrite (copy_first P).
  rewrite (app_assoc P (zeros (pad (byteLen P)))).
  rewrite (copy_segment (P ++ zeros (pad (byteLen P))) N)
    by (rewrite byteLen_app, byteLen_zeros by lia; lia).
  rewrite (app_assoc _ (zeros (pad (byteLen N)))).
  rewrite (copy_segment _ U)
    by (rewrite !byteLen_app, !byteLen_zeros by lia; lia).
  rewrite (app_assoc _ (zeros (pad (byteLen U)))).
  rewrite (copy_segment _ I)
    by (rewrite !byteLen_app, !byteLen_zeros by lia; lia).
  rewrite <- !app_assoc. reflexivity.
Qed.

Lemma byteLen_packBuffer (data : GltfData.t) :
  byteLen (packBuffer data) = bufferLengthOf (lengthsOf data).
Proof.
  rewrite packBuffer_layout, !byteLen_app, !byteLen_padded.
  unfold bufferLengthOf, lengthsOf. cbn [posLen normLen uvLen idxLen]. lia.
Qed.

Lemma slice_middle (a s c : list byte) (offset len : Z) :
  offset = byteLen a -> len = byteLen s -> slice offset len (a ++ s ++ c) = s.
Proof.
  unfold slice, byteLen. intros -> ->. rewrite !Nat2Z.id.
  rewrite skipn_app, skipn_all, Nat.sub_diag. simpl.
  rewrite firstn_app, firstn_all, Nat.sub_diag. simpl. apply app_nil_r.
Qed.

Lemma slice_front (s c : list byte) (len : Z) :
  len = byteLen s -> slice 0 len (s ++ c) = s.
Proof. intros H. exact (slice_middle [] s c 0 len eq_refl H). Qed.

Lemma mod4_add (a b : Z) : a mod 4 = 0 -> b mod 4 = 0 -> (a + b) mod 4 = 0.
Proof. intros Ha Hb. rewrite Z.add_mod, Ha, Hb by lia. reflexivity. Qed.

Lemma gltf_views (data : GltfData.t) :
  let P := arrayBytes (GltfData.positions data) in
  let N := arrayBytes (GltfData.normals data) in
  let U := arrayBytes (GltfData.uvs data) in
  let I := arrayBytes (GltfData.indices data) in
  Gltf.bufferViews (gltfDocument data) = [
    {| Gltf.buffer := 0; Gltf.byteOffset := 0;
       Gltf.byteLength := byteLen P; Gltf.target := 34962 |};
    {| Gltf.buffer := 0; Gltf.byteOffset := byteLen (padded P);
       Gltf.byteLength := byteLen N; Gltf.target := 34962 |};
    {| Gltf.buffer := 0; Gltf.byteOffset := byteLen (padded P) + byteLen (padded N);
       Gltf.byteLength := byteLen U; Gltf.target := 34962 |};
    {| Gltf.buffer := 0;
       Gltf.byteOffset := byteLen (padded P) + byteLen (padded N) + byteLen (padded U);
       Gltf.byteLength := byteLen I; Gltf.target := 34963 |} ].
Proof.
  cbv zeta. rewrite !byteLen_padded.
  unfold gltfDocument, lengthsOf. cbn [Gltf.bufferViews posLen normLen uvLen idxLen].
  repeat match goal with
         | |- @eq Z _ _ => lia
         | |- _ => f_equal
         end.
Qed.

Lemma packing_of (data : GltfData.t) :
  packBuffer data =
    padded (arrayBytes (GltfData.positions data)) ++
    padded (arrayBytes (GltfData.normals data)) ++
    padded (arrayBytes (GltfData.uvs data)) ++
    padded (arrayBytes (GltfData.indices data)) /\
  map (viewBytes (packBuffer data)) (Gltf.bufferViews (gltfDocument data)) = segments data /\
  Forall (fun v => Gltf.byteOffset v mod 4 = 0) (Gltf.bufferViews (gltfDocument data)) /\
  Forall (fun s => byteLen (padded s) mod 4 = 0) (segments data) /\
  Gltf.buffers (gltfDocument data) =
    [ {| Gltf.bufferByteLength := byteLen (packBuffer data) |} ] /\
  byteLen (packBuffer data) = sumZ (map (fun s => byteLen (padded s)) (segments data)).
Proof.
  pose proof (gltf_views data) as Hv. cbv zeta in Hv.
  split; [apply packBuffer_layout|].
  rewrite Hv. rewrite (packBuffer_layout data) at 1.
  set (P := arrayBytes (GltfData.positions data)) in *.
  set (N := arrayBytes (GltfData.normals data)) in *.
  set (U := arrayBytes (GltfData.uvs data)) in *.
  set (I := arrayBytes (GltfData.indices data)) in *.
  split; [|split; [|split; [|split]]].
  - unfold viewBytes, segments. cbn [map Gltf.byteOffset Gltf.byteLength].
    fold P N U I. f_equal; [|f_equal; [|f_equal; [|f_equal]]].
    + unfold padded at 1. rewrite <- app_assoc. now apply slice_front.
    + unfold padded at 3. rewrite <- (app_assoc N). now apply slice_middle.
    + unfold padded at 5. rewrite <- (app_assoc U), (app_assoc (padded P)).
      apply slice_middle; [now rewrite byteLen_app | reflexivity].
    + unfold padded at 7.
      rewrite (app_assoc (padded P)), (app_assoc _ (padded U)).
      apply slice_middle; [rewrite !byteLen_app; lia | reflexivity].
  - repeat constructor; cbn [Gltf.byteOffset];
      auto using mod4_add, byteLen_padded_mod.
  - unfold segments. repeat constructor; apply byteLen_padded_mod.
  - rewrite byteLen_packBuffer. reflexivity.
  - rewrite packBuffer_layout, !byteLen_app. fold P N U I.
    unfold segments, sumZ. fold P N U I. simpl. lia.
Qed.

(** C7. The packed binary buffer of every conversion holds the four
    segments in the order positions, normals, uvs, indices, each followed by
    the zero bytes that pad it to the next multiple of 4; every buffer view
    designates exactly its segment, at a byte offset that is a multiple of
    4; and the declared buffer length is the length of the buffer, the sum
    of the padded segment lengths. *)
Theorem buffer_packing (modelData : ModelData.t) (fileName : string) :
  exists data,
    convertThreeJsJsonToGltf modelData fileName = Some data /\
    packBuffer data =
      padded (arrayBytes (GltfData.positions data)) ++
      padded (arrayBytes (GltfData.normals data)) ++
      padded (arrayBytes (GltfData.uvs data)) ++
      padded (arrayBytes (GltfData.indices data)) /\
    map (viewBytes (packBuffer data)) (Gltf.bufferViews (gltfDocument data)) = segments data /\
    Forall (fun v => Gltf.byteOffset v mod 4 = 0) (Gltf.bufferViews (gltfDocument data)) /\
    Forall (fun s => byteLen (padded s) mod 4 = 0) (segments data) /\
    Gltf.buffers (gltfDocument data) =
      [ {| Gltf.bufferByteLength := byteLen (packBuffer data) |} ] /\
    byteLen (packBuffer data) = sumZ (map (fun s => byteLen (padded s)) (segments data)).
Proof.
  destruct (convert_total modelData fileName) as [data Hc].
  exists data. split; [exact Hc | apply packing_of].
Qed.

(** ** The container *)

Lemma write_step (done rest : list byte) (value offset : Z) :
  0 <= value < 2 ^ 32 -> offset = byteLen done ->
  writeUInt32LE value offset (done ++ zeros 4 ++ rest) = Ok ((done ++ uint32 value) ++ rest).
Proof.
  intros Hv ->. unfold writeUInt32LE.
  assert (C : ((0 <=? value) && (value <? 2 ^ 32) && (0 <=? byteLen done) &&
               (byteLen done + 4 <=? Z.of_nat (length (done ++ zeros 4 ++ rest))))%bool = true).
  { rewrite !andb_true_iff, !Z.leb_le, Z.ltb_lt, !length_app. unfold byteLen. simpl. lia. }
  rewrite C. f_equal. unfold byteLen. rewrite Nat2Z.id, <- app_assoc.
  now apply overwrite_middle.
Qed.

Lemma fill_step (n : nat) :
  forall (done rest : list byte) (offset : Z),
    offset = byteLen done ->
    fillSpaces n (done ++ repeat x00 n ++ rest) offset =
    ((done ++ repeat (byteOf 32) n) ++ rest, offset + Z.of_nat n).
Proof.
  induction n as [|n IH]; intros done rest offset ->.
  - simpl. now rewrite app_nil_r, Z.add_0_r.
  - cbn [fillSpaces repeat]. unfold byteLen at 1. rewrite Nat2Z.id.
    change (done ++ (x00 :: repeat x00 n) ++ rest)
      with (done ++ [x00] ++ repeat x00 n ++ rest).
    rewrite (overwrite_middle done [x00] _ [byteOf 32]) by reflexivity.
    rewrite (app_assoc done [byteOf 32]).
    rewrite (IH (done ++ [byteOf 32])) by (rewrite byteLen_app; reflexivity).
    rewrite <- !app_assoc. f_equal. unfold byteLen. simpl length. lia.
Qed.

Lemma fill_spaces_step (done rest : list byte) (n offset : Z) :
  0 <= n -> offset = byteLen done ->
  fillSpaces (Z.to_nat n) (done ++ zeros n ++ rest) offset =
  ((done ++ spaces n) ++ rest, offset + n).
Proof.
  intros Hn Ho. unfold zeros, spaces. rewrite fill_step by exact Ho.
  now rewrite Z2Nat.id.
Qed.

Section ContainerFacts.

Variable encodeJson : Gltf.t -> list byte.

Lemma glbLengthOf_layout (data : GltfData.t) :
  glbLengthOf encodeJson data = byteLen (containerLayout encodeJson data).
Proof.
  unfold glbLengthOf, containerLayout. cbv zeta.
  rewrite !byteLen_app, !byteLen_uint32, byteLen_spaces, byteLen_packBuffer
    by apply pad_nonneg.
  lia.
Qed.

Lemma createGlb_layout (data : GltfData.t) :
  glbLengthOf encodeJson data < 2 ^ 32 ->
  createGlb encodeJson data = Ok (containerLayout encodeJson data).
Proof.
  intros Hfit. unfold glbLengthOf in Hfit. cbv zeta in Hfit.
  unfold createGlb, containerLayout. cbv zeta.
  pose proof (byteLen_packBuffer data) as Hbin.
  set (B := packBuffer data) in *.
  set (bl := bufferLengthOf (lengthsOf data)) in *.
  set (J := encodeJson (gltfDocument data)) in *.
  pose proof (byteLen_nonneg J) as HJ. pose proof (pad_nonneg J) as Hp.
  pose proof (byteLen_nonneg B) as HB.
  set (jl := byteLen J) in *. set (jp := pad jl) in *.
  rewrite !byteLen_app, byteLen_spaces by exact Hp. fold jl jp. rewrite Hbin.
  replace (12 + (8 + (jl + jp)) + (8 + bl)) with (12 + 8 + jl + jp + 8 + bl) by lia.
  set (total := 12 + 8 + jl + jp + 8 + bl) in *.
  assert (Ha : alloc total =
    [] ++ zeros 4 ++ zeros 4 ++ zeros 4 ++ zeros 4 ++ zeros 4 ++ zeros jl ++ zeros jp
       ++ zeros 4 ++ zeros 4 ++ zeros bl ++ []).
  { rewrite app_nil_r. cbn [app]. rewrite alloc_zeros.
    rewrite <- !zeros_add by lia. f_equal. unfold total. lia. }
  rewrite Ha.
  rewrite write_step by (try reflexivity; lia). cbn [bind].
  rewrite write_step by (rewrite ?byteLen_app; try reflexivity; lia). cbn [bind].
  rewrite write_step by (rewrite ?byteLen_app; try reflexivity; lia). cbn [bind].
  rewrite write_step by (rewrite ?byteLen_app; try reflexivity; lia). cbn [bind].
  rewrite write_step by (rewrite ?byteLen_app; try reflexivity; lia). cbn [bind].
  rewrite <- Hbin at 1. fold jl.
  replace (zeros jl) with (zeros (byteLen J)) by reflexivity.
  rewrite copy_segment by (rewrite ?byteLen_app; reflexivity).
  rewrite fill_spaces_step
    by (try exact Hp; rewrite ?byteLen_app, ?byteLen_uint32; fold jl; reflexivity).
  rewrite write_step
    by (rewrite ?byteLen_app, ?byteLen_uint32, ?byteLen_spaces by exact Hp;
        fold jl; try reflexivity; lia).
  cbn [bind].
  rewrite write_step
    by (rewrite ?byteLen_app, ?byteLen_uint32, ?byteLen_spaces by exact Hp;
        fold jl; try reflexivity; lia).
  cbn [bind]. f_equal.
  replace (zeros bl) with (zeros (byteLen B)) by (now rewrite Hbin).
  rewrite copy_segment
    by (rewrite ?byteLen_app, ?byteLen_uint32, ?byteLen_spaces by exact Hp;
        fold jl; reflexivity).
  rewrite app_nil_r, <- !app_assoc. reflexivity.
Qed.

End ContainerFacts.

Lemma readUInt32LE_field (a c : list byte) (value offset : Z) :
  0 <= value < 2 ^ 32 -> offset = byteLen a ->
  readUInt32LE offset (a ++ uint32 value ++ c) = value.
Proof.
  intros Hv Ho. unfold readUInt32LE.
  rewrite (slice_middle a (uint32 value) c offset 4 Ho eq_refl).
  now apply fromLittleEndian_uint32.
Qed.

Section ContainerLength.

Variable encodeJson : Gltf.t -> list byte.

(** When the total length is not a 32-bit unsigned integer, writing it
    into the header raises and no container is returned. *)
Lemma createGlb_overflow (data : GltfData.t) :
  2 ^ 32 <= glbLengthOf encodeJson data ->
  createGlb encodeJson data = Throw RangeError.
Proof.
  intros Hbig. unfold glbLengthOf in Hbig. cbv zeta in Hbig.
  unfold createGlb. cbv zeta.
  set (total := 12 + 8 + _ + _ + 8 + _) in *.
  assert (Ha : alloc total = [] ++ zeros 4 ++ zeros 4 ++ zeros (total - 8)).
  { cbn [app]. rewrite alloc_zeros, <- !zeros_add by lia. f_equal. lia. }
  rewrite Ha.
  rewrite write_step by (try reflexivity; lia). cbn [bind].
  rewrite write_step by (rewrite ?byteLen_app; try reflexivity; lia). cbn [bind].
  unfold writeUInt32LE at 1.
  replace (total <? 2 ^ 32) with false by (symmetry; apply Z.ltb_ge; lia).
  rewrite andb_false_r. reflexivity.
Qed.

Lemma createGlb_inv (data : GltfData.t) (glb : list byte) :
  createGlb encodeJson data = Ok glb ->
  glbLengthOf encodeJson data < 2 ^ 32 /\ glb = containerLayout encodeJson data.
Proof.
  intros H.
  destruct (Z_lt_le_dec (glbLengthOf encodeJson data) (2 ^ 32)) as [Hfit | Hbig].
  - rewrite (createGlb_layout encodeJson data Hfit) in H. split; congruence.
  - rewrite (createGlb_overflow data Hbig) in H. discriminate.
Qed.

Lemma containerLayout_fields (data : GltfData.t) :
  let glb := containerLayout encodeJson data in
  let gltfBytes := encodeJson (gltfDocument data) in
  let jsonPayload := gltfBytes ++ spaces (pad (byteLen gltfBytes)) in
  byteLen glb < 2 ^ 32 ->
  readUInt32LE 0 glb = 0x46546C67 /\
  readUInt32LE 4 glb = 2 /\
  readUInt32LE 8 glb = byteLen glb /\
  byteLen glb = 12 + (8 + byteLen jsonPayload) + (8 + byteLen (packBuffer data)) /\
  byteLen jsonPayload mod 4 = 0.
Proof.
  cbv zeta. intros Hfit.
  assert (Hlen : byteLen (containerLayout encodeJson data) =
    12 + (8 + byteLen (encodeJson (gltfDocument data) ++
                       spaces (pad (byteLen (encodeJson (gltfDocument data))))))
    + (8 + byteLen (packBuffer data))).
  { unfold containerLayout. cbv zeta. rewrite !byteLen_app, !byteLen_uint32. lia. }
  rewrite Hlen in *.
  pose proof (byteLen_nonneg (packBuffer data)) as HB.
  pose proof (byteLen_nonneg (encodeJson (gltfDocument data) ++
                spaces (pad (byteLen (encodeJson (gltfDocument data)))))) as HJ.
  unfold containerLayout. cbv zeta. rewrite <- !app_assoc.
  split; [|split; [|split; [|split]]].
  - apply (readUInt32LE_field []); [lia | reflexivity].
  - apply (readUInt32LE_field (uint32 _)); [lia | reflexivity].
  - rewrite (app_assoc (uint32 _) (uint32 2)).
    apply readUInt32LE_field; [lia | reflexivity].
  - reflexivity.
  - rewrite byteLen_app, byteLen_spaces by apply pad_nonneg.
    apply pad_spec, byteLen_nonneg.
Qed.

(** C6. Whenever [createGlb] returns a container for a converted document,
    it is the 12-byte header (the magic constant, version 2, the total
    length), the JSON chunk (length, the tag "JSON", the JSON bytes padded
    with spaces to a multiple of 4) and the binary chunk (length, the tag
    "BIN", the packed buffer); the length field of the header reads the
    exact byte length of the container, which is 12 + 8 + padded JSON length
    + 8 + buffer length.  A container is returned whenever that length is a
    32-bit unsigned integer. *)
Theorem container_length (modelData : ModelData.t) (fileName : string) :
  exists data,
    convertThreeJsJsonToGltf modelData fileName = Some data /\
    (glbLengthOf encodeJson data < 2 ^ 32 -> exists glb, createGlb encodeJson data = Ok glb) /\
    forall glb, createGlb encodeJson data = Ok glb ->
      let gltfBytes := encodeJson (gltfDocument data) in
      let jsonPayload := gltfBytes ++ spaces (pad (byteLen gltfBytes)) in
      let binBuffer := packBuffer data in
      glb = (uint32 0x46546C67 ++ uint32 2 ++ uint32 (byteLen glb))
            ++ (uint32 (byteLen jsonPayload) ++ uint32 0x4E4F534A ++ jsonPayload)
            ++ (uint32 (byteLen binBuffer) ++ uint32 0x004E4942 ++ binBuffer) /\
      readUInt32LE 0 glb = 0x46546C67 /\
      readUInt32LE 4 glb = 2 /\
      readUInt32LE 8 glb = byteLen glb /\
      byteLen glb = 12 + (8 + byteLen jsonPayload) + (8 + byteLen binBuffer) /\
      byteLen jsonPayload mod 4 = 0.
Proof.
  destruct (convert_total modelData fileName) as [data Hc].
  exists data. split; [exact Hc|]. split.
  - intros Hfit. eexists. now apply createGlb_layout.
  - intros glb Hglb. apply createGlb_inv in Hglb as [Hfit ->].
    rewrite glbLengthOf_layout in Hfit.
    pose proof (containerLayout_fields data Hfit) as F. cbv zeta in F |- *.
    destruct F as (F0 & F4 & F8 & FL & FJ).
    split; [|now repeat split].
    rewrite FL. reflexivity.
Qed.

End ContainerLength.

Lemma container_length_witness :
  exists data glb,
    convertThreeJsJsonToGltf roundTripDocument "triangle.js" = Some data /\
    createGlb sampleJson data = Ok glb /\
    readUInt32LE 0 glb = 0x46546C67 /\
    readUInt32LE 4 glb = 2 /\
    readUInt32LE 8 glb = byteLen glb /\
    byteLen glb = 136.
Proof.
  destruct (container_length sampleJson roundTripDocument "triangle.js")
    as (data & Hc & Hok & Hall).
  assert (Hfit : glbLengthOf sampleJson data < 2 ^ 32).
  { vm_compute in Hc. injection Hc as <-. vm_compute. reflexivity. }
  destruct (Hok Hfit) as [glb Hglb].
  destruct (Hall glb Hglb) as (Hl & H0 & H4 & H8 & Hlen & _).
  exists data, glb. repeat split; try assumption.
  rewrite Hlen. vm_compute in Hc. injection Hc as <-. vm_compute. reflexivity.
Defined.

(** ** Truncated streams and stray indices *)

Lemma readFile_written (dir : OutputDir) (path : string) (bytes : list byte) :
  readFile (writeFileSync dir path bytes) path = Some bytes.
Proof. simpl. now rewrite String.eqb_refl. Qed.

Example truncatedQuad_ends_mid_record : truncated truncatedQuad = true.
Proof. reflexivity. Qed.

Example roundTrip_is_complete : truncated roundTripDocument = false.
Proof. reflexivity. Qed.

Lemma readIndices_defined (n : nat) :
  forall s : Stream, (n <= length s)%nat -> allDefined (fst (readIndices n s)).
Proof.
  induction n as [|n IH]; intros s H; [constructor|].
  destruct s as [|x s]; simpl in H; [lia|].
  simpl. specialize (IH s ltac:(lia)).
  destruct (readIndices n s) as [xs s2]. simpl in *.
  constructor; [discriminate | exact IH].
Qed.

Lemma condRead_defined (b : bool) (n : nat) (s : Stream) :
  ((if b then n else 0) <= length s)%nat ->
  allDefined (fst (if b then readIndices n s else ([], s))).
Proof. destruct b; intros H; [now apply readIndices_defined | constructor]. Qed.

(** A record that lies inside the stream is read without reaching its end. *)
Lemma readFace_defined (faceType : Z) (s : Stream) :
  (recordLength faceType <= length s)%nat -> faceDefined (fst (readFace faceType s)).
Proof.
  unfold readFace, faceDefined. intros H.
  set (fl := decodeFlags faceType). set (n := numVertices fl).
  destruct (readIndices n s) as [vis s1] eqn:E1.
  assert (H1 : s1 = skipn n s) by (now rewrite <- (readIndices_skipn n s), E1).
  destruct (if hasFaceVertexUv fl then _ else _) as [uis s4] eqn:E2.
  pose proof (f_equal snd E2) as H2. rewrite condRead_skipn in H2.
  destruct (if hasFaceVertexNormal fl then _ else _) as [nis s6] eqn:E3.
  cbn [fst snd vertexIndices faceUvIndices faceNormalIndices] in *.
  unfold recordLength in H. fold fl in H. fold n in H. cbv zeta in H.
  split; [|split].
  - change vis with (fst (vis, s1)). rewrite <- E1. apply readIndices_defined.
    lia.
  - change uis with (fst (uis, s4)). rewrite <- E2. apply condRead_defined.
    rewrite H1, !skipIf_skipn, !length_skipn.
    destruct (hasMaterial fl), (hasFaceUv fl), (hasFaceVertexUv fl); lia.
  - change nis with (fst (nis, s6)). rewrite <- E3. apply condRead_defined.
    rewrite <- H2, H1, !skipIf_skipn, !length_skipn.
    destruct (hasMaterial fl), (hasFaceUv fl), (hasFaceVertexUv fl), (hasFaceNormal fl),
      (hasFaceVertexNormal fl); lia.
Qed.

(** On a stream that does not end inside a record, every index of every
    decoded face is an integer of the stream. *)
Lemma complete_stream_defined (fuel : nat) :
  forall s : Stream,
    endsMidRecord fuel s = false ->
    forall f, In f (decodeFaces fuel s) -> faceDefined f.
Proof.
  induction fuel as [|fuel IH]; intros [|faceType s1] H f Hin; simpl in *; try contradiction.
  destruct (length s1 <? recordLength faceType)%nat eqn:E; [discriminate|].
  apply Nat.ltb_ge in E.
  pose proof (readFace_defined faceType s1 E) as D.
  pose proof (readFace_advance faceType s1) as A.
  destruct (readFace faceType s1) as [g s2]. simpl in *. subst s2.
  destruct Hin as [<- | Hin]; [exact D | now apply (IH _ H)].
Qed.

Lemma complete_document_defined (modelData : ModelData.t) :
  truncated modelData = false ->
  forall f, In f (facesOf modelData) -> faceDefined f.
Proof. unfold truncated, facesOf. apply complete_stream_defined. Qed.

(** C3, as the code has it.  A face stream that ends inside a record does
    not make the conversion fail: the integers the stream lacks read as
    undefined, which gives a corner the position NaN, the default normal or
    the default UV; the face loop ends, and the container is written under
    the output name, as for any other document whose container length fits
    the 32-bit length field. *)
Theorem truncated_stream_converts (encodeJson : Gltf.t -> list byte)
    (dir : OutputDir) (file : string) (modelData : ModelData.t) :
  truncated modelData = true ->
  containerFits encodeJson modelData file ->
  (exists data glb,
     convertThreeJsJsonToGltf modelData file = Some data /\
     createGlb encodeJson data = Ok glb /\
     convertFile encodeJson dir file (Ok modelData) =
       Some (writeFileSync dir (replace ".js" ".glb" file) glb, Converted) /\
     readFile (writeFileSync dir (replace ".js" ".glb" file) glb)
       (replace ".js" ".glb" file) = Some glb) /\
  forall (f : FaceRecord) (v : nat),
    In f (facesOf modelData) ->
    (at_ (vertexIndices f) v = None ->
     cornerPosition (scaleOf modelData) (orEmpty (ModelData.vertices modelData)) f v
     = [nan; nan; nan]) /\
    (at_ (faceNormalIndices f) v = None ->
     cornerNormal (orEmpty (ModelData.normals modelData)) f v = [0; 1; 0]%float) /\
    (at_ (faceUvIndices f) v = None ->
     cornerUv (uvsOf modelData) f v = [0; 0]%float).
Proof.
  intros _ Hfit. unfold containerFits in Hfit.
  destruct (convert_total modelData file) as [data Hc]. rewrite Hc in Hfit.
  split.
  - exists data, (containerLayout encodeJson data).
    pose proof (createGlb_layout encodeJson data Hfit) as Hglb.
    split; [exact Hc|]. split; [exact Hglb|]. split.
    + unfold convertFile. now rewrite Hc, Hglb.
    + apply readFile_written.
  - intros f v _. split; [|split].
    + apply cornerPosition_undefined.
    + apply cornerNormal_undefined.
    + apply cornerUv_undefined.
Qed.

Lemma truncated_stream_converts_witness :
  (exists data glb,
     convertThreeJsJsonToGltf truncatedQuad "quad.js" = Some data /\
     createGlb sampleJson data = Ok glb /\
     convertFile sampleJson [] "quad.js" (Ok truncatedQuad) =
       Some (writeFileSync [] (replace ".js" ".glb" "quad.js") glb, Converted) /\
     readFile (writeFileSync [] (replace ".js" ".glb" "quad.js") glb)
       (replace ".js" ".glb" "quad.js") = Some glb) /\
  expand truncatedQuad =
    Some {| positions := [0; 0; 0; 1; 0; 0; nan; nan; nan; nan; nan; nan]%float;
            normalData := [0; 1; 0; 0; 1; 0; 0; 1; 0; 0; 1; 0]%float;
            uvData := [0; 0; 0; 0; 0; 0; 0; 0]%float;
            indices := [0; 1; 2; 0; 2; 3] |}.
Proof.
  destruct (truncated_stream_converts sampleJson [] "quad.js" truncatedQuad) as [H _].
  - vm_compute. reflexivity.
  - vm_compute. reflexivity.
  - split; [exact H | vm_compute; reflexivity].
Defined.

(** C3, as stated, fails: the face type 1 declares a quad, two integers
    follow, and the file is converted and written. *)
Lemma truncated_stream_counterexample :
  ~ (forall (encodeJson : Gltf.t -> list byte) (dir : OutputDir) (file : string)
            (modelData : ModelData.t),
       truncated modelData = true ->
       exists e, convertFile encodeJson dir file (Ok modelData) = Some (dir, Failed e)).
Proof.
  intros H.
  destruct (H sampleJson [] "quad.js"%string truncatedQuad) as [e He].
  - vm_compute. reflexivity.
  - vm_compute in He. discriminate He.
Qed.

(** C10. The face loop checks no index against the document arrays, and it
    ends with a result on every face stream, complete or not.  Its output
    is what the decoded faces push, corner by corner; at a corner of a
    decoded face a per-vertex normal index outside the normal array gives
    the components 0, 0, 0, a UV index outside the UV array the components
    0, 0, and a vertex index outside the vertex array NaN positions. *)
Theorem no_bounds_checking (modelData : ModelData.t) :
  let scaleV := scaleOf modelData in
  let verticesV := orEmpty (ModelData.vertices modelData) in
  let normalsV := orEmpty (ModelData.normals modelData) in
  let uvsV := uvsOf modelData in
  expand modelData =
    Some (emitAll scaleV verticesV normalsV uvsV (facesOf modelData) 0) /\
  forall (f : FaceRecord) (v : nat),
    In f (facesOf modelData) ->
    (forall n, hasFaceVertexNormal (flags f) = true ->
               at_ (faceNormalIndices f) v = Some n ->
               outOfRange 3 normalsV n ->
               cornerNormal normalsV f v = [0; 0; 0]%float) /\
    (forall u, hasFaceVertexUv (flags f) = true ->
               at_ (faceUvIndices f) v = Some u ->
               outOfRange 2 uvsV u ->
               cornerUv uvsV f v = [0; 0]%float) /\
    (forall k, at_ (vertexIndices f) v = Some k ->
               outOfRange 3 verticesV k ->
               cornerPosition scaleV verticesV f v = [nan; nan; nan]).
Proof.
  cbv zeta. split; [apply expand_emitAll|].
  intros f v _. split; [|split].
  - intros n. apply cornerNormal_outOfRange.
  - intros u. apply cornerUv_outOfRange.
  - intros k. apply cornerPosition_outOfRange.
Qed.

Lemma no_bounds_checking_witness :
  facesOf strayDocument = [strayFace] /\
  expand strayDocument =
    Some {| positions := [1; 2; 3; 1; 2; 3; nan; nan; nan]%float;
            normalData := [0; 0; 1; 0; 0; 0; 0; 0; 1]%float;
            uvData := [0.5; 0.25; 0; 0; 0; 0]%float;
            indices := [0; 1; 2] |} /\
  cornerNormal [0; 0; 1]%float strayFace 1 = [0; 0; 0]%float /\
  cornerUv [0.5; 0.25]%float strayFace 2 = [0; 0]%float /\
  cornerPosition 1 [1; 2; 3]%float strayFace 2 = [nan; nan; nan].
Proof.
  destruct (no_bounds_checking strayDocument) as [He Hc].
  assert (Hf : facesOf strayDocument = [strayFace]) by (vm_compute; reflexivity).
  split; [exact Hf|]. split; [rewrite He; vm_compute; reflexivity|].
  assert (Hin : In strayFace (facesOf strayDocument)) by (rewrite Hf; now left).
  split; [|split].
  - destruct (Hc strayFace 1%nat Hin) as (Hn & _ & _).
    apply (Hn 7); [reflexivity | reflexivity | right; simpl; lia].
  - destruct (Hc strayFace 2%nat Hin) as (_ & Hu & _).
    apply (Hu 5); [reflexivity | reflexivity | right; simpl; lia].
  - destruct (Hc strayFace 2%nat Hin) as (_ & _ & Hk).
    apply (Hk 9); [reflexivity | right; simpl; lia].
Defined.

(** * Further properties *)

(** ** The face decoder *)

Lemma condRead_length (b : bool) (n : nat) (s : Stream) :
  length (fst (if b then readIndices n s else ([], s))) = (if b then n else 0%nat).
Proof. destruct b; [apply readIndices_length | reflexivity]. Qed.

(** X1. One iteration of the face loop, after it has read the face type,
    advances the cursor by exactly the number of integers the flags of the
    face type declare, whichever optional fields are present (between 3 and
    20, the cursor stopping at the end of the stream), and fills the vertex
    index list with 3 or 4 entries and the UV and normal index lists with
    as many entries when their flag is set and none otherwise. *)
Theorem decoder_consumes_record (faceType : Z) (s : Stream) :
  let f := fst (readFace faceType s) in
  snd (readFace faceType s) = skipn (recordLength faceType) s /\
  flags f = decodeFlags faceType /\
  length (vertexIndices f) = numVertices (flags f) /\
  length (faceUvIndices f) =
    (if hasFaceVertexUv (flags f) then numVertices (flags f) else 0%nat) /\
  length (faceNormalIndices f) =
    (if hasFaceVertexNormal (flags f) then numVertices (flags f) else 0%nat) /\
  (3 <= recordLength faceType <= 20)%nat.
Proof.
  cbv zeta. split; [apply readFace_advance|].
  unfold readFace.
  set (fl := decodeFlags faceType). set (n := numVertices fl).
  destruct (readIndices n s) as [vis s1] eqn:E1.
  destruct (if hasFaceVertexUv fl then _ else _) as [uis s4] eqn:E2.
  destruct (if hasFaceVertexNormal fl then _ else _) as [nis s6] eqn:E3.
  cbn [fst snd flags vertexIndices faceUvIndices faceNormalIndices].
  split; [reflexivity|].
  split; [change vis with (fst (vis, s1)); rewrite <- E1; apply readIndices_length|].
  split; [change uis with (fst (uis, s4)); rewrite <- E2; apply condRead_length|].
  split; [change nis with (fst (nis, s6)); rewrite <- E3; apply condRead_length|].
  unfold recordLength. fold fl. fold n. cbv zeta. unfold n, numVertices.
  destruct (isQuad fl), (hasMaterial fl), (hasFaceUv fl), (hasFaceVertexUv fl),
    (hasFaceNormal fl), (hasFaceVertexNormal fl), (hasFaceColor fl),
    (hasFaceVertexColor fl); simpl; lia.
Qed.

(** ** Buffers of a converted document *)

(** X2. The three attribute arrays of every converted document have one
    entry per corner (3 per triangle face, 4 per quad face): 3, 3 and 2
    numbers per corner, so the accessor counts divide exactly and the
    position, normal and UV accessors all count the corners, while the index
    accessor counts three indices per triangle. *)
Theorem attribute_counts (modelData : ModelData.t) (fileName : string) :
  exists gltf,
    convertThreeJsJsonToGltf modelData fileName = Some gltf /\
    arrayLength (GltfData.positions gltf) = 3 * numCorners (facesOf modelData) /\
    arrayLength (GltfData.normals gltf) = 3 * numCorners (facesOf modelData) /\
    arrayLength (GltfData.uvs gltf) = 2 * numCorners (facesOf modelData) /\
    arrayLength (GltfData.indices gltf) = 3 * numTriangles (facesOf modelData) /\
    map Gltf.count (Gltf.accessors (gltfDocument gltf)) =
      [ numCorners (facesOf modelData); numCorners (facesOf modelData);
        numCorners (facesOf modelData); 3 * numTriangles (facesOf modelData) ] /\
    numCorners (facesOf modelData) <= 3 * numTriangles (facesOf modelData).
Proof.
  destruct (accessor_counts modelData fileName) as (gltf & Hc & Hp & Hn & Hu & Hm).
  exists gltf. repeat (split; [assumption|]).
  split; [|split; [exact Hm | apply numCorners_le]].
  cbn [gltfDocument Gltf.accessors map Gltf.count] in Hm. congruence.
Qed.

Lemma fanIndices_cover (fs : list FaceRecord) :
  forall c0 c, c0 <= c < c0 + numCorners fs -> In c (fanIndices fs c0).
Proof.
  induction fs as [|f fs IH]; intros c0 c H.
  - change (numCorners []) with 0 in H. lia.
  - rewrite numCorners_cons in H. cbn [fanIndices]. apply in_or_app.
    destruct (Z_lt_le_dec c (c0 + cornersOf f)) as [Hl | Hr].
    + left. unfold faceTriangles.
      destruct (face_counts f) as [(E & Hq & _) | (E & Hq & _)];
        rewrite E; rewrite Hq in Hl; simpl.
      * assert (C : c = c0 \/ c = c0 + 1 \/ c = c0 + 2 \/ c = c0 + 3) by lia.
        destruct C as [-> | [-> | [-> | ->]]]; tauto.
      * assert (C : c = c0 \/ c = c0 + 1 \/ c = c0 + 2) by lia.
        destruct C as [-> | [-> | ->]]; tauto.
    + right. apply IH. lia.
Qed.

(** X3. The index array of a converted document designates corners of the
    document and all of them: every stored index is at least 0 and below
    the count of the position accessor, and every corner number below that
    count is stored at least once (the typed array holding the numbers
    unchanged as long as there are fewer than 2^32 indices). *)
Theorem indices_reference_corners (modelData : ModelData.t) (fileName : string) :
  3 * numTriangles (facesOf modelData) < 2 ^ 32 ->
  exists gltf,
    convertThreeJsJsonToGltf modelData fileName = Some gltf /\
    nth_error (map Gltf.count (Gltf.accessors (gltfDocument gltf))) 0 =
      Some (numCorners (facesOf modelData)) /\
    (forall i, In i (elements (GltfData.indices gltf)) ->
               0 <= i < numCorners (facesOf modelData)) /\
    (forall c, 0 <= c < numCorners (facesOf modelData) ->
               In c (elements (GltfData.indices gltf))).
Proof.
  intros Hb.
  destruct (accessor_counts modelData fileName) as (gltf & Hc & _ & _ & _ & Hm).
  destruct (convert_indices modelData fileName) as (g & Hg & Hi).
  assert (E : g = gltf) by congruence. subst g.
  exists gltf. split; [exact Hc|]. split; [now rewrite Hm|].
  assert (He : elements (GltfData.indices gltf) = fanIndices (facesOf modelData) 0).
  { rewrite Hi. cbv zeta.
    pose proof (numCorners_le (facesOf modelData)) as Hle.
    destruct (3 * numTriangles (facesOf modelData) <? 65536) eqn:E.
    - apply newUint16Array_exact. intros i Hin.
      apply fanIndices_range in Hin. apply Z.ltb_lt in E. lia.
    - apply newUint32Array_exact. intros i Hin.
      apply fanIndices_range in Hin. lia. }
  rewrite He. split.
  - intros i Hin. apply fanIndices_range in Hin. lia.
  - intros c Hc'. apply fanIndices_cover. lia.
Qed.

Lemma indices_reference_corners_witness :
  exists gltf,
    convertThreeJsJsonToGltf (quadsDocument 2) "quads.js" = Some gltf /\
    nth_error (map Gltf.count (Gltf.accessors (gltfDocument gltf))) 0 =
      Some (numCorners (facesOf (quadsDocument 2))) /\
    (forall i, In i (elements (GltfData.indices gltf)) ->
               0 <= i < numCorners (facesOf (quadsDocument 2))) /\
    (forall c, 0 <= c < numCorners (facesOf (quadsDocument 2)) ->
               In c (elements (GltfData.indices gltf))).
Proof.
  apply (indices_reference_corners (quadsDocument 2) "quads.js").
  vm_compute. reflexivity.
Defined.

(** X4. A document with no faces (an empty or absent [faces] array) is
    converted all the same: the four arrays are empty, the index array is
    16-bit, every accessor counts 0, the binary buffer is empty, and the
    recorded bounding box is still the pair of sentinels, min +infinity and
    max -infinity on every axis. *)
Theorem empty_document (modelData : ModelData.t) (fileName : string) :
  orEmpty (ModelData.faces modelData) = [] ->
  exists gltf,
    convertThreeJsJsonToGltf modelData fileName = Some gltf /\
    elements (GltfData.positions gltf) = [] /\
    elements (GltfData.normals gltf) = [] /\
    elements (GltfData.uvs gltf) = [] /\
    GltfData.indices gltf = {| arrayType := Uint16Array; elements := [] |} /\
    map Gltf.count (Gltf.accessors (gltfDocument gltf)) = [0; 0; 0; 0] /\
    accessorBounds gltf =
      Some ((infinity, infinity, infinity), (neg_infinity, neg_infinity, neg_infinity)) /\
    packBuffer gltf = [] /\
    Gltf.buffers (gltfDocument gltf) = [ {| Gltf.bufferByteLength := 0 |} ].
Proof.
  intros H. unfold convertThreeJsJsonToGltf, expand. rewrite H. simpl.
  eexists. split; [reflexivity|]. repeat split.
Qed.

Lemma empty_document_witness :
  exists gltf,
    convertThreeJsJsonToGltf noFaces "empty.js" = Some gltf /\
    elements (GltfData.positions gltf) = [] /\
    elements (GltfData.normals gltf) = [] /\
    elements (GltfData.uvs gltf) = [] /\
    GltfData.indices gltf = {| arrayType := Uint16Array; elements := [] |} /\
    map Gltf.count (Gltf.accessors (gltfDocument gltf)) = [0; 0; 0; 0] /\
    accessorBounds gltf =
      Some ((infinity, infinity, infinity), (neg_infinity, neg_infinity, neg_infinity)) /\
    packBuffer gltf = [] /\
    Gltf.buffers (gltfDocument gltf) = [ {| Gltf.bufferByteLength := 0 |} ].
Proof. apply (empty_document noFaces "empty.js"). reflexivity. Defined.

Lemma byteLen_arrayBytes (a : TypedArray) :
  byteLen (arrayBytes a) = Z.of_nat (bytesPerElement (arrayType a)) * arrayLength a.
Proof.
  unfold byteLen, arrayBytes, arrayLength.
  rewrite flat_map_constant_length with (c := bytesPerElement (arrayType a)).
  - lia.
  - intros z _. apply littleEndian_length.
Qed.

Lemma pad_multiple (k : Z) : 0 <= k -> pad (4 * k) = 0.
Proof.
  intros H. unfold pad. rewrite (Z.rem_mod_nonneg (4 * k) 4) by lia.
  rewrite Z.mul_comm, Z.mod_mul by lia. reflexivity.
Qed.

Lemma pad_six (t : Z) : 0 <= t -> pad (6 * t) = 2 * (t mod 2).
Proof.
  intros H. unfold pad. rewrite (Z.rem_mod_nonneg (6 * t) 4) by lia.
  pose proof (Z.div_mod t 2 ltac:(lia)) as Hd.
  pose proof (Z.mod_pos_bound t 2 ltac:(lia)) as Hb.
  assert (Hr : t mod 2 = 0 \/ t mod 2 = 1) by lia.
  destruct Hr as [Hr | Hr]; rewrite Hr in *.
  - replace (6 * t) with ((3 * (t / 2)) * 4) by lia.
    rewrite Z.mod_mul by lia. reflexivity.
  - replace (6 * t) with (2 + (3 * (t / 2) + 1) * 4) by lia.
    rewrite Z.mod_add by lia. reflexivity.
Qed.

Lemma numTriangles_nonneg (fs : list FaceRecord) : 0 <= numTriangles fs.
Proof.
  induction fs as [|f fs IH]; [now vm_compute|].
  rewrite numTriangles_cons.
  destruct (face_counts f) as [(_ & _ & E) | (_ & _ & E)]; lia.
Qed.

(** X5. The size of the binary buffer follows from the face counts alone:
    with n corners and T triangles each corner takes 12 + 12 + 8 bytes
    (position, normal, UV as 32-bit floats) and each triangle three indices,
    of 2 bytes each while there are fewer than 65536 indices and of 4 bytes
    otherwise.  Only a 16-bit index segment with an odd number of triangles
    is padded, by 2 bytes; the three attribute segments never are. *)
Theorem buffer_size (modelData : ModelData.t) (fileName : string) :
  let n := numCorners (facesOf modelData) in
  let T := numTriangles (facesOf modelData) in
  exists gltf,
    convertThreeJsJsonToGltf modelData fileName = Some gltf /\
    map Gltf.byteLength (Gltf.bufferViews (gltfDocument gltf)) =
      [ 12 * n; 12 * n; 8 * n; if 3 * T <? 65536 then 6 * T else 12 * T ] /\
    map Gltf.byteOffset (Gltf.bufferViews (gltfDocument gltf)) =
      [ 0; 12 * n; 24 * n; 32 * n ] /\
    byteLen (packBuffer gltf) =
      32 * n + (if 3 * T <? 65536 then 6 * T + 2 * (T mod 2) else 12 * T).
Proof.
  cbv zeta.
  destruct (accessor_counts modelData fileName) as (gltf & Hc & Hp & Hn & Hu & _).
  destruct (convert_indices modelData fileName) as (g & Hg & Hi).
  assert (E : g = gltf) by congruence. subst g. cbv zeta in Hi.
  pose proof (numCorners_nonneg (facesOf modelData)) as Hn0.
  pose proof (numTriangles_nonneg (facesOf modelData)) as Ht0.
  set (n := numCorners (facesOf modelData)) in *.
  set (T := numTriangles (facesOf modelData)) in *.
  assert (HP : byteLen (arrayBytes (GltfData.positions gltf)) = 4 * (3 * n)).
  { rewrite byteLen_arrayBytes, Hp.
    unfold convertThreeJsJsonToGltf in Hc.
    destruct (expand modelData); [|discriminate].
    injection Hc as <-. reflexivity. }
  assert (HN : byteLen (arrayBytes (GltfData.normals gltf)) = 4 * (3 * n)).
  { rewrite byteLen_arrayBytes, Hn.
    unfold convertThreeJsJsonToGltf in Hc.
    destruct (expand modelData); [|discriminate].
    injection Hc as <-. reflexivity. }
  assert (HU : byteLen (arrayBytes (GltfData.uvs gltf)) = 4 * (2 * n)).
  { rewrite byteLen_arrayBytes, Hu.
    unfold convertThreeJsJsonToGltf in Hc.
    destruct (expand modelData); [|discriminate].
    injection Hc as <-. reflexivity. }
  assert (HI : byteLen (arrayBytes (GltfData.indices gltf)) =
               if 3 * T <? 65536 then 6 * T else 4 * (3 * T)).
  { rewrite byteLen_arrayBytes, Hi.
    destruct (3 * T <? 65536); unfold arrayLength, newUint16Array, newUint32Array;
      cbn [arrayType elements bytesPerElement]; rewrite length_map, fanIndices_length;
      fold T; lia. }
  exists gltf. split; [exact Hc|].
  rewrite byteLen_packBuffer.
  unfold gltfDocument, bufferLengthOf, lengthsOf.
  cbn [Gltf.bufferViews map Gltf.byteLength Gltf.byteOffset posLen normLen uvLen idxLen].
  rewrite HP, HN, HU, HI.
  rewrite !pad_multiple by lia.
  destruct (3 * T <? 65536).
  - rewrite pad_six by lia.
    repeat split;
      repeat match goal with |- @eq Z _ _ => lia | |- _ => f_equal end.
  - rewrite pad_multiple by lia.
    repeat split;
      repeat match goal with |- @eq Z _ _ => lia | |- _ => f_equal end.
Qed.

(** ** Positions of a well-formed document *)

Lemma shr_1_nonneg (mrs : shr_record) : 0 <= shr_m mrs -> 0 <= shr_m (shr_1 mrs).
Proof.
  destruct mrs as [m r s]. cbn [shr_m]. intros H.
  destruct m as [|[p|p|]|p]; cbn; lia.
Qed.

Lemma iter_pos_shr_1_nonneg (p : positive) :
  forall mrs, 0 <= shr_m mrs -> 0 <= shr_m (SpecFloat.iter_pos shr_1 p mrs).
Proof.
  induction p as [p IH|p IH|]; intros mrs H; cbn [SpecFloat.iter_pos].
  - apply IH, IH, shr_1_nonneg, H.
  - apply IH, IH, H.
  - apply shr_1_nonneg, H.
Qed.

Lemma shr_fexp_nonneg (prec emax m e : Z) (l : location) :
  0 <= m -> 0 <= shr_m (fst (shr_fexp prec emax m e l)).
Proof.
  intros H. unfold shr_fexp, shr.
  assert (H0 : 0 <= shr_m (shr_record_of_loc m l)) by (destruct l as [|[]]; exact H).
  destruct (fexp prec emax (Zdigits2 m + e) - e); cbn [fst]; auto.
  now apply iter_pos_shr_1_nonneg.
Qed.

Lemma round_nearest_even_nonneg (m : Z) (l : location) :
  0 <= m -> 0 <= round_nearest_even m l.
Proof.
  intros H. unfold round_nearest_even.
  destruct l as [|[]]; try destruct (IntDef.Z.even m); lia.
Qed.

(** Rounding a non-negative significand gives a zero, a finite number or an
    infinity. *)
Lemma binary_round_aux_number (prec emax : Z) (s : bool) (m e : Z) (l : location) :
  0 <= m -> binary_round_aux prec emax s m e l <> S754_nan.
Proof.
  intros H. unfold binary_round_aux.
  pose proof (shr_fexp_nonneg prec emax m e l H) as H1.
  destruct (shr_fexp prec emax m e l) as [mrs' e']. cbn [fst] in H1.
  pose proof (shr_fexp_nonneg prec emax _ e' loc_Exact
                (round_nearest_even_nonneg _ (loc_of_shr_record mrs') H1)) as H2.
  destruct (shr_fexp prec emax (round_nearest_even _ _) e' loc_Exact) as [mrs'' e''].
  cbn [fst] in H2.
  destruct (shr_m mrs'') as [|p|p]; [discriminate | | lia].
  destruct (e'' <=? _); discriminate.
Qed.

(** A product is [NaN] only if a factor is, or if the factors are a zero
    and an infinity. *)
Lemma mul_number (x k : float) :
  notNaN x -> Js.truthy k = true -> is_infinity k = false -> notNaN (x * k)%float.
Proof.
  intros Hx Hk Hi. apply notNaN_spec. apply notNaN_spec in Hx.
  rewrite mul_spec. unfold SF64mul.
  unfold Js.truthy, is_zero, is_nan, is_infinity in *.
  rewrite !eqb_spec, ?abs_spec in *.
  destruct (Prim2SF k) as [sk|sk| |sk mk ek].
  - exfalso. destruct sk; vm_compute in Hk; discriminate.
  - exfalso. destruct sk; vm_compute in Hi; discriminate.
  - exfalso. vm_compute in Hk. discriminate.
  - destruct (Prim2SF x) as [sx|sx| |sx mx ex]; cbn [SFmul];
      try discriminate; try congruence.
    apply binary_round_aux_number. lia.
Qed.

Lemma scaleOf_truthy (modelData : ModelData.t) : Js.truthy (scaleOf modelData) = true.
Proof.
  unfold scaleOf, Js.orElse.
  destruct (ModelData.scale modelData) as [x|]; [|reflexivity].
  destruct (Js.truthy x) eqn:E; [exact E | reflexivity].
Qed.

Lemma get_inRange (verticesV : list float) (k j : Z) :
  vertexInRange verticesV (Some k) = true -> 0 <= j <= 2 ->
  exists x, Js.get verticesV (Js.iadd (Js.imul (Some k) 3) j) = Some x /\ In x verticesV.
Proof.
  unfold vertexInRange. intros H Hj.
  apply andb_prop in H as [H0 H1]. apply Z.leb_le in H0. apply Z.ltb_lt in H1.
  cbn [Js.imul Js.iadd option_map Js.get].
  destruct (k * 3 + j <? 0) eqn:E; [apply Z.ltb_lt in E; lia|].
  destruct (nth_error verticesV (Z.to_nat (k * 3 + j))) as [x|] eqn:En.
  - exists x. split; [reflexivity|]. eapply nth_error_In, En.
  - apply nth_error_None in En. lia.
Qed.

Lemma cornerPosition_number (scaleV : float) (verticesV : list float)
    (f : FaceRecord) (v : nat) :
  Js.truthy scaleV = true -> is_infinity scaleV = false ->
  Forall notNaN verticesV ->
  forallb (vertexInRange verticesV) (vertexIndices f) = true ->
  (v < length (vertexIndices f))%nat ->
  Forall notNaN (cornerPosition scaleV verticesV f v).
Proof.
  intros Hk Hi Hv Hf Hlt. unfold cornerPosition, at_. cbv zeta.
  destruct (nth_error (vertexIndices f) v) as [i|] eqn:E;
    [|apply nth_error_None in E; lia].
  rewrite forallb_forall in Hf. specialize (Hf i (nth_error_In _ _ E)).
  destruct i as [k|]; [|discriminate].
  rewrite Forall_forall in Hv.
  destruct (get_inRange verticesV k 0 Hf ltac:(lia)) as (x0 & E0 & I0).
  destruct (get_inRange verticesV k 1 Hf ltac:(lia)) as (x1 & E1 & I1).
  destruct (get_inRange verticesV k 2 Hf ltac:(lia)) as (x2 & E2 & I2).
  replace (Js.imul (Some k) 3) with (Js.iadd (Js.imul (Some k) 3) 0) at 1
    by (cbn; f_equal; lia).
  rewrite E0, E1, E2. cbn [Js.toNumber].
  repeat constructor; apply mul_number; auto.
Qed.

Lemma decodeFaces_length (fuel : nat) :
  forall s f, In f (decodeFaces fuel s) ->
    length (vertexIndices f) = numVertices (flags f).
Proof.
  induction fuel as [|fuel IH]; intros [|t s] f H; cbn [decodeFaces] in H;
    try contradiction.
  destruct (readFace t s) as [g s2] eqn:E.
  destruct H as [<- | H]; [|now apply (IH s2)].
  change g with (fst (g, s2)). rewrite <- E.
  unfold readFace.
  destruct (readIndices _ s) as [vis s1] eqn:E1.
  destruct (if hasFaceVertexUv _ then _ else _) as [uis s4].
  destruct (if hasFaceVertexNormal _ then _ else _) as [nis s6].
  cbn [fst flags vertexIndices].
  change vis with (fst (vis, s1)). rewrite <- E1. apply readIndices_length.
Qed.

(** X6. A document whose decoded faces name only vertices of the vertex
    array, whose vertex coordinates are numbers and whose scale
    ([scale || 1]) is not infinite, has numbers only among its emitted
    positions: no position is NaN.  (A vertex index outside the array, or a
    zero coordinate with an infinite scale, is what makes one NaN.) *)
Theorem wellformed_positions_numeric (modelData : ModelData.t) :
  wellIndexed modelData = true ->
  Forall notNaN (orEmpty (ModelData.vertices modelData)) ->
  is_infinity (scaleOf modelData) = false ->
  Forall notNaN (positionsOf modelData).
Proof.
  intros Hw Hv Hi. unfold positionsOf. rewrite expand_emitAll, emitAll_positions.
  unfold wellIndexed in Hw. rewrite forallb_forall in Hw.
  apply Forall_forall. intros x Hx.
  apply in_flat_map in Hx as (f & Hf & Hx).
  apply in_flat_map in Hx as (v & Hv' & Hx).
  apply in_seq in Hv'.
  pose proof (decodeFaces_length _ _ f Hf) as Hl.
  pose proof (cornerPosition_number (scaleOf modelData) _ f v
                (scaleOf_truthy modelData) Hi Hv (Hw f Hf) ltac:(lia)) as Hc.
  rewrite Forall_forall in Hc. now apply Hc.
Qed.

Lemma wellformed_positions_numeric_witness : Forall notNaN (positionsOf roundTripDocument).
Proof.
  apply (wellformed_positions_numeric roundTripDocument).
  - reflexivity.
  - vm_compute. repeat constructor.
  - reflexivity.
Defined.

(** ** The face type *)

Lemma toInt32_testbit (z k : Z) :
  0 <= k < 32 -> Z.testbit (Js.toInt32 z) k = Z.testbit z k.
Proof.
  intros Hk. unfold Js.toInt32.
  change Js.two32 with (2 ^ 32). change Js.two31 with (2 ^ 31).
  rewrite <- (Z.mod_pow2_bits_low _ 32 k) by lia.
  rewrite <- (Z.mod_pow2_bits_low z 32 k) by lia.
  f_equal.
  rewrite (Z.mod_eq (z + 2 ^ 31) (2 ^ 32)) by lia.
  replace (z + 2 ^ 31 - 2 ^ 32 * ((z + 2 ^ 31) / 2 ^ 32) - 2 ^ 31)
    with (z + (- ((z + 2 ^ 31) / 2 ^ 32)) * 2 ^ 32) by lia.
  apply Z.mod_add. lia.
Qed.

Lemma land_pow2 (a k : Z) :
  0 <= k -> (Z.land a (2 ^ k) =? 0) = negb (Z.testbit a k).
Proof.
  intros Hk. destruct (Z.testbit a k) eqn:E; cbn [negb].
  - apply Z.eqb_neq. intros H.
    assert (Hb : Z.testbit (Z.land a (2 ^ k)) k = true)
      by (rewrite Z.land_spec, E, Z.pow2_bits_true by lia; reflexivity).
    rewrite H, Z.bits_0 in Hb. discriminate.
  - apply Z.eqb_eq. apply Z.bits_inj'. intros n Hn.
    rewrite Z.land_spec, Z.bits_0, Z.pow2_bits_eqb by lia.
    destruct (Z.eqb_spec k n) as [<- | _]; [now rewrite E | apply andb_false_r].
Qed.

Lemma bitSet_testbit (faceType k : Z) :
  0 <= k < 31 -> bitSet faceType (2 ^ k) = Z.testbit faceType k.
Proof.
  intros Hk. unfold bitSet, Js.band.
  assert (Hm : Js.toInt32 (2 ^ k) = 2 ^ k).
  { unfold Js.toInt32. change Js.two32 with (2 ^ 32). change Js.two31 with (2 ^ 31).
    assert (0 < 2 ^ k) by (apply Z.pow_pos_nonneg; lia).
    assert (2 ^ k < 2 ^ 31) by (apply Z.pow_lt_mono_r; lia).
    rewrite Z.mod_small; lia. }
  rewrite Hm, land_pow2, negb_involutive by lia.
  apply toInt32_testbit. lia.
Qed.

(** X7. The eight flags of a face are the eight low bits of its face-type
    integer, whatever the integer (negative or beyond 32 bits included):
    bit 0 quad, 1 material, 2 face UV, 3 vertex UVs, 4 face normal,
    5 vertex normals, 6 face color, 7 vertex colors.  Higher bits are
    ignored: two face types that agree modulo 256 decode and read the same
    record. *)
Theorem face_type_low_byte (faceType : Z) :
  decodeFlags faceType =
    {| isQuad := Z.testbit faceType 0;
       hasMaterial := Z.testbit faceType 1;
       hasFaceUv := Z.testbit faceType 2;
       hasFaceVertexUv := Z.testbit faceType 3;
       hasFaceNormal := Z.testbit faceType 4;
       hasFaceVertexNormal := Z.testbit faceType 5;
       hasFaceColor := Z.testbit faceType 6;
       hasFaceVertexColor := Z.testbit faceType 7 |} /\
  decodeFlags (faceType mod 256) = decodeFlags faceType /\
  forall s, readFace (faceType mod 256) s = readFace faceType s.
Proof.
  assert (H : forall z, decodeFlags z =
    {| isQuad := Z.testbit z 0; hasMaterial := Z.testbit z 1;
       hasFaceUv := Z.testbit z 2; hasFaceVertexUv := Z.testbit z 3;
       hasFaceNormal := Z.testbit z 4; hasFaceVertexNormal := Z.testbit z 5;
       hasFaceColor := Z.testbit z 6; hasFaceVertexColor := Z.testbit z 7 |}).
  { intros z. unfold decodeFlags.
    f_equal;
      [ apply (bitSet_testbit z 0) | apply (bitSet_testbit z 1)
      | apply (bitSet_testbit z 2) | apply (bitSet_testbit z 3)
      | apply (bitSet_testbit z 4) | apply (bitSet_testbit z 5)
      | apply (bitSet_testbit z 6) | apply (bitSet_testbit z 7) ]; lia. }
  assert (E : decodeFlags (faceType mod 256) = decodeFlags faceType).
  { rewrite !H. change 256 with (2 ^ 8).
    rewrite !Z.mod_pow2_bits_low by lia. reflexivity. }
  split; [apply H|]. split; [exact E|].
  intros s. unfold readFace. rewrite E. reflexivity.
Qed.

(** ** Values that are no numbers *)

Lemma is_nan_nan : is_nan nan = true.
Proof. reflexivity. Qed.

Lemma fold_nan (op : float -> float -> float) (vals : list float) :
  (forall x y, (is_nan x || is_nan y)%bool = true -> is_nan (op x y) = true) ->
  forall acc,
    is_nan acc = true \/ Exists (fun v => is_nan v = true) vals ->
    is_nan (fold_left op vals acc) = true.
Proof.
  intros Hop. induction vals as [|v vals IH]; intros acc H; cbn [fold_left].
  - destruct H as [H | H]; [exact H | inversion H].
  - apply IH. destruct H as [H | H].
    + left. apply Hop. now rewrite H.
    + apply Exists_cons in H as [H | H]; [|now right].
      left. apply Hop. rewrite H. apply orb_true_r.
Qed.

Lemma min_nan (x y : float) :
  (is_nan x || is_nan y)%bool = true -> is_nan (Js.min x y) = true.
Proof. intros H. unfold Js.min. now rewrite H. Qed.

Lemma max_nan (x y : float) :
  (is_nan x || is_nan y)%bool = true -> is_nan (Js.max x y) = true.
Proof. intros H. unfold Js.max. now rewrite H. Qed.

(** X8. One position that is no number spoils the bounding box of its
    axis: when an emitted position value of an axis is NaN, the minimum and
    the maximum recorded for that axis in the position accessor are both
    NaN, whatever the other positions are. *)
Theorem nan_spoils_bounds (modelData : ModelData.t) (fileName : string) (k : nat) :
  (k < 3)%nat ->
  Exists (fun v => is_nan v = true) (axis k (positionsOf modelData)) ->
  exists gltf lo hi,
    convertThreeJsJsonToGltf modelData fileName = Some gltf /\
    accessorBounds gltf = Some (lo, hi) /\
    is_nan (component k lo) = true /\ is_nan (component k hi) = true.
Proof.
  intros Hk Hnan.
  destruct (convert_bounds modelData fileName) as (gltf & Hc & Hb & Ha).
  destruct (positionsOf_triples modelData) as (ts & Hts & _).
  exists gltf, (bmin (GltfData.bounds gltf)), (bmax (GltfData.bounds gltf)).
  split; [exact Hc|]. split; [exact Ha|].
  rewrite Hb, Hts in *. rewrite boundsLoop_triples.
  pose proof (fold_growVec ts initialBounds) as Hf. simpl in Hf. rewrite Hf.
  rewrite axis_triples in Hnan.
  destruct k as [|[|[|k]]]; [| | |lia]; cbn [bmin bmax component nth];
    (split; [apply (fold_nan Js.min _ min_nan) | apply (fold_nan Js.max _ max_nan)]);
    now right.
Qed.

Lemma nan_spoils_bounds_witness :
  exists gltf lo hi,
    convertThreeJsJsonToGltf danglingDocument "dangling.js" = Some gltf /\
    accessorBounds gltf = Some (lo, hi) /\
    is_nan (component 0 lo) = true /\ is_nan (component 0 hi) = true.
Proof.
  apply (nan_spoils_bounds danglingDocument "dangling.js" 0%nat).
  - lia.
  - vm_compute. apply Exists_cons_tl, Exists_cons_tl, Exists_cons_hd. reflexivity.
Defined.

Lemma orElse_number (v : Js.value float) : notNaN (Js.orElse v 0).
Proof.
  unfold Js.orElse, notNaN. destruct v as [x|]; [|reflexivity].
  destruct (Js.truthy x) eqn:E; [|reflexivity].
  unfold Js.truthy in E. apply negb_true_iff, orb_false_iff in E. tauto.
Qed.

Lemma cornerNormal_number (normalsV : list float) (f : FaceRecord) (v : nat) :
  Forall notNaN (cornerNormal normalsV f v).
Proof.
  unfold cornerNormal.
  destruct (hasFaceVertexNormal (flags f)), (at_ (faceNormalIndices f) v);
    cbv zeta; repeat constructor; try apply orElse_number.
Qed.

Lemma cornerUv_number (uvsV : list float) (f : FaceRecord) (v : nat) :
  Forall notNaN (cornerUv uvsV f v).
Proof.
  unfold cornerUv.
  destruct (hasFaceVertexUv (flags f)), (at_ (faceUvIndices f) v);
    cbv zeta; repeat constructor; try apply orElse_number.
Qed.

Lemma Forall_flat_map (A B : Type) (P : B -> Prop) (g : A -> list B) (l : list A) :
  (forall a, Forall P (g a)) -> Forall P (flat_map g l).
Proof.
  intros H. induction l as [|a l IH]; [constructor|].
  cbn [flat_map]. apply Forall_app. now split.
Qed.

(** X9. Unlike a position, a normal or UV value that the face loop pushes
    is always a number, for every document: none is NaN, and the normal
    and UV arrays of the result are the [Float32Array]s of exactly these
    values.  (The [|| 0] of the loop replaces a component that is [undefined]
    or NaN, and a corner without an index gets constants.) *)
Theorem normals_and_uvs_are_numbers (modelData : ModelData.t) (fileName : string) :
  exists e gltf,
    expand modelData = Some e /\
    convertThreeJsJsonToGltf modelData fileName = Some gltf /\
    GltfData.normals gltf = newFloat32Array (normalData e) /\
    GltfData.uvs gltf = newFloat32Array (uvData e) /\
    Forall notNaN (normalData e) /\ Forall notNaN (uvData e).
Proof.
  unfold convertThreeJsJsonToGltf.
  rewrite expand_emitAll. eexists. eexists. split; [reflexivity|].
  split; [reflexivity|]. split; [reflexivity|]. split; [reflexivity|].
  generalize 0 at 1 2.
  induction (facesOf modelData) as [|f fs IH]; intros vi.
  - split; constructor.
  - destruct (IH (vi + cornersOf f)) as [Hn Hu].
    cbn [emitAll pushed normalData uvData emitFace]. split; apply Forall_app; split;
      try assumption; apply Forall_flat_map; intros v;
      [apply cornerNormal_number | apply cornerUv_number].
Qed.

(** ** The batch of [convertModels] *)

Lemma readFile_other (dir : OutputDir) (p path : string) (bytes : list byte) :
  p <> path -> readFile (writeFileSync dir p bytes) path = readFile dir path.
Proof. intros H. simpl. apply String.eqb_neq in H. now rewrite H. Qed.

Section BatchFacts.

Variable encodeJson : Gltf.t -> list byte.

(** One file: its outcome, and the output directory after it. *)
Lemma convertFile_spec (dir : OutputDir) (file : string) (parsed : result ModelData.t) :
  exists dir1 outcome,
    convertFile encodeJson dir file parsed = Some (dir1, outcome) /\
    fileOutcome encodeJson file parsed outcome /\
    (forall path, path <> outputName file -> readFile dir1 path = readFile dir path) /\
    (forall modelData data,
       parsed = Ok modelData ->
       convertThreeJsJsonToGltf modelData file = Some data ->
       glbLengthOf encodeJson data < 2 ^ 32 ->
       readFile dir1 (outputName file) = Some (containerLayout encodeJson data)) /\
    (outcome <> Converted -> dir1 = dir).
Proof.
  destruct parsed as [modelData | e].
  - destruct (convert_total modelData file) as [data Hc].
    unfold convertFile, fileOutcome, containerFits. rewrite Hc.
    destruct (Z_lt_le_dec (glbLengthOf encodeJson data) (2 ^ 32)) as [Hfit | Hbig].
    + rewrite (createGlb_layout encodeJson data Hfit).
      eexists _, _. split; [reflexivity|]. split; [left; now split|].
      split; [|split].
      * intros path Hp. apply readFile_other. unfold outputName in Hp. congruence.
      * intros m d Hm Hd _. injection Hm as <-.
        assert (d = data) by congruence. subst d. apply readFile_written.
      * congruence.
    + rewrite (createGlb_overflow encodeJson data Hbig).
      eexists _, _. split; [reflexivity|]. split; [right; split; [lia | reflexivity]|].
      split; [reflexivity|]. split; [|reflexivity].
      intros m d Hm Hd Hfit. injection Hm as <-.
      assert (d = data) by congruence. subst d. lia.
  - exists dir, (Failed e). split; [reflexivity|]. split; [reflexivity|].
    split; [reflexivity|]. split; [discriminate | reflexivity].
Qed.

Lemma convertFiles_spec (files : ModelsDir) :
  forall dir, exists dir2 log,
    convertFiles encodeJson dir files = Some (dir2, log) /\
    Forall2 (fun entry line =>
               fst line = fst entry /\
               fileOutcome encodeJson (fst entry) (snd entry) (snd line)) files log /\
    (forall path, ~ In path (map outputName (map fst files)) ->
                  readFile dir2 path = readFile dir path) /\
    (NoDup (map outputName (map fst files)) ->
     forall file parsed, In (file, parsed) files ->
       (forall modelData data,
          parsed = Ok modelData ->
          convertThreeJsJsonToGltf modelData file = Some data ->
          glbLengthOf encodeJson data < 2 ^ 32 ->
          readFile dir2 (outputName file) = Some (containerLayout encodeJson data)) /\
       (forall outcome, fileOutcome encodeJson file parsed outcome ->
          outcome <> Converted ->
          readFile dir2 (outputName file) = readFile dir (outputName file))).
Proof.
  induction files as [|[f p] rest IH]; intros dir.
  - exists dir, []. split; [reflexivity|]. split; [constructor|].
    split; [reflexivity|]. intros _ file parsed [].
  - destruct (convertFile_spec dir f p) as (dir1 & o & H1 & Ho & Hother & Hwritten & Hfailed).
    destruct (IH dir1) as (dir2 & log & H2 & Hlog & Hrest & Hfiles).
    exists dir2, ((f, o) :: log). cbn [convertFiles]. rewrite H1, H2.
    split; [reflexivity|]. split; [constructor; [now split | exact Hlog]|].
    cbn [map fst]. split.
    + intros path Hp. rewrite Hrest by (intros Hin; apply Hp; now right).
      apply Hother. intros ->. apply Hp. now left.
    + intros Hnd file parsed Hin.
      apply NoDup_cons_iff in Hnd as [Hfresh Hnd].
      destruct Hin as [E | Hin].
      * injection E as -> ->. split.
        -- intros m d Hm Hd Hfit. rewrite (Hrest _ Hfresh). now apply (Hwritten m d).
        -- intros o' Ho' Hne. rewrite (Hrest _ Hfresh).
           assert (Eo : o' = o).
           { destruct parsed as [m | e]; cbn [fileOutcome] in Ho, Ho'; [|congruence].
             destruct Ho as [[Hf ->] | [Hf ->]], Ho' as [[Hf' ->] | [Hf' ->]];
               try reflexivity; contradiction. }
           subst o'. now rewrite (Hfailed Hne).
      * assert (Hne : outputName file <> outputName f).
        { intros E. apply Hfresh. rewrite <- E.
          apply in_map. apply (in_map fst) in Hin. exact Hin. }
        destruct (Hfiles Hnd file parsed Hin) as [Hw Hf]. split.
        -- exact Hw.
        -- intros o' Ho' Hne'. rewrite (Hf o' Ho' Hne'). now apply Hother.
Qed.

End BatchFacts.

(** X10. A batch never stops at a file that fails.  Whatever the models
    directory holds and whether or not the output directory exists, the run
    ends, and the console shows one outcome for every file whose name ends
    in [.js], in directory order, and none for the other files; the outcome
    of a file is the one it has by itself: the parser's error when its text
    does not parse, a range error when its container does not fit the
    32-bit length field, success otherwise. *)
Theorem batch_isolates_failures (encodeJson : Gltf.t -> list byte)
    (modelsDir : ModelsDir) (outputDir : option OutputDir) :
  exists dir log,
    convertModels encodeJson modelsDir outputDir = Some (dir, log) /\
    map fst log = filter (endsWith ".js") (map fst modelsDir) /\
    Forall2 (fun entry line =>
               fst line = fst entry /\
               fileOutcome encodeJson (fst entry) (snd entry) (snd line))
            (modelFiles modelsDir) log.
Proof.
  unfold convertModels.
  destruct (convertFiles_spec encodeJson (modelFiles modelsDir)
              (match outputDir with Some d => d | None => [] end))
    as (dir & log & H & Hlog & _).
  exists dir, log. split; [exact H|]. split; [|exact Hlog].
  assert (E : map fst log = map fst (modelFiles modelsDir)).
  { clear H. induction Hlog as [|e l es ls [Hl _] _ IH]; [reflexivity|].
    cbn [map]. now rewrite Hl, IH. }
  rewrite E. unfold modelFiles. clear.
  induction modelsDir as [|[f p] rest IH]; [reflexivity|].
  cbn [filter map fst]. destruct (endsWith ".js" f); cbn [map fst]; now rewrite IH.
Qed.

(** X11. The files of the output directory after a batch whose model files
    have distinct output names.  A file that converts is found under its
    output name and holds the container of its document; a file that fails
    leaves what was under its output name before the run (a container of an
    earlier run stays, or there is still none); and every file of the
    output directory that is no output name of a model file is left as it
    was. *)
Theorem batch_outputs (encodeJson : Gltf.t -> list byte)
    (modelsDir : ModelsDir) (outputDir : option OutputDir) :
  NoDup (map outputName (map fst (modelFiles modelsDir))) ->
  let before := match outputDir with Some d => d | None => [] end in
  exists dir log,
    convertModels encodeJson modelsDir outputDir = Some (dir, log) /\
    (forall file modelData,
       In (file, Ok modelData) modelsDir -> endsWith ".js" file = true ->
       containerFits encodeJson modelData file ->
       exists data,
         convertThreeJsJsonToGltf modelData file = Some data /\
         readFile dir (outputName file) = Some (containerLayout encodeJson data)) /\
    (forall file parsed outcome,
       In (file, parsed) modelsDir -> endsWith ".js" file = true ->
       fileOutcome encodeJson file parsed outcome -> outcome <> Converted ->
       readFile dir (outputName file) = readFile before (outputName file)) /\
    (forall path,
       ~ In path (map outputName (map fst (modelFiles modelsDir))) ->
       readFile dir path = readFile before path).
Proof.
  intros Hnd. cbv zeta. unfold convertModels.
  destruct (convertFiles_spec encodeJson (modelFiles modelsDir)
              (match outputDir with Some d => d | None => [] end))
    as (dir & log & H & _ & Hrest & Hfiles).
  specialize (Hfiles Hnd).
  assert (Hin : forall file parsed, In (file, parsed) modelsDir ->
            endsWith ".js" file = true -> In (file, parsed) (modelFiles modelsDir)).
  { intros file parsed Hi He. unfold modelFiles. apply filter_In. now split. }
  exists dir, log. split; [exact H|]. split; [|split; [|exact Hrest]].
  - intros file m Hi He Hfit. unfold containerFits in Hfit.
    destruct (convert_total m file) as [data Hc]. rewrite Hc in Hfit.
    exists data. split; [exact Hc|].
    destruct (Hfiles file (Ok m) (Hin _ _ Hi He)) as [Hw _]. now apply (Hw m data).
  - intros file parsed o Hi He Ho Hne.
    destruct (Hfiles file parsed (Hin _ _ Hi He)) as [_ Hf]. now apply (Hf o).
Qed.

Lemma batch_outputs_witness :
  let before := [("triangle.glb"%string, [x00]); ("broken.glb"%string, [x01]); ("old.glb"%string, [x02])] in
  exists dir log,
    convertModels sampleJson sampleModels (Some before) = Some (dir, log) /\
    (forall file modelData,
       In (file, Ok modelData) sampleModels -> endsWith ".js" file = true ->
       containerFits sampleJson modelData file ->
       exists data,
         convertThreeJsJsonToGltf modelData file = Some data /\
         readFile dir (outputName file) = Some (containerLayout sampleJson data)) /\
    (forall file parsed outcome,
       In (file, parsed) sampleModels -> endsWith ".js" file = true ->
       fileOutcome sampleJson file parsed outcome -> outcome <> Converted ->
       readFile dir (outputName file) = readFile before (outputName file)) /\
    (forall path,
       ~ In path (map outputName (map fst (modelFiles sampleModels))) ->
       readFile dir path = readFile before path).
Proof.
  apply (batch_outputs sampleJson sampleModels
           (Some [("triangle.glb"%string, [x00]); ("broken.glb"%string, [x01]); ("old.glb"%string, [x02])])).
  vm_compute. repeat constructor; simpl; intuition discriminate.
Defined.

(** ** Names *)

Lemma prefix_js_app (c0 : ascii) (s t : string) :
  String.prefix ".js" (String c0 s) = false ->
  String.prefix ".js" (String c0 s ++ ".js" ++ t) = false.
Proof.
  destruct s as [|c1 [|c2 s]]; cbn [String.append String.prefix].
  - intros _. destruct (ascii_dec "." c0); reflexivity.
  - intros _. destruct (ascii_dec "." c0); [|reflexivity].
    destruct (ascii_dec "j" c1); reflexivity.
  - destruct (ascii_dec "." c0); [|reflexivity].
    destruct (ascii_dec "j" c1); [|reflexivity].
    destruct (ascii_dec "s" c2); [|reflexivity]. destruct s; discriminate.
Qed.

Lemma replace_first (base rep rest : string) :
  includes base ".js" = false ->
  replace ".js" rep (base ++ ".js" ++ rest) = (base ++ rep ++ rest)%string.
Proof.
  induction base as [|c base IH]; intros H.
  - assert (E : String.prefix ".js" (".js" ++ rest) = true) by (destruct rest; reflexivity).
    change (EmptyString ++ ".js" ++ rest)%string with (".js" ++ rest)%string.
    change (".js" ++ rest)%string with (String "." (String "j" (String "s" rest))) in *.
    cbn [replace]. rewrite E. reflexivity.
  - rewrite includes_unfold in H. apply orb_false_iff in H as [Hp Hi].
    pose proof (prefix_js_app c base rest Hp) as Hq.
    cbn [String.append] in Hq |- *. cbn [replace]. rewrite Hq.
    f_equal. now apply IH.
Qed.

Lemma endsWith_app (suffix s : string) : endsWith suffix (s ++ suffix) = true.
Proof.
  induction s as [|c s IH]; cbn [String.append].
  - destruct suffix; cbn [endsWith]; now rewrite String.eqb_refl.
  - cbn [endsWith]. rewrite IH. apply orb_true_r.
Qed.

(** X12. Only the first [.js] of a file name is replaced.  For a model
    file [base.js] whose base holds no [.js] the container is written to
    [base.glb], and the node and the mesh of the document are named [base];
    but text after the first [.js] is kept in both names, so the model file
    [a.js.js] is written to [a.glb.js], a name that does not end in
    [.glb], and its mesh is named [a.js]. *)
Theorem output_name (base rest : string) (modelData : ModelData.t) :
  includes base ".js" = false ->
  outputName (base ++ ".js" ++ rest) = (base ++ ".glb" ++ rest)%string /\
  outputName (base ++ ".js") = (base ++ ".glb")%string /\
  endsWith ".js" (base ++ ".js") = true /\
  exists gltf,
    convertThreeJsJsonToGltf modelData (base ++ ".js" ++ rest) = Some gltf /\
    GltfData.name gltf = (base ++ rest)%string /\
    map Gltf.nodeName (Gltf.nodes (gltfDocument gltf)) = [(base ++ rest)%string] /\
    map Gltf.meshName (Gltf.meshes (gltfDocument gltf)) = [(base ++ rest)%string].
Proof.
  intros H. unfold outputName.
  split; [now apply replace_first|].
  split.
  { pose proof (replace_first base ".glb" EmptyString H) as E.
    cbn [String.append] in E. exact E. }
  split; [apply endsWith_app|].
  unfold convertThreeJsJsonToGltf.
  destruct (expand_total modelData) as [e ->].
  eexists. split; [reflexivity|].
  cbn [GltfData.name gltfDocument Gltf.nodes Gltf.meshes map Gltf.nodeName Gltf.meshName].
  rewrite (replace_first base EmptyString rest H). cbn [String.append].
  repeat split.
Qed.

Lemma output_name_witness :
  outputName "a.js.js" = "a.glb.js"%string /\
  outputName "a.js" = "a.glb"%string /\
  endsWith ".js" "a.js" = true /\
  exists gltf,
    convertThreeJsJsonToGltf roundTripDocument "a.js.js" = Some gltf /\
    GltfData.name gltf = "a.js"%string /\
    map Gltf.nodeName (Gltf.nodes (gltfDocument gltf)) = ["a.js"%string] /\
    map Gltf.meshName (Gltf.meshes (gltfDocument gltf)) = ["a.js"%string].
Proof. apply (output_name "a" ".js" roundTripDocument). reflexivity. Defined.

(** ** The models directory of the server *)

Lemma in_skipn (A : Type) (n : nat) (l : list A) (x : A) : In x (skipn n l) -> In x l.
Proof. intros H. rewrite <- (firstn_skipn n l). apply in_or_app. now right. Qed.

Lemma in_firstn (A : Type) (n : nat) (l : list A) (x : A) : In x (firstn n l) -> In x l.
Proof. intros H. rewrite <- (firstn_skipn n l). apply in_or_app. now left. Qed.

Section SortFacts.

Variable A : Type.
Variable key : A -> Z.

Let byKey (a b : A) : Z := key b - key a.

Lemma insertSorted_perm (compare : A -> A -> Z) (x : A) (l : list A) :
  Permutation (insertSorted compare x l) (x :: l).
Proof.
  induction l as [|y l IH]; [reflexivity|]. cbn [insertSorted].
  destruct (0 <? compare x y); [|reflexivity].
  rewrite IH. apply perm_swap.
Qed.

Lemma sort_perm (compare : A -> A -> Z) (l : list A) : Permutation (sort compare l) l.
Proof.
  induction l as [|x l IH]; [reflexivity|].
  cbn [sort fold_right]. fold (sort compare l).
  rewrite insertSorted_perm. now constructor.
Qed.

Lemma insertSorted_descending (x : A) (l : list A) :
  descending key l -> descending key (insertSorted byKey x l).
Proof.
  unfold descending. induction l as [|y l IH]; intros H; cbn [insertSorted].
  - repeat constructor.
  - apply StronglySorted_inv in H as [Hl Hy].
    unfold byKey at 1. destruct (0 <? key y - key x) eqn:E.
    + apply Z.ltb_lt in E. constructor; [now apply IH|].
      apply Forall_forall. intros z Hz.
      apply (Permutation_in _ (insertSorted_perm byKey x l)) in Hz.
      destruct Hz as [<- | Hz]; [lia|].
      rewrite Forall_forall in Hy. now apply Hy.
    + apply Z.ltb_ge in E. constructor; [now constructor|].
      constructor; [lia|].
      apply Forall_forall. intros z Hz. rewrite Forall_forall in Hy.
      specialize (Hy z Hz). lia.
Qed.

Lemma sort_descending (l : list A) : descending key (sort byKey l).
Proof.
  induction l as [|x l IH]; [constructor|].
  cbn [sort fold_right]. now apply insertSorted_descending.
Qed.

Lemma descending_split (n : nat) :
  forall l, descending key l ->
    forall a b, In a (firstn n l) -> In b (skipn n l) -> key b <= key a.
Proof.
  unfold descending.
  induction n as [|n IH]; intros [|x l] H a b Ha Hb; try contradiction.
  apply StronglySorted_inv in H as [Hl Hx].
  cbn [firstn skipn] in Ha, Hb. destruct Ha as [<- | Ha].
  - rewrite Forall_forall in Hx. apply Hx. eapply in_skipn; eauto.
  - now apply (IH l Hl).
Qed.

End SortFacts.

Lemma sort_descending_id (A : Type) (key : A -> Z) (l : list A) :
  descending key l -> sort (fun a b => key b - key a) l = l.
Proof.
  unfold descending. induction l as [|x l IH]; intros H; [reflexivity|].
  apply StronglySorted_inv in H as [Hl Hx].
  cbn [sort fold_right]. fold (sort (fun a b => key b - key a) l). rewrite (IH Hl).
  destruct l as [|y l]; [reflexivity|]. cbn [insertSorted].
  apply Forall_inv in Hx.
  destruct (0 <? key y - key x) eqn:E; [apply Z.ltb_lt in E; lia | reflexivity].
Qed.

Lemma NoDup_app_disjoint (A : Type) (l1 l2 : list A) (a : A) :
  NoDup (l1 ++ l2) -> In a l1 -> ~ In a l2.
Proof.
  induction l1 as [|x l1 IH]; intros H Ha; [contradiction|].
  cbn [app] in H. apply NoDup_cons_iff in H as [Hx H].
  destruct Ha as [-> | Ha]; [|now apply IH].
  intros Hin. apply Hx, in_or_app. now right.
Qed.

Lemma NoDup_map_filter (A B : Type) (g : A -> B) (f : A -> bool) (l : list A) :
  NoDup (map g l) -> NoDup (map g (filter f l)).
Proof.
  induction l as [|x l IH]; intros H; [constructor|].
  cbn [map] in H. apply NoDup_cons_iff in H as [Hx H].
  cbn [filter]. destruct (f x); [|now apply IH].
  cbn [map]. constructor; [|now apply IH].
  intros Hin. apply Hx. apply in_map_iff in Hin as (y & Ey & Hy).
  apply filter_In in Hy as [Hy _]. rewrite <- Ey. now apply in_map.
Qed.

Lemma NoDup_map_inj (A B : Type) (g : A -> B) (l : list A) (a b : A) :
  NoDup (map g l) -> In a l -> In b l -> g a = g b -> a = b.
Proof.
  induction l as [|x l IH]; intros H Ha Hb E; [contradiction|].
  cbn [map] in H. apply NoDup_cons_iff in H as [Hx H].
  destruct Ha as [-> | Ha], Hb as [-> | Hb]; auto.
  - exfalso. apply Hx. rewrite E. now apply in_map.
  - exfalso. apply Hx. rewrite <- E. now apply in_map.
Qed.

Lemma Permutation_filter (A : Type) (f : A -> bool) (l l' : list A) :
  Permutation l l' -> Permutation (filter f l) (filter f l').
Proof.
  induction 1 as [|x l l' _ IH|x y l|l l' l'' _ IH1 _ IH2]; cbn [filter].
  - constructor.
  - destruct (f x); [now constructor | exact IH].
  - destruct (f x), (f y); try reflexivity. apply perm_swap.
  - now transitivity (filter f l').
Qed.

Lemma filter_comm (A : Type) (f g : A -> bool) (l : list A) :
  filter f (filter g l) = filter g (filter f l).
Proof.
  induction l as [|x l IH]; [reflexivity|]. cbn [filter].
  destruct (f x) eqn:Ef, (g x) eqn:Eg; cbn [filter]; rewrite ?Ef, ?Eg, IH; reflexivity.
Qed.

Lemma filter_all (A : Type) (f : A -> bool) (l : list A) :
  (forall x, In x l -> f x = true) -> filter f l = l.
Proof.
  intros H. apply forallb_filter_id, forallb_forall, H.
Qed.

Lemma filter_none (A : Type) (f : A -> bool) (l : list A) :
  (forall x, In x l -> f x = false) -> filter f l = [].
Proof.
  induction l as [|x l IH]; intros H; [reflexivity|].
  cbn [filter]. rewrite (H x (or_introl eq_refl)). apply IH.
  intros y Hy. apply H. now right.
Qed.

Lemma existsSync_spec (dir : Directory) (file : string) :
  existsSync dir file = true <-> In file (map entryName dir).
Proof.
  unfold existsSync. rewrite existsb_exists, in_map_iff. split.
  - intros (e & He & E). apply String.eqb_eq in E. now exists e.
  - intros (e & E & He). exists e. split; [exact He | now apply String.eqb_eq].
Qed.

Lemma existsSync_false (dir : Directory) (file : string) :
  existsSync dir file = false <-> ~ In file (map entryName dir).
Proof.
  rewrite <- existsSync_spec. destruct (existsSync dir file); split; congruence.
Qed.

(** Deleting files that exist, one after the other, deletes the files
    with their names and goes through. *)
Lemma unlinkEach_spec (toDelete : list DirEntry) :
  forall dir : Directory,
    NoDup (map entryName toDelete) ->
    (forall f, In f toDelete -> existsSync dir (entryName f) = true) ->
    unlinkEach dir toDelete =
    (filter (fun e => negb (existsSync toDelete (entryName e))) dir, true).
Proof.
  induction toDelete as [|f rest IH]; intros dir Hnd Hex.
  - cbn [unlinkEach existsSync existsb negb]. now rewrite filter_all.
  - cbn [map] in Hnd. apply NoDup_cons_iff in Hnd as [Hf Hnd].
    cbn [unlinkEach]. unfold unlinkSync. rewrite (Hex f (or_introl eq_refl)).
    rewrite IH; [f_equal| exact Hnd |].
    + clear. induction dir as [|e dir IHd]; [reflexivity|].
      cbn [filter existsSync existsb].
      fold (existsSync rest (entryName e)).
      rewrite (String.eqb_sym (entryName f) (entryName e)).
      destruct (String.eqb (entryName e) (entryName f)); cbn [negb orb filter].
      * exact IHd.
      * destruct (existsSync rest (entryName e)); cbn [negb]; now rewrite IHd.
    + intros g Hg. apply existsSync_spec.
      specialize (Hex g (or_intror Hg)). apply existsSync_spec in Hex.
      apply in_map_iff in Hex as (e & E & He).
      apply in_map_iff. exists e. split; [exact E|].
      apply filter_In. split; [exact He|].
      apply negb_true_iff, String.eqb_neq. intros En.
      apply Hf. rewrite <- En, E. now apply in_map.
Qed.

(** What [cleanup] does to a directory: the files it deletes are the
    model files after the tenth, newest first. *)
Lemma cleanup_spec (dir : Directory) :
  NoDup (map entryName dir) ->
  let files := sort newestFirst (glbFiles dir) in
  let after := filter (fun e => negb (existsSync (skipn 10 files) (entryName e))) dir in
  cleanup dir = (after, CleanupDone (length (glbFiles dir) - 10)) /\
  NoDup (map entryName after) /\
  (forall e, In e dir -> (In e after <-> ~ In e (skipn 10 files))) /\
  Permutation (glbFiles after) (firstn 10 files).
Proof.
  intros Hnd files after.
  pose proof (sort_perm DirEntry newestFirst (glbFiles dir)) as Hperm. fold files in Hperm.
  assert (Hglb : NoDup (map entryName (glbFiles dir))) by now apply NoDup_map_filter.
  assert (Hfiles : NoDup (map entryName files)).
  { apply (Permutation_NoDup (l := map entryName (glbFiles dir))); [|exact Hglb].
    apply Permutation_map. now symmetry. }
  assert (Hin : forall e, In e files -> In e dir).
  { intros e He. apply (Permutation_in _ Hperm) in He.
    now apply filter_In in He as [He _]. }
  assert (Hsplit : map entryName files =
                   map entryName (firstn 10 files) ++ map entryName (skipn 10 files))
    by now rewrite <- map_app, firstn_skipn.
  assert (Hdel : NoDup (map entryName (skipn 10 files))).
  { rewrite Hsplit in Hfiles. now apply NoDup_app_remove_l in Hfiles. }
  assert (Hmem : forall e, In e dir ->
            (existsSync (skipn 10 files) (entryName e) = true <-> In e (skipn 10 files))).
  { intros e He. rewrite existsSync_spec, in_map_iff. split.
    - intros (f & E & Hf).
      assert (f = e); [|now subst].
      apply (NoDup_map_inj _ _ entryName dir); auto.
      apply Hin. now apply in_skipn in Hf.
    - intros Hf. now exists e. }
  split; [|split; [|split]].
  - unfold cleanup. fold files. cbv zeta.
    rewrite unlinkEach_spec.
    + rewrite length_skipn. now rewrite (Permutation_length Hperm).
    + exact Hdel.
    + intros f Hf. apply existsSync_spec, in_map, Hin. now apply in_skipn in Hf.
  - now apply NoDup_map_filter.
  - intros e He. unfold after. rewrite filter_In, negb_true_iff.
    rewrite <- (Hmem e He).
    destruct (existsSync (skipn 10 files) (entryName e)); intuition congruence.
  - unfold glbFiles at 1. unfold after. rewrite filter_comm. fold (glbFiles dir).
    rewrite (Permutation_filter _ _ _ _ (Permutation_sym Hperm)).
    rewrite <- (firstn_skipn 10 files) at 1. rewrite filter_app.
    rewrite (filter_all _ _ (firstn 10 files)), (filter_none _ _ (skipn 10 files)).
    + now rewrite app_nil_r.
    + intros e He. apply negb_false_iff, Hmem; [|exact He].
      apply Hin. now apply in_skipn in He.
    + intros e He. apply negb_true_iff, existsSync_false.
      rewrite Hsplit in Hfiles.
      apply (NoDup_app_disjoint _ _ _ _ Hfiles). now apply in_map.
Qed.

(** X13. [POST /cleanup] keeps the ten newest models.  In a directory
    with distinct file names every file to delete is there when it is
    deleted, so no deletion raises for a missing file; the response counts the
    model files ([.glb]) beyond the tenth; afterwards at most ten model
    files are left (all of them when there were ten or fewer), every
    model file that is left is at least as new as every file deleted, and
    no other file of the directory (a saved design, say) is deleted. *)
Theorem cleanup_keeps_newest (dir : Directory) :
  NoDup (map entryName dir) ->
  exists after,
    cleanup dir = (after, CleanupDone (length (glbFiles dir) - 10)) /\
    (forall e, In e after -> In e dir) /\
    (forall e, In e dir -> endsWith ".glb" (entryName e) = false -> In e after) /\
    length (glbFiles after) = Nat.min 10 (length (glbFiles dir)) /\
    (forall kept deleted,
       In kept (glbFiles after) -> In deleted dir -> ~ In deleted after ->
       birthtime deleted <= birthtime kept).
Proof.
  intros Hnd.
  destruct (cleanup_spec dir Hnd) as (Hc & _ & Hmem & Hkept). cbv zeta in *.
  pose proof (sort_perm DirEntry newestFirst (glbFiles dir)) as Hperm.
  set (files := sort newestFirst (glbFiles dir)) in *.
  set (after := filter _ dir) in *.
  exists after. split; [exact Hc|]. split; [|split; [|split]].
  - intros e He. unfold after in He. now apply filter_In in He as [He _].
  - intros e He Hext. apply (Hmem e He). intros Hd.
    apply in_skipn, (Permutation_in _ Hperm), filter_In in Hd as [_ Hd]. congruence.
  - rewrite (Permutation_length Hkept), length_firstn.
    now rewrite (Permutation_length Hperm).
  - intros k d Hk Hd Hgone.
    apply (Permutation_in _ Hkept) in Hk.
    assert (Hd' : In d (skipn 10 files)).
    { destruct (in_dec (fun a b : DirEntry =>
                          ltac:(decide equality; [apply Z.eq_dec | apply string_dec]))
                  d (skipn 10 files)) as [H | H]; [exact H|].
      exfalso. apply Hgone. now apply (Hmem d Hd). }
    exact (descending_split DirEntry birthtime 10 files
             (sort_descending DirEntry birthtime (glbFiles dir)) k d Hk Hd').
Qed.

Lemma cleanup_keeps_newest_witness :
  exists after,
    cleanup sampleDirectory = (after, CleanupDone (length (glbFiles sampleDirectory) - 10)) /\
    (forall e, In e after -> In e sampleDirectory) /\
    (forall e, In e sampleDirectory -> endsWith ".glb" (entryName e) = false -> In e after) /\
    length (glbFiles after) = Nat.min 10 (length (glbFiles sampleDirectory)) /\
    (forall kept deleted,
       In kept (glbFiles after) -> In deleted sampleDirectory -> ~ In deleted after ->
       birthtime deleted <= birthtime kept).
Proof.
  apply (cleanup_keeps_newest sampleDirectory).
  vm_compute. repeat constructor; simpl; intuition discriminate.
Defined.

(** X14. A second [POST /cleanup] right after a first one deletes
    nothing: it answers 0 and leaves the directory as the first one left
    it. *)
Theorem cleanup_twice (dir : Directory) :
  NoDup (map entryName dir) ->
  cleanup (fst (cleanup dir)) = (fst (cleanup dir), CleanupDone 0).
Proof.
  intros Hnd.
  destruct (cleanup_spec dir Hnd) as (Hc & Hnd' & _ & Hkept). cbv zeta in *.
  rewrite Hc. cbn [fst]. set (after := filter _ dir) in *.
  assert (Hlen : (length (glbFiles after) <= 10)%nat).
  { rewrite (Permutation_length Hkept), length_firstn. apply Nat.le_min_l. }
  destruct (cleanup_spec after Hnd') as (Hc' & _). cbv zeta in Hc'.
  assert (Hnone : skipn 10 (sort newestFirst (glbFiles after)) = []).
  { apply skipn_all2.
    now rewrite (Permutation_length (sort_perm DirEntry newestFirst (glbFiles after))). }
  rewrite Hc', Hnone.
  replace (length (glbFiles after) - 10)%nat with 0%nat by lia.
  f_equal. apply filter_all. reflexivity.
Qed.

Lemma cleanup_twice_witness :
  cleanup (fst (cleanup sampleDirectory)) = (fst (cleanup sampleDirectory), CleanupDone 0).
Proof.
  apply (cleanup_twice sampleDirectory).
  vm_compute. repeat constructor; simpl; intuition discriminate.
Defined.

(** X15. [GET /list-models] lists the model files of the directory, each
    once and no other file, newest first, with the URL [/models/<name>];
    a directory whose model files are already newest first (models of
    equal age included) is listed in its own order. *)
Theorem list_models_newest_first (dir : Directory) :
  Permutation (listModels dir) (map modelInfo (glbFiles dir)) /\
  descending created (listModels dir) /\
  (forall m, In m (listModels dir) ->
     endsWith ".glb" (name m) = true /\ url m = String.append "/models/" (name m) /\
     exists e, In e dir /\ entryName e = name m /\ birthtime e = created m) /\
  (descending birthtime (glbFiles dir) -> listModels dir = map modelInfo (glbFiles dir)).
Proof.
  unfold listModels.
  pose proof (sort_perm ModelInfo (fun a b => created b - created a)
                (map modelInfo (glbFiles dir))) as Hperm.
  split; [exact Hperm|]. split; [apply sort_descending|]. split.
  - intros m Hm. apply (Permutation_in _ Hperm) in Hm.
    apply in_map_iff in Hm as (e & <- & He).
    apply filter_In in He as [He Hext].
    split; [exact Hext|]. split; [reflexivity|]. now exists e.
  - intros Hd. apply sort_descending_id. clear Hperm.
    unfold descending in *. induction Hd as [|e l _ IH Hall]; [constructor|].
    cbn [map]. constructor; [exact IH|].
    apply Forall_forall. intros m Hm. apply in_map_iff in Hm as (e' & <- & He').
    rewrite Forall_forall in Hall. exact (Hall e' He').
Qed.

(** ** The address of the server *)

Lemma firstExternal_find (ifaces : list NetworkInterface) :
  firstExternal ifaces = option_map address (find externalIPv4 ifaces).
Proof.
  induction ifaces as [|i rest IH]; [reflexivity|].
  cbn [firstExternal find]. now destruct (externalIPv4 i).
Qed.

Lemma find_app (A : Type) (f : A -> bool) (l1 l2 : list A) :
  find f (l1 ++ l2) = match find f l1 with Some x => Some x | None => find f l2 end.
Proof.
  induction l1 as [|x l1 IH]; [reflexivity|].
  cbn [app find]. now destruct (f x).
Qed.

(** X16. [getLocalIP] returns the address of the first interface address,
    in the order of enumeration (interface by interface), that is IPv4 and
    not internal, and [localhost] exactly when there is none: it never
    returns a loopback or an IPv6 address of the machine. *)
Theorem local_ip_first_external (interfaces : Interfaces) :
  let addresses := flat_map snd interfaces in
  match find externalIPv4 addresses with
  | Some iface =>
      getLocalIP interfaces = address iface /\
      In iface addresses /\ family iface = "IPv4"%string /\ internal iface = false
  | None =>
      getLocalIP interfaces = "localhost"%string /\
      forall iface, In iface addresses ->
        family iface <> "IPv4"%string \/ internal iface = true
  end.
Proof.
  cbv zeta.
  assert (H : getLocalIP interfaces =
              match find externalIPv4 (flat_map snd interfaces) with
              | Some iface => address iface
              | None => "localhost"%string
              end).
  { induction interfaces as [|[n ifaces] rest IH]; [reflexivity|].
    cbn [getLocalIP flat_map snd]. rewrite find_app, firstExternal_find.
    destruct (find externalIPv4 ifaces); [reflexivity | exact IH]. }
  destruct (find externalIPv4 (flat_map snd interfaces)) as [iface|] eqn:E.
  - split; [exact H|]. apply find_some in E as [Hin Hext].
    unfold externalIPv4 in Hext. apply andb_prop in Hext as [Hf Hi].
    apply String.eqb_eq in Hf. apply negb_true_iff in Hi. now repeat split.
  - split; [exact H|]. intros iface Hin.
    pose proof (find_none _ _ E iface Hin) as Hn. unfold externalIPv4 in Hn.
    apply andb_false_iff in Hn as [Hn | Hn].
    + left. now apply String.eqb_neq.
    + right. now apply negb_false_iff.
Qed.

(** ** Saved designs *)

Lemma to_int_nonnil (z : Z) :
  Z.to_int z <> Decimal.Pos Decimal.Nil /\ Z.to_int z <> Decimal.Neg Decimal.Nil.
Proof.
  split; intros E;
    (assert (Hz : z = 0)
       by (pose proof (f_equal Z.of_int E) as E'; rewrite DecimalZ.of_to in E'; exact E'));
    subst z; vm_compute in E; discriminate E.
Qed.

Lemma showNumber_inj (a b : Z) : showNumber a = showNumber b -> a = b.
Proof.
  unfold showNumber. intros E.
  apply (f_equal NilZero.int_of_string) in E.
  destruct (to_int_nonnil a) as [Ha1 Ha2], (to_int_nonnil b) as [Hb1 Hb2].
  rewrite !NilZero.isi in E by assumption.
  apply DecimalZ.to_int_inj. congruence.
Qed.

Lemma length_append (s t : string) :
  String.length (s ++ t) = (String.length s + String.length t)%nat.
Proof. induction s as [|c s IH]; [reflexivity | simpl; now rewrite IH]. Qed.

Lemma append_inj_l (p s t : string) : (p ++ s)%string = (p ++ t)%string -> s = t.
Proof. induction p as [|c p IH]; [auto | simpl; intros E; injection E; auto]. Qed.

Lemma append_inj_r (s t q : string) : (s ++ q)%string = (t ++ q)%string -> s = t.
Proof.
  revert t. induction s as [|c s IH]; intros [|d t] E.
  - reflexivity.
  - apply (f_equal String.length) in E. simpl in E. rewrite length_append in E. lia.
  - apply (f_equal String.length) in E. simpl in E. rewrite length_append in E. lia.
  - simpl in E. injection E as -> E. f_equal. now apply IH.
Qed.

Lemma designFile_inj (a b : Z) : designFile a = designFile b -> a = b.
Proof.
  unfold designFile. intros E.
  apply append_inj_l, append_inj_r in E. now apply showNumber_inj.
Qed.

Section DesignFacts.

Variable Body : Type.
Variable truthy : Body -> bool.
Variable stringify : Body -> option (list byte).
Variable port : string.

Lemma saveDesign_current (env : Env) (server : Server Body) (body : Body) :
  currentDesign Body (fst (saveDesign Body stringify port env server body)) = Some body.
Proof.
  unfold saveDesign. cbv zeta.
  destruct (stringify body), (diskWritable env); reflexivity.
Qed.

Lemma serve_current (requests : list (Env * Request Body)) :
  forall (server : Server Body) (last : option Body),
    currentDesign Body server = last ->
    currentDesign Body (serve Body truthy stringify port server requests) =
    fold_left (fun last er =>
                 match snd er with
                 | PostSaveDesign _ body => Some body
                 | GetCurrentDesign _ => last
                 end) requests last.
Proof.
  induction requests as [|[env r] rest IH]; intros server last H; [exact H|].
  cbn [serve fold_left fst snd]. apply IH.
  destruct r as [body|]; cbn [handle fst]; [apply saveDesign_current | exact H].
Qed.

(** X17. After any sequence of requests to a server just started,
    [GET /current-design] answers with the body of the last
    [POST /save-design], also when that request was answered with an
    error because its file could not be written (the variable is assigned
    before the write); it answers 404 when no design was posted or when the
    last body posted is falsy. *)
Theorem current_design_is_last_posted (files : OutputDir)
    (requests : list (Env * Request Body)) (env : Env) :
  snd (handle Body truthy stringify port env
         (serve Body truthy stringify port (started Body files) requests)
         (GetCurrentDesign Body)) =
  match lastPosted Body requests with
  | Some body => if truthy body then Design Body body else NoDesignSaved Body
  | None => NoDesignSaved Body
  end.
Proof.
  cbn [handle snd]. unfold getCurrentDesign, lastPosted.
  now rewrite (serve_current requests (started Body files) None eq_refl).
Qed.

Lemma serve_app (server : Server Body) (l1 l2 : list (Env * Request Body)) :
  serve Body truthy stringify port server (l1 ++ l2) =
  serve Body truthy stringify port (serve Body truthy stringify port server l1) l2.
Proof. apply fold_left_app. Qed.

Lemma handle_other (env : Env) (server : Server Body) (r : Request Body) (file : string) :
  designFile (dateNow env) <> file ->
  readFile (modelFilesOf Body (fst (handle Body truthy stringify port env server r))) file =
  readFile (modelFilesOf Body server) file.
Proof.
  intros H. destruct r as [body|]; [|reflexivity].
  cbn [handle]. unfold saveDesign. cbv zeta.
  destruct (stringify body), (diskWritable env); cbn [fst modelFilesOf]; try reflexivity.
  now apply readFile_other.
Qed.

Lemma serve_other (requests : list (Env * Request Body)) (file : string) :
  forall server : Server Body,
    Forall (fun er => designFile (dateNow (fst er)) <> file) requests ->
    readFile (modelFilesOf Body (serve Body truthy stringify port server requests)) file =
    readFile (modelFilesOf Body server) file.
Proof.
  induction requests as [|[env r] rest IH]; intros server H; [reflexivity|].
  apply Forall_cons_iff in H as [H1 H2].
  cbn [serve fold_left fst snd]. fold (serve Body truthy stringify port).
  change (fold_left _ rest ?s) with (serve Body truthy stringify port s rest).
  rewrite (IH _ H2). now apply handle_other.
Qed.

(** X18. A design that is saved is kept.  When the text of the body can
    be written, [POST /save-design] answers with the URL
    [/models/design-<timestamp>.json], and after any later requests that
    file still holds the text of that body, provided none of them comes in
    the same millisecond (a later save in the same millisecond has the same
    file name and writes over it); files of the directory with other names
    are left as they were. *)
Theorem saved_design_is_kept (server : Server Body) (env : Env) (body : Body)
    (text : list byte) (later : list (Env * Request Body)) :
  stringify body = Some text ->
  diskWritable env = true ->
  Forall (fun er => dateNow (fst er) <> dateNow env) later ->
  (exists arUrl,
     snd (handle Body truthy stringify port env server (PostSaveDesign Body body)) =
     DesignSaved Body (String.append "/models/" (designFile (dateNow env))) arUrl) /\
  readFile
    (modelFilesOf Body
       (serve Body truthy stringify port server ((env, PostSaveDesign Body body) :: later)))
    (designFile (dateNow env)) = Some text /\
  (forall file,
     (forall t, file <> designFile t) ->
     readFile
       (modelFilesOf Body
          (serve Body truthy stringify port server ((env, PostSaveDesign Body body) :: later)))
       file = readFile (modelFilesOf Body server) file).
Proof.
  intros Ht Hw Hlater. split; [|split].
  - cbn [handle]. unfold saveDesign. cbv zeta. rewrite Ht, Hw. cbn [snd]. eauto.
  - change ((env, PostSaveDesign Body body) :: later)
      with ([(env, PostSaveDesign Body body)] ++ later).
    rewrite serve_app, serve_other.
    + cbn [serve fold_left fst snd handle]. unfold saveDesign. cbv zeta.
      rewrite Ht, Hw. cbn [fst modelFilesOf]. apply readFile_written.
    + apply Forall_forall. intros er Her E.
      rewrite Forall_forall in Hlater. apply (Hlater er Her).
      now apply designFile_inj.
  - intros file Hfile.
    rewrite serve_other by (apply Forall_forall; intros er _ E; exact (Hfile _ (eq_sym E))).
    reflexivity.
Qed.

End DesignFacts.

Lemma saved_design_is_kept_witness :
  readFile
    (modelFilesOf (list byte)
       (serve (list byte) (fun _ => true) Some "8002" (started (list byte) [])
          [(at_time 5, PostSaveDesign (list byte) [x7b; x7d]);
           (at_time 6, PostSaveDesign (list byte) [x5b; x5d]);
           (at_time 7, GetCurrentDesign (list byte))]))
    (designFile 5) = Some [x7b; x7d].
Proof.
  apply (saved_design_is_kept (list byte) (fun _ => true) Some "8002"
           (started (list byte) []) (at_time 5) [x7b; x7d] [x7b; x7d]
           [(at_time 6, PostSaveDesign (list byte) [x5b; x5d]);
            (at_time 7, GetCurrentDesign (list byte))]).
  - reflexivity.
  - reflexivity.
  - repeat constructor; simpl; lia.
Defined.

(** ** The URL of the server in the exporter *)

Lemma serverURLFor_truthy (hostname : string) : truthyString (serverURLFor hostname) = true.
Proof.
  unfold serverURLFor. cbv zeta.
  destruct (_ || _ || _)%bool; reflexivity.
Qed.

Lemma serverURLs_cached (u : string) (hostnames : list string) :
  truthyString u = true ->
  serverURLs (Some u) hostnames = repeat u (length hostnames).
Proof.
  intros H. induction hostnames as [|h rest IH]; [reflexivity|].
  cbn [serverURLs getARServerURL length repeat]. rewrite H. now rewrite IH.
Qed.

(** X19. The exporter fixes the URL of the server at the first call of
    [getARServerURL]: from an unset [AR_SERVER_URL], every call returns the
    URL computed from the host name of the first call, whatever the host
    name is at the later calls; it is [http://localhost:8003] for the host
    names [localhost], [127.0.0.1] and the empty one, and
    [https://<hostname>:8002] for any other. *)
Theorem server_url_fixed_by_first_call (hostname : string) (later : list string) :
  serverURLs None (hostname :: later) =
    repeat (serverURLFor hostname) (S (length later)) /\
  (In hostname ["localhost"; "127.0.0.1"; EmptyString]%string ->
   serverURLFor hostname = "http://localhost:8003"%string) /\
  (~ In hostname ["localhost"; "127.0.0.1"; EmptyString]%string ->
   serverURLFor hostname =
     String.append "https://" (String.append hostname ":8002")).
Proof.
  split; [|split].
  - cbn [serverURLs getARServerURL repeat]. f_equal.
    apply serverURLs_cached, serverURLFor_truthy.
  - intros [<- | [<- | [<- | []]]]; reflexivity.
  - intros H. unfold serverURLFor. cbv zeta.
    destruct (String.eqb_spec hostname "localhost") as [-> | _];
      [exfalso; apply H; simpl; tauto|].
    destruct (String.eqb_spec hostname "127.0.0.1") as [-> | _];
      [exfalso; apply H; simpl; tauto|].
    destruct (String.eqb_spec hostname EmptyString) as [-> | _];
      [exfalso; apply H; simpl; tauto|].
    reflexivity.
Qed.
